(** * gemvm: the lifecycle controller of one QEMU virtual machine

    A shallow embedding of [src/gemvm.py] (class [VMControl] and the
    [__main__] block).  The program is a set of asyncio coroutines that
    share the attributes of one [VMControl] object and are multiplexed by a
    single-threaded event loop.  Each coroutine is embedded as a resumption
    function: given the program point at which the coroutine is suspended
    (one point per [await]) and the result the event loop delivers for the
    awaited operation, it runs the Python statements up to the next [await]
    (or to the end of the coroutine) on an explicit state.  The event loop,
    the clock, the guest, QEMU and the file system are the environment:
    they choose which coroutine is resumed next and with which result.

    Modelling conventions:
    - every [await] is a possible switching point (asyncio suspends at a
      subset of them, so every schedule of the real loop is a schedule here);
    - [Task.cancel()] requests that [CancelledError] be thrown into the task
      at its current [await]; on a finished task it does nothing; on a task
      that is awaiting another unfinished task it is forwarded to that task;
    - opening and writing the log file, [print] and writes to [sys.stderr]
      do not fail;
    - a line read from the QMP socket that is handed to [json.loads] is
      represented by the result of [json.loads] on it. *)

From Stdlib Require Import String Ascii List Bool ZArith Lia Arith.
From Stdlib Require Import DecimalString.
Import ListNotations.
Open Scope string_scope.

Set Implicit Arguments.
Set Warnings "-register-all".

(** ** Python values used by the code *)

Module Py.

Definition LF : ascii := ascii_of_nat 10.
Definition CR : ascii := ascii_of_nat 13.
Definition DQ : ascii := ascii_of_nat 34.
Definition nl : string := String LF EmptyString.
Definition crlf : string := String CR (String LF EmptyString).
Definition dq : string := String DQ EmptyString.

(** [bytes.startswith] *)
Definition startswith (s p : string) : bool := String.prefix p s.

(** [sub in s] for [str] and [bytes] *)
Fixpoint contains (sub s : string) : bool :=
  String.prefix sub s ||
  match s with
  | EmptyString => false
  | String _ s' => contains sub s'
  end.

(** Iterating over a file opened in binary mode: the lines, each with its
    terminating newline (the last one may lack it). *)
Fixpoint readlines (s : string) : list string :=
  match s with
  | EmptyString => []
  | String c s' =>
      if Ascii.eqb c LF then String c EmptyString :: readlines s'
      else match readlines s' with
           | [] => [String c EmptyString]
           | l :: ls => String c l :: ls
           end
  end.

(** [str(n)] for an [int] *)
Definition str_int (z : Z) : string := NilZero.string_of_int (Z.to_int z).

Definition str_bool (b : bool) : string := if b then "True" else "False".

Definition str_opt_int (o : option Z) : string :=
  match o with
  | None => "None"
  | Some z => str_int z
  end.

(** The values [json.loads] returns. A [dict] is kept as its items. *)
Inductive json : Type :=
| JNull
| JBool (b : bool)
| JNum (z : Z)
| JStr (s : string)
| JArr (l : list json)
| JObj (items : list (string * json)).

Fixpoint dict_get (k : string) (items : list (string * json)) : option json :=
  match items with
  | [] => None
  | (k', v) :: rest => if String.eqb k k' then Some v else dict_get k rest
  end.

Definition is_str (k : string) (v : json) : bool :=
  match v with
  | JStr s => String.eqb s k
  | _ => false
  end.

(** The exception classes that occur. *)
Inductive exn : Type :=
| ConnectionError          (* raised by the code itself *)
| ConnectionRefusedError   (* subclasses of ConnectionError *)
| ConnectionResetError
| OSError                  (* any other OSError, e.g. FileNotFoundError *)
| ValueError
| JSONDecodeError
| TypeError
| KeyError
| IndexError.

(** [isinstance(e, ConnectionError)] *)
Definition is_ConnectionError (e : exn) : bool :=
  match e with
  | ConnectionError | ConnectionRefusedError | ConnectionResetError => true
  | _ => false
  end.

(** Result of evaluating a Python expression. *)
Inductive res (A : Type) : Type :=
| Ok (a : A)
| Raise (e : exn).
Arguments Raise {A} e.

(** [k in v]: membership in a dict, a list or a str; a TypeError for the
    other JSON values. *)
Definition py_in (k : string) (v : json) : res bool :=
  match v with
  | JObj items => Ok (match dict_get k items with Some _ => true | None => false end)
  | JArr l => Ok (existsb (is_str k) l)
  | JStr s => Ok (contains k s)
  | _ => Raise TypeError
  end.

(** [v[k]] with a str key [k]. *)
Definition py_getitem (k : string) (v : json) : res json :=
  match v with
  | JObj items => match dict_get k items with
                  | Some x => Ok x
                  | None => Raise KeyError
                  end
  | _ => Raise TypeError
  end.

(** [x == {}] *)
Definition eq_empty_dict (x : json) : bool :=
  match x with
  | JObj [] => true
  | _ => false
  end.

(** [k in reply and reply[k] == rhs], with Python's short-circuit [and]. *)
Definition in_and_eq (k : string) (rhs : json -> bool) (reply : json) : res bool :=
  match py_in k reply with
  | Raise e => Raise e
  | Ok false => Ok false
  | Ok true => match py_getitem k reply with
               | Raise e => Raise e
               | Ok x => Ok (rhs x)
               end
  end.

End Py.
Import Py.

(** ** Tasks, program points and the shared state *)

(** The keys of [self._tasks], in the order in which [_run] creates them. *)
Inductive task_name : Type :=
| t_run_vm
| t_wait_until_booted
| t_progress
| t_boot_timeout
| t_shut_down
| t_shutdown_timeout.

Definition task_order : list task_name :=
  [t_run_vm; t_wait_until_booted; t_progress; t_boot_timeout; t_shut_down;
   t_shutdown_timeout].

Definition task_name_eqb (a b : task_name) : bool :=
  match a, b with
  | t_run_vm, t_run_vm
  | t_wait_until_booted, t_wait_until_booted
  | t_progress, t_progress
  | t_boot_timeout, t_boot_timeout
  | t_shut_down, t_shut_down
  | t_shutdown_timeout, t_shutdown_timeout => true
  | _, _ => false
  end.

(** The [await] at which a started coroutine is suspended. A sleeping
    coroutine records the time at which [asyncio.sleep] returns. *)
Inductive pc : Type :=
(* _run_vm *)
| RV_spawn                 (* await asyncio.create_subprocess_exec(...) *)
| RV_wait                  (* await proc.wait() *)
(* _wait_until_booted, inside _check_ssh *)
| WB_connect               (* await asyncio.open_connection(...) *)
| WB_readline              (* await reader.readline() *)
| WB_sleep (wake : nat)    (* await asyncio.sleep(1) *)
(* _progress; [shown] is the local shutdown_req_msg *)
| PR_sleep (wake : nat) (shown : bool)   (* await asyncio.sleep(1) *)
(* _boot_timeout *)
| BT_sleep (wake : nat)    (* await asyncio.sleep(300) *)
(* _shut_down *)
| SD_await_boot            (* await wait_for(_tasks['_wait_until_booted']) *)
| SD_open                  (* await asyncio.open_unix_connection(...) *)
| SD_greeting              (* reply = await reader.readline() *)
| SD_caps                  (* json.loads(await reader.readline()) *)
| SD_signal                (* await events['shutdown_request'].wait() *)
| SD_loop                  (* json.loads(await reader.readline()), in the loop *)
(* _shutdown_timeout *)
| ST_await_boot            (* await wait_for(_tasks['_wait_until_booted']) *)
| ST_signal                (* await events['shutdown_request'].wait() *)
| ST_sleep (wake : nat).   (* await asyncio.sleep(60) *)

(** How a task ended: it returned, it raised an exception, or it was
    cancelled. *)
Inductive outcome : Type :=
| Returned
| Raised (e : exn)
| Cancelled.

Inductive tstatus : Type :=
| NotStarted
| At (p : pc)
| Finished (o : outcome).

Record task : Type := mkTask {
  status : tstatus;
  cancel_req : bool   (* CancelledError is thrown at the next resumption *)
}.

(** Where [_run] itself is. *)
Inductive main_pc : Type :=
| M_init      (* asyncio.run(self._run()) not yet called *)
| M_gather    (* await asyncio.gather(...) *)
| M_done.     (* _run has returned *)

(** The constructor arguments that never change. *)
Record Config : Type := mkConfig {
  disk_image : string;
  mem : Z;
  port : Z;
  flush_log : bool;
  qmp_sock : string   (* os.path.join(os.sep, 'tmp', f'.gemvm_qmp_{os.getpid()}') *)
}.

(** The attributes of the [VMControl] object together with the part of the
    environment the coroutines act on. *)
Record World : Type := mkWorld {
  cfg : Config;  (* constructor arguments *)
  _state : string;  (* self._state *)
  _qmp_established : bool;  (* self._qmp_established *)
  _tasks : task_name -> task;  (* self._tasks *)
  _log_fd : bool;  (* self._log_fd is an open handle *)
  pid : option Z;  (* self.pid *)
  exit_status : option Z;  (* self.exit_status *)
  mem_err : bool;  (* self.mem_err *)
  main : main_pc;  (* where _run is *)
  shutdown_request : bool;  (* events['shutdown_request'].is_set() *)
  now : nat;  (* the clock, in seconds *)
  log_file : option string;  (* content of the log file on disk, None when absent *)
  log_buf : string;  (* text written to self._log_fd and not yet flushed *)
  unlink_ok : bool;  (* whether os.remove of an existing log is permitted *)
  stderr : list string;  (* writes to sys.stderr, oldest first *)
  stdout : list string;  (* what print wrote, oldest first *)
  qmp_sent : list string  (* what was written to the QMP socket, oldest first *)
}.

Definition with_state (x : string) (w : World) : World :=
  mkWorld (cfg w) x (_qmp_established w) (_tasks w) (_log_fd w) (pid w)
    (exit_status w) (mem_err w) (main w) (shutdown_request w) (now w)
    (log_file w) (log_buf w) (unlink_ok w) (stderr w) (stdout w) (qmp_sent
    w).
Definition with_qmp_established (x : bool) (w : World) : World :=
  mkWorld (cfg w) (_state w) x (_tasks w) (_log_fd w) (pid w) (exit_status w)
    (mem_err w) (main w) (shutdown_request w) (now w) (log_file w) (log_buf
    w) (unlink_ok w) (stderr w) (stdout w) (qmp_sent w).
Definition with_tasks (x : task_name -> task) (w : World) : World :=
  mkWorld (cfg w) (_state w) (_qmp_established w) x (_log_fd w) (pid w)
    (exit_status w) (mem_err w) (main w) (shutdown_request w) (now w)
    (log_file w) (log_buf w) (unlink_ok w) (stderr w) (stdout w) (qmp_sent
    w).
Definition with_log_fd (x : bool) (w : World) : World :=
  mkWorld (cfg w) (_state w) (_qmp_established w) (_tasks w) x (pid w)
    (exit_status w) (mem_err w) (main w) (shutdown_request w) (now w)
    (log_file w) (log_buf w) (unlink_ok w) (stderr w) (stdout w) (qmp_sent
    w).
Definition with_pid (x : option Z) (w : World) : World :=
  mkWorld (cfg w) (_state w) (_qmp_established w) (_tasks w) (_log_fd w) x
    (exit_status w) (mem_err w) (main w) (shutdown_request w) (now w)
    (log_file w) (log_buf w) (unlink_ok w) (stderr w) (stdout w) (qmp_sent
    w).
Definition with_exit_status (x : option Z) (w : World) : World :=
  mkWorld (cfg w) (_state w) (_qmp_established w) (_tasks w) (_log_fd w) (pid
    w) x (mem_err w) (main w) (shutdown_request w) (now w) (log_file w)
    (log_buf w) (unlink_ok w) (stderr w) (stdout w) (qmp_sent w).
Definition with_mem_err (x : bool) (w : World) : World :=
  mkWorld (cfg w) (_state w) (_qmp_established w) (_tasks w) (_log_fd w) (pid
    w) (exit_status w) x (main w) (shutdown_request w) (now w) (log_file w)
    (log_buf w) (unlink_ok w) (stderr w) (stdout w) (qmp_sent w).
Definition with_main (x : main_pc) (w : World) : World :=
  mkWorld (cfg w) (_state w) (_qmp_established w) (_tasks w) (_log_fd w) (pid
    w) (exit_status w) (mem_err w) x (shutdown_request w) (now w) (log_file
    w) (log_buf w) (unlink_ok w) (stderr w) (stdout w) (qmp_sent w).
Definition with_shutdown_request (x : bool) (w : World) : World :=
  mkWorld (cfg w) (_state w) (_qmp_established w) (_tasks w) (_log_fd w) (pid
    w) (exit_status w) (mem_err w) (main w) x (now w) (log_file w) (log_buf
    w) (unlink_ok w) (stderr w) (stdout w) (qmp_sent w).
Definition with_now (x : nat) (w : World) : World :=
  mkWorld (cfg w) (_state w) (_qmp_established w) (_tasks w) (_log_fd w) (pid
    w) (exit_status w) (mem_err w) (main w) (shutdown_request w) x (log_file
    w) (log_buf w) (unlink_ok w) (stderr w) (stdout w) (qmp_sent w).
Definition with_log_file (x : option string) (w : World) : World :=
  mkWorld (cfg w) (_state w) (_qmp_established w) (_tasks w) (_log_fd w) (pid
    w) (exit_status w) (mem_err w) (main w) (shutdown_request w) (now w) x
    (log_buf w) (unlink_ok w) (stderr w) (stdout w) (qmp_sent w).
Definition with_log_buf (x : string) (w : World) : World :=
  mkWorld (cfg w) (_state w) (_qmp_established w) (_tasks w) (_log_fd w) (pid
    w) (exit_status w) (mem_err w) (main w) (shutdown_request w) (now w)
    (log_file w) x (unlink_ok w) (stderr w) (stdout w) (qmp_sent w).
Definition with_stderr (x : list string) (w : World) : World :=
  mkWorld (cfg w) (_state w) (_qmp_established w) (_tasks w) (_log_fd w) (pid
    w) (exit_status w) (mem_err w) (main w) (shutdown_request w) (now w)
    (log_file w) (log_buf w) (unlink_ok w) x (stdout w) (qmp_sent w).
Definition with_stdout (x : list string) (w : World) : World :=
  mkWorld (cfg w) (_state w) (_qmp_established w) (_tasks w) (_log_fd w) (pid
    w) (exit_status w) (mem_err w) (main w) (shutdown_request w) (now w)
    (log_file w) (log_buf w) (unlink_ok w) (stderr w) x (qmp_sent w).
Definition with_qmp_sent (x : list string) (w : World) : World :=
  mkWorld (cfg w) (_state w) (_qmp_established w) (_tasks w) (_log_fd w) (pid
    w) (exit_status w) (mem_err w) (main w) (shutdown_request w) (now w)
    (log_file w) (log_buf w) (unlink_ok w) (stderr w) (stdout w) x.

(** ** Primitives *)

(** Library functions whose results only reach the log: the local time of
    day as [time.strftime("%H:%M:%S", time.localtime())] prints it,
    [repr] of a [bytes] object and [traceback.format_exception]. *)
Class PyLib : Type := mkPyLib {
  strftime : nat -> string;
  repr_bytes : string -> string;
  format_exception : exn -> list string
}.

Definition upd (n : task_name) (t : task) (ts : task_name -> task)
  : task_name -> task :=
  fun m => if task_name_eqb m n then t else ts m.

Definition states : list string := ["off"; "booting"; "running"; "shutting_down"].

(** [VMControl.state]'s setter. *)
Definition state_setter (state : string) (w : World) : res World :=
  if existsb (String.eqb state) states then Ok (with_state state w)
  else Raise ValueError.

Definition is_finished (t : task) : bool :=
  match status t with
  | Finished _ => true
  | _ => false
  end.

Definition is_started (t : task) : bool :=
  match status t with
  | NotStarted => false
  | _ => true
  end.

(** The task a coroutine suspended at [p] is awaiting, if it awaits one. *)
Definition awaits_task (p : pc) : option task_name :=
  match p with
  | SD_await_boot | ST_await_boot => Some t_wait_until_booted
  | _ => None
  end.

Definition request_cancel (n : task_name) (ts : task_name -> task)
  : task_name -> task :=
  upd n (mkTask (status (ts n)) true) ts.

(** [Task.cancel()] *)
Definition cancel (n : task_name) (ts : task_name -> task)
  : task_name -> task :=
  match status (ts n) with
  | Finished _ => ts
  | NotStarted => request_cancel n ts
  | At p =>
      match awaits_task p with
      | Some m => if is_finished (ts m) then request_cancel n ts
                  else request_cancel m ts
      | None => request_cancel n ts
      end
  end.

(** [for name in names: self._tasks[name].cancel()] *)
Definition cancel_each (names : list task_name) (ts : task_name -> task)
  : task_name -> task :=
  fold_left (fun ts name => cancel name ts) names ts.

(** [VMControl._cancel_tasks]: no names means every key of [self._tasks]. *)
Definition _cancel_tasks (names : list task_name) (w : World) : World :=
  let names := match names with [] => task_order | _ => names end in
  with_tasks (cancel_each names (_tasks w)) w.

Definition write_stderr (s : string) (w : World) : World :=
  with_stderr (stderr w ++ [s]) w.

Definition print (s : string) (w : World) : World :=
  with_stdout (stdout w ++ [s]) w.

Definition qmp_write (s : string) (w : World) : World :=
  with_qmp_sent (qmp_sent w ++ [s]) w.

Definition file_content (w : World) : string :=
  match log_file w with
  | Some c => c
  | None => ""
  end.

(** A write through a descriptor opened in append mode. *)
Definition append_log_file (data : string) (w : World) : World :=
  with_log_file (Some (file_content w ++ data)) w.

(** [open(self.log_file, 'a+...')]: the file is created when absent. *)
Definition open_append (w : World) : World :=
  with_log_file (Some (file_content w)) w.

Definition flush (w : World) : World :=
  with_log_buf "" (append_log_file (log_buf w) w).

(** [VMControl.log_context] *)
Definition log_context (w : World) : World :=
  if _log_fd w then w else with_log_fd true (open_append w).

Section Controller.

Context {lib : PyLib}.

(** The line [VMControl.log] writes. *)
Definition log_line (msg : string) (time_stamp : bool) (w : World) : string :=
  if time_stamp then strftime (now w) ++ "  " ++ msg ++ nl else msg ++ nl.

(** [VMControl.log]: with the handle held open by [_run] the text stays in
    the handle's buffer unless [flush_log]; otherwise the file is opened,
    written and closed by the [with] statement. *)
Definition log (msg : string) (time_stamp : bool) (w : World) : World :=
  let line := log_line msg time_stamp w in
  if _log_fd w then
    let w' := with_log_buf (log_buf w ++ line) w in
    if flush_log (cfg w) then flush w' else w'
  else append_log_file line (open_append w).

(** [VMControl.__repr__] *)
Definition repr (w : World) : string :=
  "<VMControl('" ++ disk_image (cfg w) ++ "', mem=" ++ str_int (mem (cfg w))
  ++ ", port=" ++ str_int (port (cfg w)) ++ ", pid=" ++ str_opt_int (pid w)
  ++ ", state='" ++ _state w ++ "', qmp_established="
  ++ str_bool (_qmp_established w) ++ ", exit_status="
  ++ str_opt_int (exit_status w) ++ ")>".

(** [VMControl._keyboard_interrupt] *)
Definition _keyboard_interrupt (w : World) : World :=
  with_shutdown_request true w.

(** ** The coroutines *)

(** What the event loop hands to a coroutine when it resumes it. *)
Inductive awaited : Type :=
| Go                       (* first step; sleep over; event set; task done *)
| Spawned (child : Z)      (* create_subprocess_exec returned; the pid *)
| Exited (returncode : Z)  (* proc.wait() returned *)
| Connected                (* open_connection / open_unix_connection returned *)
| Line (data : string)     (* reader.readline() returned *)
| Json (v : option json)   (* a line as json.loads sees it; None: JSONDecodeError *)
| Error (e : exn)          (* the awaited operation raised *)
| Cancel.                  (* CancelledError thrown in by Task.cancel() *)

(** What a coroutine does at the end of a step. *)
Inductive next : Type :=
| Suspend (p : pc)
| Done (o : outcome).

(** Assignment to [self.state], continuing with [k]; a ValueError of the
    setter propagates. *)
Definition assign_state (state : string) (w : World)
  (k : World -> World * next) : World * next :=
  match state_setter state w with
  | Ok w' => k w'
  | Raise e => (w, Done (Raised e))
  end.

Definition mem_err_text : string := "cannot set up guest memory".

(** The [for line in log_fd] loop of [_run_vm]. *)
Definition scan_log (w : World) : bool :=
  existsb (contains mem_err_text) (readlines (file_content w)).

(** The [finally] clause of [_run_vm]. *)
Definition run_vm_finally (o : outcome) (w : World) : World * next :=
  assign_state "off"
    (_cancel_tasks [t_shut_down; t_wait_until_booted; t_shutdown_timeout;
                    t_boot_timeout] w)
    (fun w' => (w', Done o)).

Definition _run_vm (at_ : tstatus) (a : awaited) (w : World)
  : option (World * next) :=
  match at_, a with
  | NotStarted, Go => Some (open_append w, Suspend RV_spawn)
  | At RV_spawn, Spawned child =>
      Some (log ("Subprocess Id " ++ str_int child) true
              (with_pid (Some child) w), Suspend RV_wait)
  | At RV_spawn, Error e => Some (run_vm_finally (Raised e) w)
  | At RV_wait, Exited returncode =>
      let w1 := with_exit_status (Some returncode) w in
      let w2 := if (returncode =? 1)%Z
                then (if scan_log w1 then with_mem_err true w1 else w1)
                else w1 in
      Some (run_vm_finally Returned w2)
  | At (RV_spawn | RV_wait), Cancel => Some (run_vm_finally Cancelled w)
  | _, _ => None
  end.

(** The statements after the [while] loop of [_wait_until_booted]. *)
Definition wub_after_loop (w : World) : World * next :=
  if negb (String.eqb (_state w) "running") then
    (write_stderr ("State changed before successful connection to localhost:"
                   ++ str_int (port (cfg w)) ++ nl) w, Done Returned)
  else (w, Done Returned).

(** The loop test and the statements up to the first [await]. *)
Definition wub_loop (w : World) : World * next :=
  if String.eqb (_state w) "booting" then
    (log "Attempt ssh connection" true w, Suspend WB_connect)
  else wub_after_loop w.

(** [except ConnectionError: await asyncio.sleep(1)] *)
Definition wub_except (e : exn) (w : World) : World * next :=
  if is_ConnectionError e then (w, Suspend (WB_sleep (now w + 1)))
  else (w, Done (Raised e)).

(** The [else] clause of the [try]. *)
Definition wub_else (w : World) : World * next :=
  assign_state "running" w
    (fun w' => wub_after_loop (_cancel_tasks [t_boot_timeout] w')).

(** [_wait_until_booted] with [_check_ssh] inlined. *)
Definition _wait_until_booted (at_ : tstatus) (a : awaited) (w : World)
  : option (World * next) :=
  match at_, a with
  | NotStarted, Go => Some (wub_loop w)
  | At WB_connect, Connected => Some (w, Suspend WB_readline)
  | At WB_connect, Error e => Some (wub_except e w)
  | At WB_readline, Line reply =>
      let w1 := log ("Reply " ++ repr_bytes reply ++ " from guest ssh service")
                  true w in
      if startswith reply "SSH-2.0-" then Some (wub_else w1)
      else Some (wub_except ConnectionError w1)
  | At WB_readline, Error e => Some (wub_except e w)
  | At (WB_sleep wake), Go =>
      if (wake <=? now w)%nat then Some (wub_loop w) else None
  | At (WB_connect | WB_readline | WB_sleep _), Cancel =>
      Some (w, Done Cancelled)
  | _, _ => None
  end.

Definition shutdown_req_text : string := "Shutdown requested".

(** One round of the loop of [_progress], up to its [await]. *)
Definition progress_loop (shown : bool) (w : World) : World * next :=
  if negb (String.eqb (_state w) "off") then
    match _state w with
    | EmptyString => (w, Done (Raised IndexError))
    | String char _ =>
        let w1 := print (String char EmptyString) w in
        if negb shown && shutdown_request w1 then
          (log shutdown_req_text true (print (nl ++ shutdown_req_text ++ nl) w1),
           Suspend (PR_sleep (now w + 1) true))
        else (w1, Suspend (PR_sleep (now w + 1) shown))
    end
  else (w, Done Returned).

Definition _progress (at_ : tstatus) (a : awaited) (w : World)
  : option (World * next) :=
  match at_, a with
  | NotStarted, Go => Some (progress_loop false w)
  | At (PR_sleep wake shown), Go =>
      if (wake <=? now w)%nat then Some (progress_loop shown w) else None
  | At (PR_sleep _ _), Cancel => Some (w, Done Cancelled)
  | _, _ => None
  end.

Definition timed_out_text : string := nl ++ "Timed out." ++ nl.

Definition _boot_timeout (at_ : tstatus) (a : awaited) (w : World)
  : option (World * next) :=
  match at_, a with
  | NotStarted, Go => Some (w, Suspend (BT_sleep (now w + 300)))
  | At (BT_sleep _), Cancel => Some (w, Done Returned)
  | At (BT_sleep wake), Go =>
      if (wake <=? now w)%nat then
        if String.eqb (_state w) "booting" then
          Some (_cancel_tasks [] (write_stderr timed_out_text w), Done Returned)
        else Some (w, Done Returned)
      else None
  | _, _ => None
  end.

(** [b'{"execute": "<command>"}\r\n'] *)
Definition qmp_command (command : string) : string :=
  "{" ++ dq ++ "execute" ++ dq ++ ": " ++ dq ++ command ++ dq ++ "}" ++ crlf.

(** What awaiting the task [_wait_until_booted] gives once it is done: its
    return, or its exception raised in the awaiting coroutine. *)
Definition await_booted (w : World) (p : pc) : option (World * next) :=
  match status (_tasks w t_wait_until_booted) with
  | Finished Returned => Some (w, Suspend p)
  | Finished (Raised e) => Some (w, Done (Raised e))
  | Finished Cancelled => Some (w, Done Cancelled)
  | _ => None
  end.

(** The test of the [while] loop of [_shut_down]. *)
Definition sd_loop (w : World) : World * next :=
  if negb (String.eqb (_state w) "off") then (w, Suspend SD_loop)
  else (w, Done Returned).

Definition _shut_down (at_ : tstatus) (a : awaited) (w : World)
  : option (World * next) :=
  match at_, a with
  | NotStarted, Go => Some (w, Suspend SD_await_boot)
  | At SD_await_boot, Go => await_booted w SD_open
  | At SD_open, Connected =>
      Some (log ("Opened socket " ++ qmp_sock (cfg w)) true w,
            Suspend SD_greeting)
  | At SD_greeting, Line _ =>
      Some (qmp_write (qmp_command "qmp_capabilities") w, Suspend SD_caps)
  | At SD_caps, Json (Some reply) =>
      match in_and_eq "return" eq_empty_dict reply with
      | Ok true =>
          Some (log "Established QMP connection" true
                  (with_qmp_established true w), Suspend SD_signal)
      | Ok false => Some (w, Done (Raised ConnectionError))
      | Raise e => Some (w, Done (Raised e))
      end
  | At SD_signal, Go =>
      if shutdown_request w then
        Some (assign_state "shutting_down"
                (qmp_write (qmp_command "system_powerdown") w)
                (fun w' => sd_loop (log "Sent system_powerdown command" true w')))
      else None
  | At SD_loop, Json (Some reply) =>
      match in_and_eq "event" (is_str "SHUTDOWN") reply with
      | Ok true => Some (w, Done Returned)
      | Ok false => Some (sd_loop w)
      | Raise e => Some (w, Done (Raised e))
      end
  | At (SD_caps | SD_loop), Json None => Some (w, Done (Raised JSONDecodeError))
  | At (SD_open | SD_greeting | SD_caps | SD_loop), Error e =>
      Some (w, Done (Raised e))
  | At (SD_await_boot | SD_open | SD_greeting | SD_caps | SD_signal | SD_loop),
    Cancel => Some (w, Done Cancelled)
  | _, _ => None
  end.

Definition shutdown_timed_out_text : string := nl ++ "Shut down timed out." ++ nl.

Definition _shutdown_timeout (at_ : tstatus) (a : awaited) (w : World)
  : option (World * next) :=
  match at_, a with
  | NotStarted, Go => Some (w, Suspend ST_await_boot)
  | At ST_await_boot, Go => await_booted w ST_signal
  | At ST_signal, Go =>
      if shutdown_request w then Some (w, Suspend (ST_sleep (now w + 60)))
      else None
  | At (ST_sleep wake), Go =>
      if (wake <=? now w)%nat then
        Some (_cancel_tasks [] (write_stderr shutdown_timed_out_text w),
              Done Returned)
      else None
  | At (ST_await_boot | ST_signal | ST_sleep _), Cancel =>
      Some (w, Done Cancelled)
  | _, _ => None
  end.

(** ** The controller [_run] *)

Definition fresh_tasks : task_name -> task := fun _ => mkTask NotStarted false.

(** [os.remove(self.log_file)] inside [try ... except OSError: pass]. *)
Definition remove_log (w : World) : World :=
  match log_file w with
  | None => w                                     (* FileNotFoundError *)
  | Some _ => if unlink_ok w then with_log_file None w
              else w                              (* another OSError *)
  end.

(** [_run] up to its [await asyncio.gather(...)]. A ValueError of the state
    setter would end [_run]. *)
Definition _run_begin (w : World) : World :=
  let w1 := log_context (remove_log w) in
  let w2 := with_shutdown_request false w1 in
  match state_setter "booting" w2 with
  | Raise _ => with_main M_done (with_log_fd false (flush w2))
  | Ok w3 =>
      let w4 := with_tasks fresh_tasks w3 in
      with_main M_gather (log "Starting event loop" true (log "" false w4))
  end.

(** The list [retvals] that [gather] returns. *)
Definition retvals (w : World) : list tstatus :=
  map (fun name => status (_tasks w name)) task_order.

(** The list [errors]: exceptions other than [CancelledError]. *)
Definition errors_of (rs : list tstatus) : list string :=
  flat_map (fun r => match r with
                     | Finished (Raised e) => nl :: format_exception e
                     | _ => []
                     end) rs.

Fixpoint repeat_string (s : string) (n : nat) : string :=
  match n with
  | O => ""
  | S n' => s ++ repeat_string s n'
  end.

(** [_run] from the return of [gather] to its end; leaving the [with]
    statement closes the log. *)
Definition _run_end (w : World) : World :=
  let w1 := log (repr w) true w in
  let errors := errors_of (retvals w) in
  let w2 := match errors with
            | [] => w1
            | _ => log (repeat_string "-" 78 ++ nl
                        ++ "Errors were produced while running the control script:"
                        ++ nl ++ String.concat "" errors) false w1
            end in
  with_main M_done (with_log_fd false (flush w2)).

(** [VMControl.__call__]'s return value, once [_run] has returned. *)
Definition call_result (w : World) : option Z := exit_status w.

(** The argument of [sys.exit] in the [__main__] block. *)
Definition sys_exit_arg (exit_status : option Z) : Z :=
  match exit_status with
  | None => 1
  | Some c => c
  end.

(** ** The event loop *)

(** What the environment does: the caller calls the object, a second
    passes, SIGINT arrives, QEMU writes to its output, the log handle
    flushes its buffer, the loop resumes a task, [gather] returns. *)
Inductive event : Type :=
| Call
| Tick
| Sigint
| ChildOutput (data : string)
| LogFlush
| Resume (name : task_name) (a : awaited)
| Gathered.

Definition coroutine (name : task_name)
  : tstatus -> awaited -> World -> option (World * next) :=
  match name with
  | t_run_vm => _run_vm
  | t_wait_until_booted => _wait_until_booted
  | t_progress => _progress
  | t_boot_timeout => _boot_timeout
  | t_shut_down => _shut_down
  | t_shutdown_timeout => _shutdown_timeout
  end.

(** The tasks created before [name]. *)
Fixpoint before (name : task_name) (l : list task_name) : list task_name :=
  match l with
  | [] => []
  | m :: l' => if task_name_eqb m name then [] else m :: before name l'
  end.

(** Record how the step of task [name] ended. A coroutine that returns
    while a cancellation is pending leaves its task cancelled. *)
Definition settle (name : task_name) (r : World * next) : World :=
  let '(w, nx) := r in
  let t := _tasks w name in
  let t' := match nx with
            | Suspend p => mkTask (At p) (cancel_req t)
            | Done Returned =>
                mkTask (Finished (if cancel_req t then Cancelled else Returned))
                       false
            | Done o => mkTask (Finished o) false
            end in
  with_tasks (upd name t' (_tasks w)) w.

Definition clear_cancel (name : task_name) (w : World) : World :=
  with_tasks (upd name (mkTask (status (_tasks w name)) false) (_tasks w)) w.

(** One step of a task. The first steps run in creation order. A pending
    cancellation is what the loop delivers, whatever the awaited operation
    did; thrown into a coroutine that has not started, it ends the task
    without running it. *)
Definition resume (name : task_name) (a : awaited) (w : World) : option World :=
  let t := _tasks w name in
  match status t with
  | Finished _ => None
  | NotStarted =>
      if forallb (fun m => is_started (_tasks w m)) (before name task_order) then
        match cancel_req t, a with
        | true, Cancel => Some (settle name (w, Done Cancelled))
        | true, _ => None
        | false, _ => option_map (settle name) (coroutine name NotStarted a w)
        end
      else None
  | At p =>
      match cancel_req t, a with
      | true, Cancel =>
          option_map (settle name)
            (coroutine name (At p) Cancel (clear_cancel name w))
      | true, _ => None
      | false, Cancel => None
      | false, _ => option_map (settle name) (coroutine name (At p) a w)
      end
  end.

Definition all_finished (w : World) : bool :=
  forallb (fun name => is_finished (_tasks w name)) task_order.

Definition step (w : World) (e : event) : option World :=
  match e, main w with
  | Call, M_init => Some (_run_begin w)
  | Tick, _ => Some (with_now (S (now w)) w)
  | Sigint, M_gather => Some (_keyboard_interrupt w)
  | ChildOutput data, (M_gather | M_done) =>
      if is_started (_tasks w t_run_vm) then Some (append_log_file data w)
      else None
  | LogFlush, _ => if _log_fd w then Some (flush w) else None
  | Resume name a, M_gather => resume name a w
  | Gathered, M_gather => if all_finished w then Some (_run_end w) else None
  | _, _ => None
  end.

Fixpoint run (w : World) (evs : list event) : option World :=
  match evs with
  | [] => Some w
  | e :: evs' => match step w e with
                 | Some w' => run w' evs'
                 | None => None
                 end
  end.

(** [VMControl.__init__], with the log file and the directory as found. *)
Definition init (c : Config) (old_log : option string) (can_unlink : bool)
  : World :=
  mkWorld c "off" false fresh_tasks false None None false M_init false 0
          old_log "" can_unlink [] [] [].

Definition reachable (w : World) : Prop :=
  exists c old_log can_unlink evs, run (init c old_log can_unlink) evs = Some w.

End Controller.

(** ** A concrete session *)

Definition demo_lib : PyLib :=
  mkPyLib (fun _ => "12:00:00") (fun b => "b'" ++ b ++ "'") (fun _ => ["error" ++ nl]).

Definition demo_cfg : Config :=
  mkConfig "qemuiraf.qcow2" 3 2222 false "/tmp/.gemvm_qmp_4242".

Definition start_all : list event :=
  Call :: map (fun name => Resume name Go) task_order.

Definition ok_reply : json := JObj [("return", JObj [])].
Definition shutdown_event : json := JObj [("event", JStr "SHUTDOWN")].

(** Scenario A: the probe succeeds on its third attempt, the negotiation
    succeeds, SIGINT arrives, the guest reports SHUTDOWN and QEMU exits
    with 0. *)
Definition scenario_A : list event :=
  start_all ++
  [Resume t_run_vm (Spawned 4243);
   Resume t_wait_until_booted (Error ConnectionRefusedError); Tick;
   Resume t_wait_until_booted Go;
   Resume t_wait_until_booted Connected;
   Resume t_wait_until_booted (Line ""); Tick;
   Resume t_wait_until_booted Go;
   Resume t_wait_until_booted Connected;
   Resume t_wait_until_booted (Line ("SSH-2.0-OpenSSH_8.0" ++ crlf));
   Resume t_boot_timeout Cancel;
   Resume t_shut_down Go;
   Resume t_shutdown_timeout Go;
   Resume t_shut_down Connected;
   Resume t_shut_down (Line "greeting");
   Resume t_shut_down (Json (Some ok_reply));
   Sigint;
   Resume t_shut_down Go;
   Resume t_shutdown_timeout Go;
   Resume t_shut_down (Json (Some (JObj [("event", JStr "POWERDOWN")])));
   Resume t_shut_down (Json (Some shutdown_event));
   Resume t_run_vm (Exited 0);
   Resume t_progress Go;
   Resume t_shutdown_timeout Cancel;
   Gathered].

(** ** Notions used in the statements *)

(** The log file and the unflushed text after [log] has written [line]. *)
Definition logged_file (line : string) (w : World) : option string :=
  if _log_fd w then
    if flush_log (cfg w) then Some (file_content w ++ (log_buf w ++ line))
    else log_file w
  else Some (file_content w ++ line).

Definition logged_buf (line : string) (w : World) : string :=
  if _log_fd w then
    if flush_log (cfg w) then "" else log_buf w ++ line
  else log_buf w.

(** The coroutine is suspended awaiting the task [_wait_until_booted]. *)
Definition awaits_booted (t : task) : bool :=
  match status t with
  | At p => match awaits_task p with
            | Some _ => true
            | None => false
            end
  | _ => false
  end.

(** The task ended by an exception or a cancellation. *)
Definition failed (t : task) : bool :=
  match status t with
  | Finished Returned => false
  | Finished _ => true
  | _ => false
  end.

(** Task [name] runs no further statement of its coroutine other than
    handlers: it is finished, or [CancelledError] is on its way to it, or it
    awaits the boot probe and the probe has failed or is being cancelled. *)
Definition doomed (ts : task_name -> task) (name : task_name) : bool :=
  is_finished (ts name) || cancel_req (ts name)
  || (awaits_booted (ts name)
      && (failed (ts t_wait_until_booted)
          || (negb (is_finished (ts t_wait_until_booted))
              && cancel_req (ts t_wait_until_booted)))).

Definition sd_negotiating (p : pc) : bool :=
  match p with
  | SD_open | SD_greeting | SD_caps | SD_signal => true
  | _ => false
  end.

Definition sd_past_boot (p : pc) : bool :=
  match p with
  | SD_open | SD_greeting | SD_caps | SD_signal | SD_loop => true
  | _ => false
  end.

(** [_shut_down] has received the reply to qmp_capabilities. *)
Definition sd_past_caps (s : tstatus) : bool :=
  match s with
  | At SD_signal | At SD_loop | Finished _ => true
  | _ => false
  end.

(** [_shut_down] has not yet reached the statement after the wait for the
    shutdown request. *)
Definition sd_before_signal (s : tstatus) : bool :=
  match s with
  | NotStarted => true
  | At p => match p with
            | SD_await_boot | SD_open | SD_greeting | SD_caps | SD_signal => true
            | _ => false
            end
  | Finished _ => false
  end.

(** How many power-down commands were written to the QMP socket. *)
Definition powerdowns (w : World) : nat :=
  count_occ string_dec (qmp_sent w) (qmp_command "system_powerdown").

(** The cleanup of [_run_vm] names these tasks. *)
Definition cleanup_names : list task_name :=
  [t_shut_down; t_wait_until_booted; t_shutdown_timeout; t_boot_timeout].

(** What holds of the shared state while [_run] is in [gather] and after. *)
Record Inv (w : World) : Prop := mkInv {
  inv_state : In (_state w) states;
  inv_probe : doomed (_tasks w) t_wait_until_booted = false ->
              _state w = "booting";
  inv_sd_wait : doomed (_tasks w) t_shut_down = false ->
                sd_before_signal (status (_tasks w t_shut_down)) = true ->
                status (_tasks w t_wait_until_booted) = Finished Returned ->
                _state w = "running";
  inv_sd_loop : doomed (_tasks w) t_shut_down = false ->
                status (_tasks w t_shut_down) = At SD_loop ->
                _state w = "shutting_down";
  inv_sd_past : forall p, status (_tasks w t_shut_down) = At p ->
                sd_past_boot p = true ->
                status (_tasks w t_wait_until_booted) = Finished Returned;
  inv_off : is_finished (_tasks w t_run_vm) = true -> _state w = "off";
  inv_cleanup_sd : is_finished (_tasks w t_run_vm) = true ->
                   doomed (_tasks w) t_shut_down = true;
  inv_cleanup_wb : is_finished (_tasks w t_run_vm) = true ->
                   doomed (_tasks w) t_wait_until_booted = true;
  inv_cleanup_st : is_finished (_tasks w t_run_vm) = true ->
                   doomed (_tasks w) t_shutdown_timeout = true;
  inv_cleanup_bt : is_finished (_tasks w t_run_vm) = true ->
                   doomed (_tasks w) t_boot_timeout = true;
  inv_fifo : status (_tasks w t_run_vm) = NotStarted ->
             forall name, status (_tasks w name) = NotStarted
                          /\ cancel_req (_tasks w name) = false;
  inv_qmp : _qmp_established w = true ->
            sd_past_caps (status (_tasks w t_shut_down)) = true;
  inv_sent_le : powerdowns w <= 1;
  inv_sent_0 : sd_before_signal (status (_tasks w t_shut_down)) = true ->
               powerdowns w = 0;
  inv_sent_1 : status (_tasks w t_shut_down) = At SD_loop -> powerdowns w = 1;
  inv_exit : is_finished (_tasks w t_run_vm) = false -> exit_status w = None;
  inv_mem : exit_status w = None -> mem_err w = false
}.

(** Before [_run] starts the object is as [__init__] left it. *)
Record Fresh (w : World) : Prop := mkFresh {
  fresh_state : _state w = "off";
  fresh_qmp : _qmp_established w = false;
  fresh_exit : exit_status w = None;
  fresh_mem : mem_err w = false;
  fresh_sent : qmp_sent w = [];
  fresh_log_fd : _log_fd w = false;
  fresh_buf : log_buf w = ""
}.

Definition Invariant (w : World) : Prop :=
  match main w with
  | M_init => Fresh w
  | _ => Inv w
  end.

(** The text has no newline. *)
Fixpoint no_newline (s : string) : bool :=
  match s with
  | EmptyString => true
  | String c s' => negb (Ascii.eqb c LF) && no_newline s'
  end.


(** What a step of [_run_vm] does to [exit_status] and [mem_err]. *)
Definition exit_status_after (name : task_name) (a : awaited) (w : World)
  : option Z :=
  match name, a with
  | t_run_vm, Exited c => Some c
  | _, _ => exit_status w
  end.

Definition mem_err_after (name : task_name) (a : awaited) (w : World) : bool :=
  match name, a with
  | t_run_vm, Exited c =>
      if (c =? 1)%Z && contains mem_err_text (file_content w) then true
      else mem_err w
  | _, _ => mem_err w
  end.

(** The reply to qmp_capabilities as the interface is documented: a JSON
    object whose key "return" is mapped to an empty object. *)
Definition standard_response (v : option json) : bool :=
  match v with
  | Some (JObj items) =>
      match dict_get "return" items with
      | Some (JObj []) => true
      | _ => false
      end
  | _ => false
  end.

(** A JSON object whose key "event" equals "SHUTDOWN". *)
Definition shutdown_line (items : list (string * json)) : bool :=
  match dict_get "event" items with
  | Some (JStr s) => String.eqb s "SHUTDOWN"
  | _ => false
  end.

(** The coroutine an [await] belongs to. *)
Definition owner (p : pc) : task_name :=
  match p with
  | RV_spawn | RV_wait => t_run_vm
  | WB_connect | WB_readline | WB_sleep _ => t_wait_until_booted
  | PR_sleep _ _ => t_progress
  | BT_sleep _ => t_boot_timeout
  | SD_await_boot | SD_open | SD_greeting | SD_caps | SD_signal | SD_loop =>
      t_shut_down
  | ST_await_boot | ST_signal | ST_sleep _ => t_shutdown_timeout
  end.

(** Every suspended task is at an [await] of its own coroutine. *)
Definition well_placed (w : World) : Prop :=
  forall name p, status (_tasks w name) = At p -> owner p = name.

(** A step of task [n] changed neither the state, nor what was written to
    the standard error stream, nor any other task. *)
Definition unchanged_but (n : task_name) (w w' : World) : Prop :=
  _state w' = _state w /\ stderr w' = stderr w /\
  forall m, m <> n -> _tasks w' m = _tasks w m.



(** The log file of [w'] is that of [w] with text added at its end. *)
Definition appends (w w' : World) : Prop :=
  exists data, file_content w' = file_content w ++ data.

(** Every key of [self._tasks] is doomed. *)
Definition all_doomed (w : World) : Prop :=
  forall name, doomed (_tasks w) name = true.


(** ** Sessions used as examples *)

(** The state a sequence of events leads to, from a fresh object in a
    directory without a log. *)
Definition after (evs : list event) : World :=
  match run (lib := demo_lib) (init demo_cfg None true) evs with
  | Some w => w
  | None => init demo_cfg None true
  end.

Definition ssh_banner : string := "SSH-2.0-OpenSSH_8.0" ++ crlf.

(** QEMU is running and the probe is connecting. *)
Definition probing : list event :=
  start_all ++ [Resume t_run_vm (Spawned 4243)].

(** The guest has answered with its SSH banner. *)
Definition booted : list event :=
  probing ++ [Resume t_wait_until_booted Connected;
              Resume t_wait_until_booted (Line ssh_banner)].

(** The QMP greeting was read and qmp_capabilities sent. *)
Definition negotiating : list event :=
  booted ++ [Resume t_boot_timeout Cancel;
             Resume t_shut_down Go;
             Resume t_shutdown_timeout Go;
             Resume t_shut_down Connected;
             Resume t_shut_down (Line "greeting")].

(** The negotiation succeeded and SIGINT has arrived. *)
Definition signalled : list event :=
  negotiating ++ [Resume t_shut_down (Json (Some ok_reply)); Sigint].

(** The power-down command was sent. *)
Definition powering_down : list event :=
  signalled ++ [Resume t_shut_down Go].


(** The shutdown watchdog's 60 seconds pass after the power-down command. *)
Definition shutdown_overdue : list event :=
  powering_down ++ [Resume t_shutdown_timeout Go] ++ repeat Tick 60.

(** ** The [__main__] block *)

(** The module constants [mem_GB] and [ssh_port]. *)
Definition mem_GB : Z := 3.
Definition ssh_port : Z := 2222.

(** What [os.kill(vm.pid, 0)] does. *)
Inductive kill_result : Type :=
| Kill_ok                      (* the process exists *)
| Kill_lookup_error            (* ProcessLookupError *)
| Kill_raises (e : exn).       (* any other exception *)

Definition msg_success : string := nl ++ "VM process completed successfully".

(** [end = f'see {vm.log_file}\n'] *)
Definition msg_end (log_name : string) : string := "see " ++ log_name ++ nl.

Definition msg_failed_to_start (log_name : string) : string :=
  nl ++ "Failed to start VM process: " ++ msg_end log_name.

Definition msg_died (log_name : string) : string :=
  nl ++ "VM process died uncleanly: " ++ msg_end log_name.

Definition msg_still_running (log_name : string) (child : Z) : string :=
  nl ++ "Apparently failed to shut down VM process: " ++ msg_end log_name
  ++ nl ++ "Try logging in with ssh and issuing " ++ dq ++ "sudo "
  ++ "shutdown now" ++ dq ++ " manually; otherwise" ++ nl ++ "kill process "
  ++ str_int child ++ " if it's unresponsive." ++ nl.

Definition msg_killed (log_name : string) (code : Z) : string :=
  nl ++ "VM process killed with signal " ++ str_int (- code) ++ ": "
  ++ msg_end log_name.

Definition msg_error_status (log_name : string) (code : Z) : string :=
  nl ++ "VM process completed with error status " ++ str_int code ++ ": "
  ++ msg_end log_name.

Definition msg_memory : string :=
  "It looks like QEMU failed to allocate " ++ str_int mem_GB ++ "GB of "
  ++ "contiguous memory to run the VM." ++ nl ++ nl
  ++ "Try restarting large programs such as your Web browser, "
  ++ "to reduce memory" ++ nl ++ "fragmentation (or closing them "
  ++ "entirely if that doesn't solve it). If the" ++ nl ++ "problem "
  ++ "persists, try reducing " ++ dq ++ "mem_GB" ++ dq ++ " in the configuration "
  ++ "(without going" ++ nl ++ "below 0.25 to 0.5GB, for acceptable "
  ++ "performance with a minimal installation)." ++ nl.

(** The message of the [else] branch; [os.kill] is called only when there
    is no exit status but a pid, and an exception of it other than
    ProcessLookupError ends the script. *)
Definition failure_message (log_name : string) (k : kill_result)
  (exit_status : option Z) (pid : option Z) : res string :=
  match exit_status with
  | None =>
      match pid with
      | None => Ok (msg_failed_to_start log_name)
      | Some child =>
          match k with
          | Kill_lookup_error => Ok (msg_died log_name)
          | Kill_ok => Ok (msg_still_running log_name child)
          | Kill_raises e => Raise e
          end
      end
  | Some code =>
      if (code <? 0)%Z then Ok (msg_killed log_name code)
      else Ok (msg_error_status log_name code)
  end.

Section MainBlock.

Context {lib : PyLib}.

(** [sys.stderr.write(msg + '\n'); vm.log(msg, time_stamp=False)] *)
Definition report (msg : string) (w : World) : World :=
  log msg false (write_stderr (msg ++ nl) w).

(** The [__main__] block after [exit_status = vm()], up to and including
    [sys.exit]: the final state and the exit code, or the exception that
    ends the script. [log_name] is [vm.log_file]. *)
Definition main_block (log_name : string) (k : kill_result) (w : World)
  : res (World * Z) :=
  let exit_status := call_result w in
  match exit_status with
  | Some 0%Z =>
      Ok (log msg_success false (print (msg_success ++ nl ++ nl) w),
          sys_exit_arg exit_status)
  | _ =>
      match failure_message log_name k exit_status (pid w) with
      | Raise e => Raise e
      | Ok msg =>
          let w1 := report msg w in
          let w2 := if mem_err w1 then report msg_memory w1 else w1 in
          Ok (w2, sys_exit_arg exit_status)
      end
  end.

End MainBlock.

(** ** Further notions used in the statements *)

(** The text that is in the log file or still in the open handle's buffer. *)
Definition pending (w : World) : string := file_content w ++ log_buf w.

(** What [_progress] prints when it notices the shutdown request. *)
Definition announce : string := nl ++ shutdown_req_text ++ nl.

Definition announced (w : World) : nat :=
  count_occ string_dec (stdout w) announce.

(** The local variable [shutdown_req_msg] of a suspended [_progress]. *)
Definition shown_of (s : tstatus) : bool :=
  match s with
  | At (PR_sleep _ shown) => shown
  | _ => false
  end.

(** The announcement is printed at most once, and only after the request. *)
Definition announce_inv (w : World) : Prop :=
  announced w <= 1 /\
  (main w = M_init -> announced w = 0) /\
  (is_finished (_tasks w t_progress) = false ->
   shown_of (status (_tasks w t_progress)) = false -> announced w = 0) /\
  (0 < announced w -> shutdown_request w = true).

Definition is_sigint (e : event) : bool :=
  match e with
  | Sigint => true
  | _ => false
  end.

(** What [_shut_down] can have written to the QMP socket, by the [await] it
    is suspended at. *)
Definition sent_at (s : tstatus) (sent : list string) : Prop :=
  match s with
  | NotStarted | At SD_await_boot | At SD_open | At SD_greeting => sent = []
  | At SD_caps | At SD_signal => sent = [qmp_command "qmp_capabilities"]
  | At SD_loop =>
      sent = [qmp_command "qmp_capabilities"; qmp_command "system_powerdown"]
  | At _ => False
  | Finished _ =>
      sent = [] \/ sent = [qmp_command "qmp_capabilities"] \/
      sent = [qmp_command "qmp_capabilities"; qmp_command "system_powerdown"]
  end.

(** The state says that the guest has booted. *)
Definition booted_state (w : World) : bool :=
  String.eqb (_state w) "running" || String.eqb (_state w) "shutting_down".

(** [_run] holds the log open exactly while it gathers the tasks, and a
    closed handle has nothing buffered. *)
Definition handle_inv (w : World) : Prop :=
  (_log_fd w = true <-> main w = M_gather) /\
  (_log_fd w = false -> log_buf w = "").

(** Some task ended with an exception other than a cancellation. *)
Definition some_task_raised (w : World) : Prop :=
  exists name e, status (_tasks w name) = Finished (Raised e).

(** The names [_cancel_tasks] goes through. *)
Definition cancelled_names (names : list task_name) : list task_name :=
  match names with
  | [] => task_order
  | _ => names
  end.

(** The process whose exit was recorded had been started, and the memory
    failure is only ever flagged together with exit status 1. *)
Definition exit_inv (w : World) : Prop :=
  (status (_tasks w t_run_vm) = At RV_wait -> pid w <> None) /\
  (exit_status w <> None -> pid w <> None) /\
  (mem_err w = true -> exit_status w = Some 1%Z).

(** A state that says the guest has booted comes with a probe that
    returned. *)
Definition probe_done (w : World) : Prop :=
  booted_state w = true ->
  status (_tasks w t_wait_until_booted) = Finished Returned.

(** What was written to the QMP socket fits the place of [_shut_down]. *)
Definition traffic_inv (w : World) : Prop :=
  sent_at (status (_tasks w t_shut_down)) (qmp_sent w).

(** ** Further sessions used as examples *)

(** The tasks end after the cleanup of [_run_vm], and [gather] returns. *)
Definition wind_down : list event :=
  [Resume t_wait_until_booted Cancel; Resume t_boot_timeout Cancel;
   Resume t_shut_down Go; Resume t_shutdown_timeout Go;
   Tick; Resume t_progress Go; Gathered].

(** QEMU cannot allocate the guest memory and exits with 1. *)
Definition scenario_C : list event :=
  probing ++ [ChildOutput ("qemu: cannot set up guest memory 'pc.ram'" ++ nl);
              Resume t_run_vm (Exited 1)] ++ wind_down.

(** QEMU cannot be started. *)
Definition scenario_D : list event :=
  start_all ++ [Resume t_run_vm (Error OSError)] ++ wind_down.

Definition demo_log_name : string := "gemvm_qemuiraf.log".

(** ** Notions used in the statements about the reading loop, the exit
    code, the old log file and the error report *)

(** How what [reader.readline()] delivers in the loop of [_shut_down] ends
    the task, if it does: a JSON object whose "event" is "SHUTDOWN" lets it
    return; a line that is not JSON raises JSONDecodeError; a JSON value on
    which ['event' in reply] or [reply['event']] is not defined raises
    TypeError; an exception of the read leaves the task; a cancellation
    cancels it. On anything else the loop goes on. *)
Definition loop_exit (a : awaited) : option outcome :=
  match a with
  | Json (Some (JObj items)) =>
      if shutdown_line items then Some Returned else None
  | Json (Some (JStr s)) =>
      if contains "event" s then Some (Raised TypeError) else None
  | Json (Some (JArr l)) =>
      if existsb (is_str "event") l then Some (Raised TypeError) else None
  | Json (Some _) => Some (Raised TypeError)
  | Json None => Some (Raised JSONDecodeError)
  | Error e => Some (Raised e)
  | Cancel => Some Cancelled
  | _ => None
  end.

(** The loop is left only upon a line whose key "event" equals
    "SHUTDOWN". *)
Definition loop_ends_only_on_shutdown {lib : PyLib} : Prop :=
  forall w a w',
    reachable w -> status (_tasks w t_shut_down) = At SD_loop ->
    step w (Resume t_shut_down a) = Some w' ->
    is_finished (_tasks w' t_shut_down) = true ->
    exists items, a = Json (Some (JObj items)) /\ shutdown_line items = true.



(** What is left of the old log file after [os.remove] in [_run]: nothing
    if there was none or it could be removed, all of it otherwise. *)
Definition kept_log (old_log : option string) (can_unlink : bool) : string :=
  match old_log with
  | Some old => if can_unlink then "" else old
  | None => ""
  end.

(** What a task's result adds to the list [errors] of [_run]. *)
Definition raised_report {lib : PyLib} (s : tstatus) : list string :=
  match s with
  | Finished (Raised e) => nl :: format_exception e
  | _ => []
  end.

(** The text of the error report as [log] writes it, or nothing if there
    are no errors. *)
Definition error_block (errors : list string) : string :=
  match errors with
  | [] => ""
  | _ => repeat_string "-" 78 ++ nl
         ++ "Errors were produced while running the control script:" ++ nl
         ++ String.concat "" errors ++ nl
  end.

(** * gemvm.config: maintaining the configuration file

    A shallow embedding of [src/gemvm/config.py]. The console is the list
    of what [input()] will return (a line, or EOFError / KeyboardInterrupt)
    and the lists of what was written to the two output streams. What
    [argparse], [get_config] and [_merge_args] return is given: the
    subcommand with its name (a string for add, optional for del and list),
    the dictionary [config['names']] (kept as its items, in insertion
    order), whether [conf_errs] is non-empty, and the merged arguments of
    the VM. Assertions are enabled. *)

Module GemvmConfig.

(** [str.lower] on the ASCII letters of an answer. *)
Definition lower_ascii (c : ascii) : ascii :=
  let n := nat_of_ascii c in
  if ((65 <=? n) && (n <=? 90))%nat then ascii_of_nat (n + 32) else c.

Fixpoint lower (s : string) : string :=
  match s with
  | EmptyString => EmptyString
  | String c s' => String (lower_ascii c) (lower s')
  end.

(** [x in (a, b, ...)] for strings. *)
Definition str_in (x : string) (l : list string) : bool :=
  existsb (String.eqb x) l.

(** The text [input] writes before it reads. *)
Definition prompt_text (prompt : string) : string := prompt ++ " (y/[n]): ".

(** One round of the loop of [confirm]: the answer [input()] gives, or the
    empty answer and an empty line printed on EOFError and
    KeyboardInterrupt. *)
Definition read_answer (prompt : string) (i : option string)
  (out : list string) : string * list string :=
  let out1 := (out ++ [prompt_text prompt])%list in
  match i with
  | Some line => (lower line, out1)
  | None => ("", (out1 ++ [nl])%list)
  end.

(** [confirm(prompt)]: the verdict, the input left and the output. The
    verdict is [None] when the input runs out before an answer is
    recognised: [input()] has then written the prompt once more and does
    not return. *)
Fixpoint confirm (prompt : string) (inputs : list (option string))
  (out : list string) : option bool * list (option string) * list string :=
  match inputs with
  | [] => (None, [], (out ++ [prompt_text prompt])%list)
  | i :: rest =>
      let '(answer, out1) := read_answer prompt i out in
      if str_in answer ["y"; "yes"] then (Some true, rest, out1)
      else if str_in answer ["n"; "no"; ""] then (Some false, rest, out1)
      else confirm prompt rest out1
  end.

(** The answer is y or yes, in any letter case. *)
Definition says_yes (i : option string) : bool :=
  match i with
  | Some line => str_in (lower line) ["y"; "yes"]
  | None => false
  end.

(** The answer is n, no or empty, or there is no answer (EOFError,
    KeyboardInterrupt). *)
Definition says_no (i : option string) : bool :=
  match i with
  | Some line => str_in (lower line) ["n"; "no"; ""]
  | None => true
  end.

Definition recognised (i : option string) : bool := says_yes i || says_no i.

(** What [parser.parse_args()] returns: the subcommand and [args.name],
    which add requires and del and list take optionally. *)
Inductive args : Type :=
| Add (name : string)
| Del (name : option string)
| List (name : option string).

(** Truth value of a string. *)
Definition nonempty (s : string) : bool := negb (String.eqb s "").

Definition dict := list (string * json).

(** [k in d] *)
Definition dict_mem (k : string) (d : dict) : bool :=
  match dict_get k d with
  | Some _ => true
  | None => false
  end.

(** [d[k] = v]: the value is replaced in place, or the item added at the
    end. *)
Fixpoint dict_set (k : string) (v : json) (d : dict) : dict :=
  match d with
  | [] => [(k, v)]
  | (k', v') :: rest =>
      if String.eqb k k' then (k', v) :: rest
      else (k', v') :: dict_set k v rest
  end.

(** The items of [d] without the key [k]. *)
Fixpoint dict_remove (k : string) (d : dict) : dict :=
  match d with
  | [] => []
  | (k', v') :: rest =>
      if String.eqb k k' then rest else (k', v') :: dict_remove k rest
  end.

(** [del d[k]] *)
Definition dict_del (k : string) (d : dict) : res dict :=
  if dict_mem k d then Ok (dict_remove k d) else Raise KeyError.

(** The entries whose value is a dictionary, and the others. *)
Definition is_obj (item : string * json) : bool :=
  match snd item with
  | JObj _ => true
  | _ => false
  end.

(** How [main] ends. *)
Inductive ending : Type :=
| Returns                    (* the end of [main] is reached *)
| Exits (code : Z)           (* sys.exit(code) *)
| Uncaught (e : exn)         (* an exception leaves [main] *)
| Waits.                     (* [input()] does not return *)

Record result : Type := mkResult {
  ends : ending;
  names_after : dict;          (* config['names'] when [main] ends *)
  written : bool;              (* write_config(config, config_file) was called *)
  inputs_left : list (option string);
  out : list string;           (* standard output *)
  err : list string            (* standard error *)
}.

Section Main.

(** [str(value)] for a value of the configuration. *)
Variable py_str : json -> string.

(** [sys.argv[0]]'s base name. *)
Variable script_name : string.

Definition msg_not_found (name : string) : string :=
  script_name ++ ": entry '" ++ name ++ "' not found" ++ nl.

Definition msg_corrupt : string :=
  script_name ++ ": can't update corrupt config; "
  ++ "delete it (or fix manually) first" ++ nl.

Definition msg_invalid (name : string) : string :=
  script_name ++ ": invalid entry for '" ++ name ++ "'" ++ nl ++ nl.

Definition aborted : string := "Aborted" ++ nl.

(** [print(f'    {kw}={vals[kw]}')] *)
Definition show_kw (kv : string * json) : string :=
  "    " ++ fst kv ++ "=" ++ py_str (snd kv) ++ nl.

(** One round of the loop over [section.items()]. *)
Definition list_entry (item : string * json) (oe : list string * list string)
  : list string * list string :=
  let '(o, e) := oe in
  let '(name, vals) := item in
  match vals with
  | JObj kws =>
      ((o ++ [(name ++ nl)%string] ++ map show_kw kws ++ [nl])%list, e)
  | _ => (o, (e ++ [msg_invalid name])%list)
  end.

(** What the loop prints for an entry whose value is a dictionary. *)
Definition show_entry (item : string * json) : list string :=
  match snd item with
  | JObj kws => ([(fst item ++ nl)%string] ++ map show_kw kws ++ [nl])%list
  | _ => []
  end.

Definition list_section (section : dict) (o e : list string)
  : list string * list string :=
  fold_left (fun oe item => list_entry item oe) section (o, e).

(** The test before the branches: a non-empty name given to del or list
    that is not an entry. *)
Definition not_found (a : args) (names : dict) : option string :=
  match a with
  | Add _ => None
  | Del (Some n) | List (Some n) =>
      if nonempty n && negb (dict_mem n names) then Some n else None
  | Del None | List None => None
  end.

(** [main()] after [parser.parse_args()], [get_config(config_file)] and,
    on its path, [_merge_args(args)]. *)
Definition main (a : args) (names : dict) (conf_errs : bool)
  (vm_args : json) (inputs : list (option string)) : result :=
  match not_found a names with
  | Some n => mkResult (Exits 1) names false inputs [] [msg_not_found n]
  | None =>
    match a with
    | Add n =>
        if conf_errs then mkResult (Exits 1) names false inputs [] [msg_corrupt]
        else if dict_mem n names then
          match confirm ("Replace existing entry " ++ n ++ "?") inputs [] with
          | (None, i, o) => mkResult Waits names false i o []
          | (Some true, i, o) =>
              mkResult Returns (dict_set n vm_args names) true i o []
          | (Some false, i, o) =>
              mkResult Returns names false i (o ++ [aborted])%list []
          end
        else mkResult Returns (dict_set n vm_args names) true inputs [] []
    | Del name =>
        let prompt := match name with
                      | Some n => if nonempty n
                                  then "Delete entry " ++ n ++ "?"
                                  else "Delete ALL config entries?"
                      | None => "Delete ALL config entries?"
                      end in
        match confirm prompt inputs [] with
        | (None, i, o) => mkResult Waits names false i o []
        | (Some true, i, o) =>
            match name with
            | None => mkResult Returns [] true i o []
            | Some n =>
                match dict_del n names with
                | Ok d => mkResult Returns d true i o []
                | Raise e => mkResult (Uncaught e) names false i o []
                end
            end
        | (Some false, i, o) =>
            mkResult Returns names false i (o ++ [aborted])%list []
        end
    | List None =>
        let '(o, e) := list_section names [] [] in
        mkResult Returns names false inputs o e
    | List (Some n) =>
        match dict_get n names with
        | None => mkResult (Uncaught KeyError) names false inputs [] []
        | Some v =>
            let '(o, e) := list_section [(n, v)] [] [] in
            mkResult Returns names false inputs o e
        end
    end
  end.

End Main.

End GemvmConfig.

Unset Implicit Arguments.

(** * Properties *)

(** ** Logging only touches the log *)

Arguments qmp_command : simpl never.
Arguments cancel_each : simpl never.
Arguments startswith : simpl nomatch.
Arguments in_and_eq : simpl never.
Arguments String.append : simpl never.
Arguments scan_log : simpl never.
Arguments str_int : simpl never.
Arguments logged_file : simpl never.
Arguments logged_buf : simpl never.
Arguments log_line : simpl never.
Arguments upd n t ts m /.
Arguments is_finished !t /.
Arguments awaits_booted !t /.
Arguments failed !t /.

Section Frames.

Context {lib : PyLib}.

Lemma log_eq msg time_stamp w :
  log msg time_stamp w =
  with_log_buf (logged_buf (log_line msg time_stamp w) w)
    (with_log_file (logged_file (log_line msg time_stamp w) w) w).
Proof.
  unfold log, logged_buf, logged_file.
  generalize (log_line msg time_stamp w). intros line.
  destruct w as [c st q ts fd p ex me ma sr nw lf lb ul se so qs]. simpl.
  destruct fd; simpl; [destruct (flush_log c); simpl|]; reflexivity.
Qed.

Lemma log_context_eq w :
  log_context w =
  with_log_fd true
    (with_log_file (if _log_fd w then log_file w else Some (file_content w)) w).
Proof.
  unfold log_context.
  destruct w as [c st q ts fd p ex me ma sr nw lf lb ul se so qs]. simpl.
  destruct fd; reflexivity.
Qed.

Lemma remove_log_eq w :
  remove_log w =
  with_log_file (match log_file w with
                 | None => None
                 | Some c => if unlink_ok w then None else Some c
                 end) w.
Proof.
  unfold remove_log.
  destruct w as [c st q ts fd p ex me ma sr nw lf lb ul se so qs]. simpl.
  destruct lf; [destruct ul|]; reflexivity.
Qed.

End Frames.

(** ** Task.cancel *)

Lemma task_name_eqb_eq a b : task_name_eqb a b = true <-> a = b.
Proof. destruct a, b; simpl; split; congruence. Qed.

Lemma upd_same n t ts : upd n t ts n = t.
Proof. unfold upd. destruct n; reflexivity. Qed.

Lemma upd_other n m t ts : m <> n -> upd n t ts m = ts m.
Proof.
  unfold upd. intros H. destruct (task_name_eqb m n) eqn:E; auto.
  apply task_name_eqb_eq in E. contradiction.
Qed.

Lemma request_cancel_status n ts m :
  status (request_cancel n ts m) = status (ts m).
Proof.
  unfold request_cancel, upd. destruct (task_name_eqb m n) eqn:E; auto.
  apply task_name_eqb_eq in E. subst. reflexivity.
Qed.

Lemma request_cancel_mono n ts m :
  cancel_req (ts m) = true -> cancel_req (request_cancel n ts m) = true.
Proof.
  unfold request_cancel, upd. destruct (task_name_eqb m n); auto.
Qed.

Lemma request_cancel_set n ts : cancel_req (request_cancel n ts n) = true.
Proof. unfold request_cancel. rewrite upd_same. reflexivity. Qed.

Lemma cancel_status n ts m : status (cancel n ts m) = status (ts m).
Proof.
  unfold cancel. destruct (status (ts n)); auto using request_cancel_status.
  destruct (awaits_task p); auto using request_cancel_status.
  destruct (is_finished (ts t)); auto using request_cancel_status.
Qed.

Lemma cancel_mono n ts m :
  cancel_req (ts m) = true -> cancel_req (cancel n ts m) = true.
Proof.
  unfold cancel. destruct (status (ts n)); auto using request_cancel_mono.
  destruct (awaits_task p); auto using request_cancel_mono.
  destruct (is_finished (ts t)); auto using request_cancel_mono.
Qed.

(** A task on which [cancel] was called is doomed. *)
Lemma cancel_doomed n ts : doomed (cancel n ts) n = true.
Proof.
  unfold doomed.
  destruct (status (ts n)) eqn:E.
  - assert (C : cancel n ts = request_cancel n ts)
      by (unfold cancel; rewrite E; reflexivity).
    rewrite C, request_cancel_set, orb_true_r. reflexivity.
  - destruct (awaits_task p) eqn:Ea.
    + assert (t = t_wait_until_booted) by (destruct p; simpl in Ea; congruence).
      subst t.
      destruct (is_finished (ts t_wait_until_booted)) eqn:Ef.
      * assert (C : cancel n ts = request_cancel n ts)
          by (unfold cancel; rewrite E, Ea, Ef; reflexivity).
        rewrite C, request_cancel_set, orb_true_r. reflexivity.
      * assert (C : cancel n ts = request_cancel t_wait_until_booted ts)
          by (unfold cancel; rewrite E, Ea, Ef; reflexivity).
        rewrite C, request_cancel_set.
        unfold awaits_booted, is_finished in *.
        rewrite !request_cancel_status, E, Ea.
        destruct (status (ts t_wait_until_booted)); try discriminate;
          simpl; rewrite ?orb_true_r; reflexivity.
    + assert (C : cancel n ts = request_cancel n ts)
        by (unfold cancel; rewrite E, Ea; reflexivity).
      rewrite C, request_cancel_set, orb_true_r. reflexivity.
  - unfold is_finished. rewrite cancel_status, E. reflexivity.
Qed.

(** Dooming is stable when statuses stay and requests only accumulate. *)
Lemma doomed_mono ts ts' n :
  (forall m, status (ts' m) = status (ts m)) ->
  (forall m, cancel_req (ts m) = true -> cancel_req (ts' m) = true) ->
  doomed ts n = true -> doomed ts' n = true.
Proof.
  intros Hs Hc. unfold doomed, is_finished, awaits_booted, failed.
  rewrite !Hs. intros H.
  apply orb_true_iff in H. destruct H as [H|H].
  - apply orb_true_iff in H. destruct H as [H|H].
    + rewrite H. reflexivity.
    + rewrite (Hc _ H). rewrite orb_true_r. reflexivity.
  - apply andb_true_iff in H. destruct H as [Ha H]. rewrite Ha.
    apply orb_true_iff in H. destruct H as [H|H].
    + rewrite H. simpl. rewrite !orb_true_r. reflexivity.
    + apply andb_true_iff in H. destruct H as [H1 H2].
      rewrite H1, (Hc _ H2). simpl. rewrite !orb_true_r. reflexivity.
Qed.

Lemma cancel_each_status names ts m :
  status (cancel_each names ts m) = status (ts m).
Proof.
  revert ts. induction names as [|n names IH]; intros ts; unfold cancel_each in *; simpl; auto.
  rewrite IH. apply cancel_status.
Qed.

Lemma cancel_each_mono names ts m :
  cancel_req (ts m) = true ->
  cancel_req (cancel_each names ts m) = true.
Proof.
  revert ts. induction names as [|n names IH]; intros ts H; unfold cancel_each in *; simpl; auto.
  apply IH. apply cancel_mono. exact H.
Qed.

Lemma cancel_each_keeps names ts n :
  doomed ts n = true ->
  doomed (cancel_each names ts) n = true.
Proof.
  apply doomed_mono.
  - intros m. apply cancel_each_status.
  - intros m. apply cancel_each_mono.
Qed.

Lemma cancel_each_doomed names ts n :
  In n names ->
  doomed (cancel_each names ts) n = true.
Proof.
  revert ts. induction names as [|k names IH]; intros ts H; unfold cancel_each in *; simpl in *.
  - contradiction.
  - destruct H as [->|H].
    + apply cancel_each_keeps. apply cancel_doomed.
    + apply IH. exact H.
Qed.

Lemma cancel_tasks_status names w m :
  status (_tasks (_cancel_tasks names w) m) = status (_tasks w m).
Proof. unfold _cancel_tasks. simpl. apply cancel_each_status. Qed.

Lemma cancel_tasks_mono names w m :
  cancel_req (_tasks w m) = true ->
  cancel_req (_tasks (_cancel_tasks names w) m) = true.
Proof. unfold _cancel_tasks. simpl. apply cancel_each_mono. Qed.

Lemma cancel_tasks_keeps names w n :
  doomed (_tasks w) n = true ->
  doomed (_tasks (_cancel_tasks names w)) n = true.
Proof. unfold _cancel_tasks. simpl. apply cancel_each_keeps. Qed.

Lemma cancel_tasks_doomed names w n :
  In n names -> doomed (_tasks (_cancel_tasks names w)) n = true.
Proof.
  intros H. unfold _cancel_tasks. simpl. apply cancel_each_doomed.
  destruct names; [contradiction | exact H].
Qed.

(** With no names, every task is cancelled. *)
Lemma cancel_all_doomed w n : doomed (_tasks (_cancel_tasks [] w)) n = true.
Proof.
  change (_tasks (_cancel_tasks [] w))
    with (cancel_each task_order (_tasks w)).
  apply cancel_each_doomed.
  destruct n; simpl; auto 10.
Qed.

Lemma cancel_each_is_finished names ts m :
  is_finished (cancel_each names ts m) = is_finished (ts m).
Proof. unfold is_finished. rewrite cancel_each_status. reflexivity. Qed.

Lemma cancel_each_awaits names ts m :
  awaits_booted (cancel_each names ts m) = awaits_booted (ts m).
Proof. unfold awaits_booted. rewrite cancel_each_status. reflexivity. Qed.

Lemma cancel_each_failed names ts m :
  failed (cancel_each names ts m) = failed (ts m).
Proof. unfold failed. rewrite cancel_each_status. reflexivity. Qed.

(** ** Counting power-down commands *)

Lemma count_after_caps l :
  count_occ string_dec (l ++ [qmp_command "qmp_capabilities"])
    (qmp_command "system_powerdown")
  = count_occ string_dec l (qmp_command "system_powerdown").
Proof.
  rewrite count_occ_app. cbn [count_occ].
  destruct (string_dec (qmp_command "qmp_capabilities")
              (qmp_command "system_powerdown")) as [E|E]; [|lia].
  vm_compute in E. discriminate E.
Qed.

Lemma count_after_powerdown l :
  count_occ string_dec (l ++ [qmp_command "system_powerdown"])
    (qmp_command "system_powerdown")
  = S (count_occ string_dec l (qmp_command "system_powerdown")).
Proof.
  rewrite count_occ_app. cbn [count_occ].
  destruct (string_dec (qmp_command "system_powerdown")
              (qmp_command "system_powerdown")) as [E|E]; [lia | congruence].
Qed.

(** ** The invariant *)

Lemma doomed_upd_other n t ts m :
  m <> n -> t_wait_until_booted <> n -> doomed (upd n t ts) m = doomed ts m.
Proof.
  intros H1 H2. unfold doomed. rewrite !upd_other by assumption. reflexivity.
Qed.

Ltac norm :=
  cbv zeta in *; simpl in *;
  rewrite ?log_eq, ?log_context_eq, ?remove_log_eq in *; simpl in *.

(** A known status settles what the status-dependent tests say. *)
Ltac learn H :=
  match type of H with
  | status ?t = ?X =>
      let F1 := fresh "F" in let F2 := fresh "F" in let F3 := fresh "F" in
      assert (F1 : is_finished t = is_finished (mkTask X false))
        by (unfold is_finished; rewrite H; reflexivity);
      assert (F2 : awaits_booted t = awaits_booted (mkTask X false))
        by (unfold awaits_booted; rewrite H; reflexivity);
      assert (F3 : failed t = failed (mkTask X false))
        by (unfold failed; rewrite H; reflexivity);
      simpl in F1, F2, F3;
      rewrite ?F1, ?F2, ?F3 in *
  end.

Ltac use_refl :=
  repeat match goal with
  | H : ?x = ?x -> _ |- _ => specialize (H eq_refl)
  | H : true = false -> _ |- _ => clear H
  | H : false = true -> _ |- _ => clear H
  end.

Ltac bools :=
  rewrite ?orb_true_r, ?andb_true_r, ?orb_false_r, ?andb_false_r,
          ?cancel_each_status, ?cancel_each_is_finished, ?cancel_each_awaits,
          ?cancel_each_failed;
  simpl.

Ltac bools_all :=
  rewrite ?orb_true_r, ?andb_true_r, ?orb_false_r, ?andb_false_r in *;
  simpl in *.

Ltac pose_doomed_at names ts m :=
  let D := fresh "D" in
  assert (D : doomed (cancel_each names ts) m = true)
    by (apply cancel_each_doomed; simpl; tauto);
  unfold doomed in D;
  rewrite ?cancel_each_status, ?cancel_each_is_finished, ?cancel_each_awaits,
          ?cancel_each_failed in D;
  simpl in D; try rewrite D.

Ltac pose_doomed :=
  match goal with
  | |- context [cancel_each ?names ?ts] =>
      try pose_doomed_at names ts t_shut_down;
      try pose_doomed_at names ts t_wait_until_booted;
      try pose_doomed_at names ts t_shutdown_timeout;
      try pose_doomed_at names ts t_boot_timeout
  end.

Ltac norm_goal :=
  cbv zeta; simpl; rewrite ?log_eq, ?log_context_eq, ?remove_log_eq; simpl.

Ltac sat :=
  repeat (use_refl;
          match goal with
          | H : forall p, status ?t = At p -> @?P p, Hp : status ?t = At ?q |- _ =>
              specialize (H q Hp); simpl in H
          | H : forall p, At ?q = At p -> @?P p |- _ =>
              specialize (H q eq_refl); simpl in H
          | H : ?A -> _, H' : ?A |- _ =>
              match type of A with Prop => specialize (H H') end
          | H : String.eqb _ _ = true |- _ => apply String.eqb_eq in H
          | H : String.eqb _ _ = false |- _ => apply String.eqb_neq in H
          | H : negb (String.eqb _ _) = true |- _ =>
              apply negb_true_iff, String.eqb_neq in H
          | H : negb (String.eqb _ _) = false |- _ =>
              apply negb_false_iff, String.eqb_eq in H
          end).

Ltac learn_more :=
  try match goal with
      | H : status (_tasks _ t_wait_until_booted) = Finished _ |- _ => learn H
      end.

Ltac atoms :=
  repeat match goal with
  | H : context [is_finished (_tasks ?w ?n)] |- _ =>
      destruct (is_finished (_tasks w n)); simpl in *; try discriminate
  | H : context [cancel_req (_tasks ?w ?n)] |- _ =>
      destruct (cancel_req (_tasks w n)); simpl in *; try discriminate
  | H : context [awaits_booted (_tasks ?w ?n)] |- _ =>
      destruct (awaits_booted (_tasks w n)); simpl in *; try discriminate
  | H : context [failed (_tasks ?w ?n)] |- _ =>
      destruct (failed (_tasks w n)); simpl in *; try discriminate
  end.

Ltac fifo :=
  let Hn := fresh in
  intros Hn;
  match goal with
  | I : _ = NotStarted -> forall name, _, Es : status (_tasks ?w ?n) = _ |- _ =>
      destruct (I Hn n); congruence
  end.

Ltac fifo_start :=
  let Hn := fresh in
  intros Hn;
  match goal with
  | Ef : context [is_started (_tasks ?w t_run_vm)] |- _ =>
      unfold is_started in Ef; rewrite Hn in Ef; simpl in Ef; discriminate Ef
  end.

Ltac unflagged :=
  match goal with
  | I : forall name, status (_tasks ?w name) = NotStarted /\ _,
    Ec : cancel_req (_tasks ?w ?n) = true |- _ =>
      destruct (I n); congruence
  end.

Ltac crush :=
  intros;
  repeat match goal with
         | H : forall _ : task_name, _ |- _ => clear H
         | H : _ -> forall _ : task_name, _ |- _ => clear H
         end;
  rewrite ?count_after_caps, ?count_after_powerdown in *;
  repeat match goal with
         | H : At ?a = At ?b |- _ => is_var b; injection H as H; subst b
         end;
  simpl in *; try discriminate;
  sat; try congruence; learn_more; simpl in *; sat; try congruence;
  atoms; sat;
  solve [congruence | auto | discriminate | lia].

Ltac split_if H :=
  repeat match type of H with
  | context [if ?c then _ else _] => destruct c eqn:?; try discriminate H
  | context [match ?c with _ => _ end] => destruct c eqn:?; try discriminate H
  end.

Ltac prepare H :=
  unfold await_booted, wub_except, wub_else, wub_loop, wub_after_loop,
    run_vm_finally, assign_state, sd_loop in H;
  simpl in H; split_if H; injection H as <-.

Ltac settle_inv Es Ec :=
  unfold powerdowns, doomed in *; learn Es; learn_more;
  rewrite ?Es, ?Ec in *; bools_all; use_refl;
  constructor; unfold powerdowns, doomed, settle, clear_cancel; norm_goal;
  rewrite ?Es, ?Ec; bools;
  try assumption;
  try solve [simpl; auto 6];
  try solve [fifo];
  try solve [unflagged];
  try solve [fifo_start];
  try solve [pose_doomed; simpl; intros; solve [discriminate | reflexivity]];
  try solve [crush].

Section Invariant.

Context {lib : PyLib}.

Lemma Inv_frame w w' :
  _state w' = _state w -> _tasks w' = _tasks w ->
  _qmp_established w' = _qmp_established w -> qmp_sent w' = qmp_sent w ->
  exit_status w' = exit_status w -> mem_err w' = mem_err w ->
  Inv w -> Inv w'.
Proof.
  intros H1 H2 H3 H4 H5 H6 [].
  constructor; unfold powerdowns in *; rewrite ?H1, ?H2, ?H3, ?H4, ?H5, ?H6;
    assumption.
Qed.

Lemma run_begin_eq w :
  _run_begin w =
  with_main M_gather
    (log "Starting event loop" true
       (log "" false
          (with_tasks fresh_tasks
             (with_state "booting"
                (with_shutdown_request false (log_context (remove_log w))))))).
Proof. reflexivity. Qed.

Lemma run_begin_inv w : Fresh w -> Inv (_run_begin w).
Proof.
  intros [Fst Fq Fex Fmem Fsent Ffd Fbuf].
  rewrite run_begin_eq, !log_eq, log_context_eq, remove_log_eq.
  constructor; unfold powerdowns, doomed; simpl;
    rewrite ?Fsent, ?Fq;
    intros; try solve [simpl; auto | discriminate | assumption].
Qed.

(** The progress reporter only prints and logs. *)
Lemma progress_loop_frame shown w w1 nx :
  progress_loop shown w = (w1, nx) ->
  _state w1 = _state w /\ _tasks w1 = _tasks w /\
  _qmp_established w1 = _qmp_established w /\ qmp_sent w1 = qmp_sent w /\
  exit_status w1 = exit_status w /\ mem_err w1 = mem_err w.
Proof.
  unfold progress_loop.
  destruct (negb (String.eqb (_state w) "off")).
  - destruct (_state w) eqn:E.
    + intros H. injection H as <- <-. rewrite E. tauto.
    + destruct (negb shown && shutdown_request _);
        intros H; injection H as <- <-; rewrite ?log_eq; simpl;
        rewrite E; tauto.
  - intros H. injection H as <- <-. tauto.
Qed.

Lemma progress_task_inv w w1 t' :
  Inv w ->
  _state w1 = _state w ->
  (forall m, m <> t_progress -> _tasks w1 m = _tasks w m) ->
  _qmp_established w1 = _qmp_established w -> qmp_sent w1 = qmp_sent w ->
  exit_status w1 = exit_status w -> mem_err w1 = mem_err w ->
  status (_tasks w t_run_vm) <> NotStarted ->
  Inv (with_tasks (upd t_progress t' (_tasks w1)) w1).
Proof.
  intros [] H1 H2 H3 H4 H5 H6 Hr.
  constructor; unfold powerdowns, doomed in *; simpl;
    rewrite ?H1, ?H3, ?H4, ?H5, ?H6; rewrite ?H2 by discriminate;
    try assumption.
  intros Hn. contradiction.
Qed.

Lemma progress_inv a w w' :
  Inv w -> resume t_progress a w = Some w' -> Inv w'.
Proof.
  intros I H. unfold resume in H.
  assert (Hr : status (_tasks w t_progress) <> NotStarted ->
               status (_tasks w t_run_vm) <> NotStarted).
  { intros Hp Hn. destruct (inv_fifo I Hn t_progress). contradiction. }
  destruct (status (_tasks w t_progress)) eqn:Es; try discriminate.
  - destruct (forallb _ _) eqn:Ef; try discriminate.
    assert (Hr' : status (_tasks w t_run_vm) <> NotStarted).
    { intros Hn. simpl in Ef. unfold is_started in Ef at 1.
      rewrite Hn in Ef. discriminate. }
    destruct (cancel_req (_tasks w t_progress)); destruct a; try discriminate;
      cbn [coroutine _progress option_map] in H; injection H as <-.
    + unfold settle. apply progress_task_inv with (w := w); auto; try congruence;
        intros m Hm; simpl; destruct m; try reflexivity; contradiction.
    + destruct (progress_loop false w) as [w1 nx] eqn:El.
      destruct (progress_loop_frame _ _ _ _ El) as (?&?&?&?&?&?).
      unfold settle. apply progress_task_inv with (w := w); auto; try congruence;
        intros m Hm; simpl; destruct m; try reflexivity; contradiction.
  - assert (Hr' : status (_tasks w t_run_vm) <> NotStarted)
      by (apply Hr; discriminate).
    destruct (cancel_req (_tasks w t_progress)); destruct a, p;
      cbn [coroutine _progress option_map] in H; try discriminate.
    + injection H as <-. unfold settle, clear_cancel.
      apply progress_task_inv with (w := w); auto; try congruence;
        intros m Hm; simpl; destruct m; try reflexivity; contradiction.
    + destruct (Nat.leb wake (now w)); cbn [option_map] in H;
        try discriminate.
      injection H as <-.
      destruct (progress_loop shown w) as [w1 nx] eqn:El.
      destruct (progress_loop_frame _ _ _ _ El) as (?&?&?&?&?&?).
      unfold settle. apply progress_task_inv with (w := w); auto; try congruence;
        intros m Hm; simpl; destruct m; try reflexivity; contradiction.
Qed.

Lemma resume_inv_start n a w w' :
  n <> t_progress ->
  Inv w -> status (_tasks w n) = NotStarted -> resume n a w = Some w' -> Inv w'.
Proof.
  intros Hp I Es H. unfold resume in H. rewrite Es in H.
  destruct (forallb _ _) eqn:Ef; try discriminate.
  destruct (cancel_req (_tasks w n)) eqn:Ec;
    destruct n; try contradiction; simpl in H; destruct a; try discriminate.
  all: prepare H.
  all: destruct I.
  all: settle_inv Es Ec.
Qed.

End Invariant.

Section InvariantAt.

Context {lib : PyLib}.

Lemma resume_inv_at n a w w' p :
  n <> t_progress ->
  Inv w -> status (_tasks w n) = At p -> resume n a w = Some w' -> Inv w'.
Proof.
  intros Hp I Es H. unfold resume in H. rewrite Es in H.
  destruct n; try contradiction;
    destruct p; destruct (cancel_req _) eqn:Ec; destruct a; simpl in H;
    try discriminate.
  all: prepare H.
  all: destruct I.
  all: settle_inv Es Ec.
Qed.

End InvariantAt.

Section Reachable.

Context {lib : PyLib}.

Lemma resume_inv n a w w' : Inv w -> resume n a w = Some w' -> Inv w'.
Proof.
  intros I H.
  assert (P : n = t_progress \/ n <> t_progress)
    by (destruct n; auto; right; discriminate).
  destruct P as [->|P].
  - eapply progress_inv; eassumption.
  - destruct (status (_tasks w n)) eqn:Es.
    + eapply resume_inv_start; eassumption.
    + eapply resume_inv_at; eassumption.
    + unfold resume in H. rewrite Es in H. discriminate.
Qed.

(** No coroutine touches the controller's own state, the clock, the
    shutdown request or the log handle. *)
Lemma progress_loop_env shown w w1 nx :
  progress_loop shown w = (w1, nx) ->
  main w1 = main w /\ cfg w1 = cfg w /\ unlink_ok w1 = unlink_ok w /\
  _log_fd w1 = _log_fd w /\ now w1 = now w /\
  shutdown_request w1 = shutdown_request w.
Proof.
  unfold progress_loop.
  destruct (negb (String.eqb (_state w) "off")).
  - destruct (_state w) eqn:E.
    + intros H. injection H as <- <-. tauto.
    + destruct (negb shown && shutdown_request _);
        intros H; injection H as <- <-; rewrite ?log_eq; simpl; tauto.
  - intros H. injection H as <- <-. tauto.
Qed.

Lemma resume_env n a w w' :
  resume n a w = Some w' ->
  main w' = main w /\ cfg w' = cfg w /\ unlink_ok w' = unlink_ok w /\
  _log_fd w' = _log_fd w /\ now w' = now w /\
  shutdown_request w' = shutdown_request w.
Proof.
  intros H. unfold resume in H.
  destruct n.
  3: { destruct (status (_tasks w _)) eqn:Es; try discriminate;
         [ destruct (forallb _ _); try discriminate |];
         destruct (cancel_req _) eqn:Ec; destruct a;
         cbn [coroutine _progress option_map] in H; try discriminate.
       all: try (destruct p; try discriminate).
       all: try (destruct (Nat.leb _ _); cbn [option_map] in H;
                 try discriminate).
       all: try (destruct (progress_loop _ w) as [w1 nx] eqn:El;
                 apply progress_loop_env in El).
       all: injection H as <-; unfold settle, clear_cancel; simpl; tauto. }
  all: destruct (status (_tasks w _)) eqn:Es; try discriminate;
    [ destruct (forallb _ _); try discriminate |];
    destruct (cancel_req _) eqn:Ec; destruct a; simpl in H;
    try discriminate.
  all: try (destruct p; simpl in H; try discriminate).
  all: prepare H.
  all: unfold settle, clear_cancel; rewrite ?log_eq; simpl; tauto.
Qed.

(** ** Every reachable state satisfies the invariant *)

Lemma step_invariant w e w' : Invariant w -> step w e = Some w' -> Invariant w'.
Proof.
  unfold Invariant, step. intros I H.
  destruct e.
  - destruct (main w); try discriminate. injection H as <-.
    assert (M : main (_run_begin w) = M_gather)
      by (rewrite run_begin_eq; reflexivity).
    rewrite M. apply run_begin_inv. exact I.
  - injection H as <-. simpl.
    destruct (main w).
    + destruct I. constructor; assumption.
    + apply Inv_frame with (w := w); auto.
    + apply Inv_frame with (w := w); auto.
  - destruct (main w) eqn:M; try discriminate. injection H as <-.
    unfold _keyboard_interrupt. simpl. rewrite M.
    apply Inv_frame with (w := w); auto.
  - destruct (main w) eqn:M; try discriminate;
      destruct (is_started _); try discriminate; injection H as <-;
      unfold append_log_file; simpl; rewrite M;
      apply Inv_frame with (w := w); auto.
  - destruct (_log_fd w) eqn:L; try discriminate. injection H as <-.
    unfold flush, append_log_file. simpl.
    destruct (main w).
    + destruct I. congruence.
    + apply Inv_frame with (w := w); auto.
    + apply Inv_frame with (w := w); auto.
  - destruct (main w) eqn:M; try discriminate.
    destruct (resume_env _ _ _ _ H) as (Hm & _). rewrite Hm, M.
    eapply resume_inv; eassumption.
  - destruct (main w) eqn:M; try discriminate.
    destruct (all_finished w); try discriminate. injection H as <-.
    unfold _run_end.
    match goal with
    | |- context [match ?e with [] => _ | _ => _ end] => destruct e
    end; unfold flush, append_log_file; rewrite ?log_eq; simpl;
      apply Inv_frame with (w := w); auto.
Qed.

Lemma init_invariant c old_log can_unlink :
  Invariant (init c old_log can_unlink).
Proof. unfold Invariant. simpl. constructor; reflexivity. Qed.

Lemma run_invariant evs : forall w w',
  Invariant w -> run w evs = Some w' -> Invariant w'.
Proof.
  induction evs as [|e evs IH]; intros w w' I H; simpl in H.
  - injection H as <-. exact I.
  - destruct (step w e) as [w1|] eqn:S; try discriminate.
    eapply IH; [|exact H]. eapply step_invariant; eassumption.
Qed.

Lemma reachable_invariant w : reachable w -> Invariant w.
Proof.
  intros (c & old_log & can_unlink & evs & H).
  eapply run_invariant; [|exact H]. apply init_invariant.
Qed.

End Reachable.

(** ** Scanning the log line by line *)

Lemma readlines_nil s : readlines s = [] -> s = "".
Proof.
  destruct s as [|c s]; simpl; auto.
  destruct (Ascii.eqb c LF); [discriminate|].
  destruct (readlines s); discriminate.
Qed.

(** A text without newline that starts [s] starts the first line of [s]. *)
Lemma prefix_first_line p s l ls :
  no_newline p = true -> readlines s = l :: ls ->
  String.prefix p s = String.prefix p l.
Proof.
  revert s l ls. induction p as [|a p IH]; intros s l ls Hp Hs.
  - destruct s, l; reflexivity.
  - simpl in Hp. apply andb_true_iff in Hp. destruct Hp as [Ha Hp].
    destruct s as [|c s]; [discriminate|].
    simpl in Hs. destruct (Ascii.eqb c LF) eqn:Ec.
    + injection Hs as <- <-. simpl.
      destruct (ascii_dec a c) as [->|]; auto.
      rewrite Ec in Ha. discriminate.
    + destruct (readlines s) as [|l' ls'] eqn:Er.
      * injection Hs as <- <-. apply readlines_nil in Er. subst s. reflexivity.
      * injection Hs as <- <-. simpl.
        destruct (ascii_dec a c); auto. eapply IH; eauto.
Qed.

Lemma contains_lines sub s :
  no_newline sub = true -> sub <> "" ->
  existsb (contains sub) (readlines s) = contains sub s.
Proof.
  intros Hn He. induction s as [|c s IH].
  - simpl. destruct sub; [contradiction | reflexivity].
  - cbn [readlines]. destruct (Ascii.eqb c LF) eqn:Ec.
    + cbn [existsb]. rewrite IH.
      assert (P : forall t, String.prefix sub (String c t) = false).
      { intros t. destruct sub as [|a sub]; [contradiction|].
        simpl in *. apply andb_true_iff in Hn. destruct Hn as [Ha _].
        destruct (ascii_dec a c) as [->|]; auto.
        rewrite Ec in Ha. discriminate. }
      cbn [contains]. rewrite !P.
      destruct sub; [contradiction|]. reflexivity.
    + destruct (readlines s) as [|l ls] eqn:Er.
      * apply readlines_nil in Er. subst s. simpl. rewrite orb_false_r.
        reflexivity.
      * cbn [existsb] in *. cbn [contains]. rewrite <- IH.
        rewrite orb_assoc. f_equal. f_equal.
        destruct sub as [|a sub]; [contradiction|].
        simpl in Hn. apply andb_true_iff in Hn. destruct Hn as [_ Hn].
        simpl. destruct (ascii_dec a c); auto.
        symmetry. eapply prefix_first_line; eauto.
Qed.

Lemma scan_log_contains w :
  scan_log w = contains mem_err_text (file_content w).
Proof.
  unfold scan_log. apply contains_lines; [reflexivity | discriminate].
Qed.

(** ** The exit status and the memory-failure flag *)

Section ExitStatus.

Context {lib : PyLib}.

Lemma progress_loop_exit shown w w1 nx :
  progress_loop shown w = (w1, nx) ->
  exit_status w1 = exit_status w /\ mem_err w1 = mem_err w.
Proof.
  intros H. apply progress_loop_frame in H. tauto.
Qed.

Lemma resume_exit n a w w' :
  resume n a w = Some w' ->
  exit_status w' = exit_status_after n a w /\
  mem_err w' = mem_err_after n a w.
Proof.
  intros H. unfold resume in H.
  destruct n.
  3: { destruct (status (_tasks w _)) eqn:Es; try discriminate;
         [ destruct (forallb _ _); try discriminate |];
         destruct (cancel_req _) eqn:Ec; destruct a;
         cbn [coroutine _progress option_map] in H; try discriminate.
       all: try (destruct p; try discriminate).
       all: try (destruct (Nat.leb _ _); cbn [option_map] in H;
                 try discriminate).
       all: try (destruct (progress_loop _ w) as [w1 nx] eqn:El;
                 apply progress_loop_exit in El).
       all: injection H as <-; unfold settle, clear_cancel; simpl; tauto. }
  all: destruct (status (_tasks w _)) eqn:Es; try discriminate;
    [ destruct (forallb _ _); try discriminate |];
    destruct (cancel_req _) eqn:Ec; destruct a; simpl in H;
    try discriminate.
  all: try (destruct p; simpl in H; try discriminate).
  all: try rewrite scan_log_contains in H.
  all: prepare H.
  all: unfold settle, clear_cancel; rewrite ?log_eq; simpl;
    unfold file_content in *; simpl in *;
    rewrite ?andb_true_r, ?andb_false_r;
    repeat match goal with E : _ = _ |- _ => rewrite E end;
    split; reflexivity.
Qed.

End ExitStatus.

(** ** A step of one task leaves the others where they are *)

Section Others.

Context {lib : PyLib}.

Lemma progress_loop_tasks shown w w1 nx :
  progress_loop shown w = (w1, nx) -> _tasks w1 = _tasks w.
Proof.
  intros H. apply progress_loop_frame in H. tauto.
Qed.

Lemma resume_others n a w w' :
  resume n a w = Some w' ->
  forall m, m <> n ->
  status (_tasks w' m) = status (_tasks w m) /\
  (cancel_req (_tasks w m) = true -> cancel_req (_tasks w' m) = true).
Proof.
  intros H m Hm. unfold resume in H.
  assert (Hb : task_name_eqb m n = false).
  { destruct (task_name_eqb m n) eqn:E; auto.
    apply task_name_eqb_eq in E. contradiction. }
  destruct n.
  3: { destruct (status (_tasks w _)) eqn:Es; try discriminate;
         [ destruct (forallb _ _); try discriminate |];
         destruct (cancel_req _) eqn:Ec; destruct a;
         cbn [coroutine _progress option_map] in H; try discriminate.
       all: try (destruct p; try discriminate).
       all: try (destruct (Nat.leb _ _); cbn [option_map] in H;
                 try discriminate).
       all: try (destruct (progress_loop _ w) as [w1 nx] eqn:El;
                 apply progress_loop_tasks in El).
       all: injection H as <-; unfold settle, clear_cancel; simpl;
         rewrite ?Hb, ?El; auto. }
  all: destruct (status (_tasks w _)) eqn:Es; try discriminate;
    [ destruct (forallb _ _); try discriminate |];
    destruct (cancel_req _) eqn:Ec; destruct a; simpl in H;
    try discriminate.
  all: try (destruct p; simpl in H; try discriminate).
  all: prepare H.
  all: unfold settle, clear_cancel; rewrite ?log_eq; simpl;
    rewrite ?Hb, ?cancel_each_status; simpl; rewrite ?Hb;
    split; [reflexivity|]; intros Hc;
    try apply cancel_each_mono; simpl; rewrite ?Hb; exact Hc.
Qed.

Lemma resume_not_finished n a w w' :
  resume n a w = Some w' -> is_finished (_tasks w n) = false.
Proof.
  unfold resume, is_finished. destruct (status (_tasks w n)); auto.
  discriminate.
Qed.

Lemma resume_keeps_finished n a w w' m :
  resume n a w = Some w' ->
  is_finished (_tasks w m) = true -> is_finished (_tasks w' m) = true.
Proof.
  intros H Hf.
  assert (Hm : m <> n).
  { intros ->. apply resume_not_finished in H. congruence. }
  destruct (resume_others _ _ _ _ H m Hm) as [Hs _].
  unfold is_finished in *. rewrite Hs. exact Hf.
Qed.

End Others.

(** ** How the phase changes *)

Ltac known Es Ec :=
  unfold powerdowns, doomed in *; learn Es; learn_more;
  rewrite ?Es, ?Ec in *; bools_all; use_refl; sat.

Tactic Notation "leaves" hyp(H) constr(a) ident(Es) ident(Ec) :=
  unfold resume in H;
  match type of H with
  | context [status (_tasks ?w ?n)] =>
      let p := fresh "p" in
      destruct (status (_tasks w n)) as [|p|] eqn:Es; try discriminate;
      [ destruct (forallb _ _); try discriminate |];
      destruct (cancel_req (_tasks w n)) eqn:Ec;
      try destruct p; destruct a; simpl in H; try discriminate
  end.

Section Phase.

Context {lib : PyLib}.

Lemma resume_phase n a w w' :
  Inv w -> resume n a w = Some w' ->
  _state w' = _state w \/
  (n = t_wait_until_booted /\ _state w = "booting" /\ _state w' = "running"
   /\ doomed (_tasks w) t_wait_until_booted = false) \/
  (n = t_shut_down /\ _state w = "running" /\ _state w' = "shutting_down"
   /\ status (_tasks w t_wait_until_booted) = Finished Returned) \/
  (n = t_run_vm /\ _state w' = "off"
   /\ is_finished (_tasks w' t_run_vm) = true).
Proof.
  intros I H.
  destruct n.
  3: { left.
       destruct (status (_tasks w t_progress)) eqn:Es;
         unfold resume in H; rewrite Es in H; try discriminate;
         [ destruct (forallb _ _); try discriminate |];
         destruct (cancel_req _) eqn:Ec; destruct a;
         cbn [coroutine _progress option_map] in H; try discriminate.
       all: try (destruct p; try discriminate).
       all: try (destruct (Nat.leb _ _); cbn [option_map] in H;
                 try discriminate).
       all: try (destruct (progress_loop _ w) as [w1 nx] eqn:El;
                 apply progress_loop_frame in El).
       all: injection H as <-; unfold settle, clear_cancel; simpl; tauto. }
  all: leaves H a Es Ec.
  all: prepare H.
  all: destruct I.
  all: known Es Ec.
  all: unfold settle, clear_cancel; rewrite ?log_eq; simpl.
  all: try (left; reflexivity).
  all: try (left; congruence).
  all: right;
    first [ left; repeat split; solve [reflexivity | congruence | assumption]
          | right; left; repeat split;
            solve [reflexivity | congruence | assumption | crush]
          | right; right; repeat split;
            solve [reflexivity | congruence | assumption] ].
Qed.

(** C1: the phase is always one of off, booting, running, shutting_down;
    before the controller starts the tasks it is off; and a step changes it
    only from off to booting (the controller's call, which leaves every task
    unstarted), from booting to running (a step of the boot probe), from
    running to shutting_down (a step of the control-socket client) or from
    any phase to off (the step in which the process supervisor finishes). *)
Theorem phase_transitions w e w' :
  reachable w -> step w e = Some w' ->
  In (_state w) states /\ In (_state w') states /\
  (main w = M_init -> _state w = "off") /\
  (_state w' = _state w \/
   (e = Call /\ _state w = "off" /\ _state w' = "booting" /\
    forall name, status (_tasks w' name) = NotStarted) \/
   (exists a, e = Resume t_wait_until_booted a /\
              _state w = "booting" /\ _state w' = "running") \/
   (exists a, e = Resume t_shut_down a /\
              _state w = "running" /\ _state w' = "shutting_down") \/
   (exists a, e = Resume t_run_vm a /\ _state w' = "off" /\
              is_finished (_tasks w' t_run_vm) = true)).
Proof.
  intros R S.
  pose proof (reachable_invariant _ R) as I.
  pose proof (step_invariant _ _ _ I S) as I'.
  assert (A : forall v, Invariant v -> In (_state v) states).
  { intros v Hv. unfold Invariant in Hv.
    destruct (main v); try (apply inv_state; exact Hv).
    destruct Hv as [E]. rewrite E. simpl. auto. }
  split; [apply A; exact I|]. split; [apply A; exact I'|].
  split.
  { intros M. unfold Invariant in I. rewrite M in I. apply I. }
  unfold step in S. unfold Invariant in I.
  destruct e; destruct (main w) eqn:M; try discriminate.
  - injection S as <-. right. left.
    rewrite run_begin_eq, !log_eq. simpl.
    repeat split; auto. apply I.
  - injection S as <-. left. reflexivity.
  - injection S as <-. left. reflexivity.
  - injection S as <-. left. reflexivity.
  - injection S as <-. left. reflexivity.
  - destruct (is_started _); try discriminate. injection S as <-.
    left. reflexivity.
  - destruct (is_started _); try discriminate. injection S as <-.
    left. reflexivity.
  - destruct (_log_fd w); try discriminate. injection S as <-.
    left. reflexivity.
  - destruct (_log_fd w); try discriminate. injection S as <-.
    left. reflexivity.
  - destruct (_log_fd w); try discriminate. injection S as <-.
    left. reflexivity.
  - destruct (resume_phase _ _ _ _ I S) as [H|[H|[H|H]]].
    + left. exact H.
    + destruct H as (-> & H1 & H2 & _). right. right. left.
      exists a. auto.
    + destruct H as (-> & H1 & H2 & _). right. right. right. left.
      exists a. auto.
    + destruct H as (-> & H1 & H2). right. right. right. right.
      exists a. auto.
  - destruct (all_finished w); try discriminate. injection S as <-.
    left. unfold _run_end.
    match goal with
    | |- context [match ?x with [] => _ | _ => _ end] => destruct x
    end; rewrite ?log_eq; reflexivity.
Qed.

End Phase.

Lemma phase_transitions_witness :
  reachable (lib := demo_lib) (after (probing ++ [Resume t_wait_until_booted Connected])) /\
  step (lib := demo_lib) (after (probing ++ [Resume t_wait_until_booted Connected]))
    (Resume t_wait_until_booted (Line ssh_banner)) = Some (after booted) /\
  _state (after (probing ++ [Resume t_wait_until_booted Connected])) = "booting" /\
  _state (after booted) = "running" /\
  In (_state (after booted)) states.
Proof.
  assert (R : reachable (lib := demo_lib)
                (after (probing ++ [Resume t_wait_until_booted Connected]))).
  { exists demo_cfg, None, true,
      (probing ++ [Resume t_wait_until_booted Connected])%list.
    vm_compute. reflexivity. }
  assert (S : step (lib := demo_lib)
                (after (probing ++ [Resume t_wait_until_booted Connected]))
                (Resume t_wait_until_booted (Line ssh_banner))
              = Some (after booted)).
  { vm_compute. reflexivity. }
  split; [exact R|]. split; [exact S|].
  split; [reflexivity|]. split; [reflexivity|].
  exact (proj1 (proj2 (phase_transitions _ _ _ R S))).
Defined.

(** ** The process supervisor *)

Section Supervisor.

Context {lib : PyLib}.

Lemma run_vm_step a w w' :
  resume t_run_vm a w = Some w' ->
  (a = Go /\ status (_tasks w' t_run_vm) = At RV_spawn) \/
  (exists child, a = Spawned child /\ status (_tasks w' t_run_vm) = At RV_wait
                 /\ pid w' = Some child) \/
  (is_finished (_tasks w' t_run_vm) = true /\
   ((exists code, a = Exited code) \/ (exists e, a = Error e) \/ a = Cancel)).
Proof.
  intros H. leaves H a Es Ec.
  all: prepare H.
  all: unfold settle, clear_cancel; rewrite ?log_eq; simpl.
  all: try (left; split; reflexivity).
  all: try (right; left; eexists; repeat split; reflexivity).
  all: right; right; split;
    [ try reflexivity;
      match goal with
      | |- context [if ?c then _ else _] => destruct c; reflexivity
      end
    | eauto ].
Qed.

(** C2: whenever a step of the process supervisor ends its task - the
    process exited, starting it raised, or the task was cancelled - the phase
    is off and each of shutdown negotiation, boot probe, shutdown watchdog
    and boot watchdog has been cancelled: it is finished already, or
    CancelledError is on its way to it. The only steps that do not end the
    task are its start and the return of the spawn. *)
Theorem supervisor_cleanup w a w' :
  reachable w -> step w (Resume t_run_vm a) = Some w' ->
  (a = Go /\ status (_tasks w' t_run_vm) = At RV_spawn) \/
  (exists child, a = Spawned child /\ status (_tasks w' t_run_vm) = At RV_wait
                 /\ pid w' = Some child) \/
  (((exists code, a = Exited code) \/ (exists e, a = Error e) \/ a = Cancel) /\
   is_finished (_tasks w' t_run_vm) = true /\
   _state w' = "off" /\
   forall name, In name cleanup_names -> doomed (_tasks w') name = true).
Proof.
  intros R S.
  pose proof (reachable_invariant _ R) as I.
  pose proof (step_invariant _ _ _ I S) as I'.
  unfold step in S. destruct (main w) eqn:M; try discriminate.
  destruct (resume_env _ _ _ _ S) as (M' & _).
  unfold Invariant in I'. rewrite M', M in I'.
  destruct (run_vm_step _ _ _ S) as [H|[H|[F H]]]; auto.
  right. right. repeat split; auto.
  - apply inv_off; assumption.
  - intros name Hn. simpl in Hn.
    destruct Hn as [<-|[<-|[<-|[<-|[]]]]].
    + apply inv_cleanup_sd; assumption.
    + apply inv_cleanup_wb; assumption.
    + apply inv_cleanup_st; assumption.
    + apply inv_cleanup_bt; assumption.
Qed.

End Supervisor.

Lemma supervisor_cleanup_witness :
  reachable (lib := demo_lib) (after probing) /\
  step (lib := demo_lib) (after probing) (Resume t_run_vm (Exited 1))
    = Some (after (probing ++ [Resume t_run_vm (Exited 1)])) /\
  _state (after (probing ++ [Resume t_run_vm (Exited 1)])) = "off" /\
  doomed (_tasks (after (probing ++ [Resume t_run_vm (Exited 1)])))
    t_wait_until_booted = true.
Proof.
  assert (R : reachable (lib := demo_lib) (after probing)).
  { exists demo_cfg, None, true, probing. vm_compute. reflexivity. }
  assert (S : step (lib := demo_lib) (after probing)
                (Resume t_run_vm (Exited 1))
              = Some (after (probing ++ [Resume t_run_vm (Exited 1)]))).
  { vm_compute. reflexivity. }
  split; [exact R|]. split; [exact S|].
  destruct (supervisor_cleanup _ _ _ R S) as [[E _]|[[child [E _]]|H]].
  - discriminate E.
  - discriminate E.
  - destruct H as (_ & _ & Hoff & Hd). split; [exact Hoff|].
    apply Hd. simpl. auto.
Defined.

Section ExitCode.

Context {lib : PyLib}.




(** After the supervisor has finished nothing writes the exit status or the
    memory-failure flag. *)
Lemma step_after_exit w e w' :
  step w e = Some w' -> main w <> M_init ->
  is_finished (_tasks w t_run_vm) = true ->
  exit_status w' = exit_status w /\ mem_err w' = mem_err w /\
  main w' <> M_init /\ is_finished (_tasks w' t_run_vm) = true.
Proof.
  unfold step. intros S M F.
  destruct e; destruct (main w) eqn:Mw; try discriminate; try contradiction;
    try (injection S as <-; simpl; rewrite ?Mw; repeat split;
         solve [auto | discriminate]);
    try (destruct (is_started _); try discriminate; injection S as <-;
         simpl; rewrite ?Mw; repeat split; solve [auto | discriminate]);
    try (destruct (_log_fd w); try discriminate; injection S as <-;
         simpl; rewrite ?Mw; repeat split; solve [auto | discriminate]).
  - destruct (resume_exit _ _ _ _ S) as [E1 E2].
    destruct (resume_env _ _ _ _ S) as (M' & _).
    pose proof (resume_keeps_finished _ _ _ _ t_run_vm S F) as F'.
    pose proof (resume_not_finished _ _ _ _ S) as N.
    assert (name <> t_run_vm) by (intros ->; congruence).
    rewrite E1, E2, M', Mw. unfold exit_status_after, mem_err_after.
    repeat split; auto; try discriminate;
      destruct name; try reflexivity; contradiction.
  - destruct (all_finished w); try discriminate. injection S as <-.
    unfold _run_end.
    match goal with
    | |- context [match ?x with [] => _ | _ => _ end] => destruct x
    end; rewrite ?log_eq; simpl; repeat split; auto; discriminate.
Qed.

Lemma run_after_exit evs : forall w w',
  run w evs = Some w' -> main w <> M_init ->
  is_finished (_tasks w t_run_vm) = true ->
  exit_status w' = exit_status w /\ mem_err w' = mem_err w.
Proof.
  induction evs as [|e evs IH]; intros w w' H M F; simpl in H.
  - injection H as <-. auto.
  - destruct (step w e) as [w1|] eqn:S; try discriminate.
    destruct (step_after_exit _ _ _ S M F) as (E1 & E2 & M1 & F1).
    destruct (IH _ _ H M1 F1) as [E3 E4]. split; congruence.
Qed.

(** C8: when the hypervisor exits with [code], the memory-failure flag,
    false until then, becomes true exactly if [code] is 1 and the log file
    as it is on disk at that moment contains 'cannot set up guest memory';
    it keeps that value, and the exit status keeps [code], whatever happens
    afterwards. *)
Theorem memory_failure_flag w code w1 later wf :
  reachable w ->
  step w (Resume t_run_vm (Exited code)) = Some w1 ->
  run w1 later = Some wf ->
  mem_err w = false /\
  (mem_err wf = true <->
   code = 1%Z /\ contains mem_err_text (file_content w) = true) /\
  exit_status wf = Some code.
Proof.
  intros R S L.
  pose proof (reachable_invariant _ R) as I.
  unfold step in S. destruct (main w) eqn:M; try discriminate.
  unfold Invariant in I. rewrite M in I.
  pose proof (resume_not_finished _ _ _ _ S) as N.
  pose proof (inv_mem I (inv_exit I N)) as E0.
  destruct (resume_exit _ _ _ _ S) as [E1 E2].
  destruct (resume_env _ _ _ _ S) as (M1 & _).
  destruct (run_vm_step _ _ _ S) as [[X _]|[[child [X _]]|[F _]]];
    try discriminate.
  assert (M' : main w1 <> M_init) by (rewrite M1, M; discriminate).
  destruct (run_after_exit _ _ _ L M' F) as [E3 E4].
  split; [exact E0|].
  rewrite E3, E4, E1, E2. unfold mem_err_after, exit_status_after.
  split; [|reflexivity].
  rewrite E0.
  destruct (Z.eqb code 1) eqn:Ez; simpl.
  - apply Z.eqb_eq in Ez.
    destruct (contains mem_err_text (file_content w)); split; auto.
    intros [_ X]. discriminate.
  - apply Z.eqb_neq in Ez. split; [discriminate|]. intros [X _]. contradiction.
Qed.

End ExitCode.

Lemma memory_failure_flag_witness :
  reachable (lib := demo_lib)
    (after (probing ++ [ChildOutput "qemu: cannot set up guest memory"])) /\
  run (lib := demo_lib)
    (after (probing ++ [ChildOutput "qemu: cannot set up guest memory";
                        Resume t_run_vm (Exited 1)])) [Tick]
    = Some (after (probing ++ [ChildOutput "qemu: cannot set up guest memory";
                               Resume t_run_vm (Exited 1); Tick])) /\
  mem_err (after (probing ++ [ChildOutput "qemu: cannot set up guest memory";
                              Resume t_run_vm (Exited 1); Tick])) = true.
Proof.
  assert (R : reachable (lib := demo_lib)
                (after (probing
                        ++ [ChildOutput "qemu: cannot set up guest memory"]))).
  { exists demo_cfg, None, true,
      (probing ++ [ChildOutput "qemu: cannot set up guest memory"])%list.
    vm_compute. reflexivity. }
  assert (S : step (lib := demo_lib)
                (after (probing
                        ++ [ChildOutput "qemu: cannot set up guest memory"]))
                (Resume t_run_vm (Exited 1))
              = Some (after (probing
                             ++ [ChildOutput "qemu: cannot set up guest memory";
                                 Resume t_run_vm (Exited 1)])))
    by (vm_compute; reflexivity).
  assert (L : run (lib := demo_lib)
                (after (probing
                        ++ [ChildOutput "qemu: cannot set up guest memory";
                            Resume t_run_vm (Exited 1)])) [Tick]
              = Some (after (probing
                             ++ [ChildOutput "qemu: cannot set up guest memory";
                                 Resume t_run_vm (Exited 1); Tick])))
    by (vm_compute; reflexivity).
  split; [exact R|]. split; [exact L|].
  apply (proj1 (proj2 (memory_failure_flag _ _ _ _ _ R S L))).
  split; [reflexivity | vm_compute; reflexivity].
Defined.

(** ** The control-socket client *)

Lemma standard_response_spec reply :
  in_and_eq "return" eq_empty_dict reply = Ok true <->
  standard_response (Some reply) = true.
Proof.
  unfold in_and_eq, standard_response, py_in, py_getitem, eq_empty_dict.
  destruct reply as [| | |s|l|items]; try (split; discriminate).
  - destruct (contains "return" s); split; discriminate.
  - destruct (existsb (is_str "return") l); split; discriminate.
  - destruct (dict_get "return" items) as [x|]; [|split; discriminate].
    destruct x as [| | | | |[|]]; split; try discriminate; reflexivity.
Qed.

Lemma standard_response_not reply :
  standard_response (Some reply) = false ->
  in_and_eq "return" eq_empty_dict reply = Ok false \/
  exists e, in_and_eq "return" eq_empty_dict reply = Raise e.
Proof.
  intros H.
  destruct (in_and_eq "return" eq_empty_dict reply) as [[|]|e] eqn:E; eauto.
  apply standard_response_spec in E. congruence.
Qed.

Lemma shutdown_line_spec items :
  in_and_eq "event" (is_str "SHUTDOWN") (JObj items)
  = Ok (shutdown_line items).
Proof.
  unfold in_and_eq, shutdown_line, py_in, py_getitem, is_str.
  destruct (dict_get "event" items) as [x|]; [|reflexivity].
  destruct x; reflexivity.
Qed.

Section Client.

Context {lib : PyLib}.

(** Only the client writes the flag and the socket. *)
Lemma resume_client n a w w' :
  resume n a w = Some w' -> n <> t_shut_down ->
  _qmp_established w' = _qmp_established w /\ qmp_sent w' = qmp_sent w.
Proof.
  intros H Hn.
  destruct n; try contradiction.
  3: { destruct (status (_tasks w t_progress)) eqn:Es;
         unfold resume in H; rewrite Es in H; try discriminate;
         [ destruct (forallb _ _); try discriminate |];
         destruct (cancel_req _) eqn:Ec; destruct a;
         cbn [coroutine _progress option_map] in H; try discriminate.
       all: try (destruct p; try discriminate).
       all: try (destruct (Nat.leb _ _); cbn [option_map] in H;
                 try discriminate).
       all: try (destruct (progress_loop _ w) as [w1 nx] eqn:El;
                 apply progress_loop_frame in El).
       all: injection H as <-; unfold settle, clear_cancel; simpl; tauto. }
  all: leaves H a Es Ec.
  all: prepare H.
  all: unfold settle, clear_cancel; rewrite ?log_eq; simpl; tauto.
Qed.

Lemma step_client w e w' :
  step w e = Some w' -> main w <> M_init ->
  is_finished (_tasks w t_shut_down) = true ->
  _qmp_established w' = _qmp_established w /\ qmp_sent w' = qmp_sent w /\
  main w' <> M_init /\ is_finished (_tasks w' t_shut_down) = true.
Proof.
  unfold step. intros S M F.
  destruct e; destruct (main w) eqn:Mw; try discriminate; try contradiction;
    try (injection S as <-; simpl; rewrite ?Mw; repeat split;
         solve [auto | discriminate]);
    try (destruct (is_started _); try discriminate; injection S as <-;
         simpl; rewrite ?Mw; repeat split; solve [auto | discriminate]);
    try (destruct (_log_fd w); try discriminate; injection S as <-;
         simpl; rewrite ?Mw; repeat split; solve [auto | discriminate]).
  - destruct (resume_env _ _ _ _ S) as (M' & _).
    pose proof (resume_keeps_finished _ _ _ _ t_shut_down S F) as F'.
    pose proof (resume_not_finished _ _ _ _ S) as N.
    assert (Hn : name <> t_shut_down) by (intros ->; congruence).
    destruct (resume_client _ _ _ _ S Hn) as [E1 E2].
    rewrite E1, E2, M', Mw. repeat split; auto; discriminate.
  - destruct (all_finished w); try discriminate. injection S as <-.
    unfold _run_end.
    match goal with
    | |- context [match ?x with [] => _ | _ => _ end] => destruct x
    end; rewrite ?log_eq; simpl; repeat split; auto; discriminate.
Qed.

Lemma run_client evs : forall w w',
  run w evs = Some w' -> main w <> M_init ->
  is_finished (_tasks w t_shut_down) = true ->
  _qmp_established w' = _qmp_established w /\ qmp_sent w' = qmp_sent w.
Proof.
  induction evs as [|e evs IH]; intros w w' H M F; simpl in H.
  - injection H as <-. auto.
  - destruct (step w e) as [w1|] eqn:S; try discriminate.
    destruct (step_client _ _ _ S M F) as (E1 & E2 & M1 & F1).
    destruct (IH _ _ H M1 F1) as [E3 E4]. split; congruence.
Qed.

(** A finished task is never resumed. *)
Lemma finished_never_resumes w name a :
  is_finished (_tasks w name) = true -> step w (Resume name a) = None.
Proof.
  intros F. unfold step, resume, is_finished in *.
  destruct (main w); try reflexivity.
  destruct (status (_tasks w name)); try discriminate. reflexivity.
Qed.

(** C4: while the client is opening the socket, reading the greeting or
    awaiting the reply to qmp_capabilities, the flag is false. The step that
    reads the reply sets the flag, and goes on to wait for the shutdown
    request, exactly if the reply is a JSON object whose key "return" is
    mapped to an empty object; otherwise, and whenever one of the three
    operations raises, the task ends with an exception, is not resumed
    again, and the flag stays false for the rest of the run. *)
Theorem capability_negotiation w p a w' :
  reachable w ->
  status (_tasks w t_shut_down) = At p ->
  In p [SD_open; SD_greeting; SD_caps] ->
  step w (Resume t_shut_down a) = Some w' ->
  _qmp_established w = false /\
  (_qmp_established w' = true <->
   p = SD_caps /\ exists v, a = Json v /\ standard_response v = true) /\
  (_qmp_established w' = true -> status (_tasks w' t_shut_down) = At SD_signal) /\
  (forall v, p = SD_caps -> a = Json v -> standard_response v = false ->
     exists e, status (_tasks w' t_shut_down) = Finished (Raised e)) /\
  (forall e, a = Error e ->
     status (_tasks w' t_shut_down) = Finished (Raised e)) /\
  (is_finished (_tasks w' t_shut_down) = true ->
   (forall a', step w' (Resume t_shut_down a') = None) /\
   (forall later wf, run w' later = Some wf -> _qmp_established wf = false)).
Proof.
  intros R Es Hp S.
  pose proof (reachable_invariant _ R) as I.
  unfold step in S. destruct (main w) eqn:M; try discriminate.
  unfold Invariant in I. rewrite M in I.
  destruct (resume_env _ _ _ _ S) as (M1 & _).
  assert (Q : _qmp_established w = false).
  { destruct (_qmp_established w) eqn:Q; auto.
    pose proof (inv_qmp I Q) as X. rewrite Es in X.
    simpl in Hp. destruct Hp as [<-|[<-|[<-|[]]]]; discriminate. }
  assert (T : (_qmp_established w' = true <->
               p = SD_caps /\ exists v, a = Json v /\ standard_response v = true)
              /\ (_qmp_established w' = true ->
                  status (_tasks w' t_shut_down) = At SD_signal)
              /\ (forall v, p = SD_caps -> a = Json v ->
                  standard_response v = false ->
                  exists e, status (_tasks w' t_shut_down) = Finished (Raised e))
              /\ (forall e, a = Error e ->
                  status (_tasks w' t_shut_down) = Finished (Raised e))
              /\ (is_finished (_tasks w' t_shut_down) = true ->
                  _qmp_established w' = false)).
  { unfold resume in S. rewrite Es in S.
    simpl in Hp. destruct Hp as [<-|[<-|[<-|[]]]];
      destruct (cancel_req (_tasks w t_shut_down)) eqn:Ec;
      destruct a as [| | | | |[reply|]| |]; simpl in S; try discriminate.
    all: try (destruct (in_and_eq "return" eq_empty_dict reply)
                as [[|]|e0] eqn:E; simpl in S).
    all: injection S as <-.
    all: unfold settle, clear_cancel; rewrite ?log_eq; simpl; rewrite ?Q.
    all: repeat split; try discriminate; try reflexivity; try tauto;
      try (intros (X & v & Y & Z); discriminate);
      try (intros v X Y; discriminate);
      try (intros e X; discriminate);
      try (intros e X; injection X as <-; reflexivity);
      try (intros; eexists; reflexivity).
    all: try (intros e1 X; injection X as <-; reflexivity).
    all: try (exists (Some reply); split;
              [reflexivity | apply standard_response_spec; exact E]).
    all: try (intros v _ X Y; injection X as <-;
              apply standard_response_spec in E; congruence).
    all: intros (_ & v & X & Y); injection X as <-;
      try (apply standard_response_spec in Y; congruence); discriminate. }
  destruct T as (T1 & T2 & T3 & T4 & T5).
  repeat split; try apply T1; auto.
  - intros a'. apply finished_never_resumes. assumption.
  - intros later wf L.
    assert (M' : main w' <> M_init) by (rewrite M1, M; discriminate).
    destruct (run_client _ _ _ L M' H) as [E _]. rewrite E. auto.
Qed.


Lemma in_and_eq_true_obj key f reply :
  in_and_eq key f reply = Ok true -> exists items, reply = JObj items.
Proof.
  unfold in_and_eq, py_in, py_getitem.
  destruct reply as [| | |s|l|items]; try discriminate; eauto.
  - destruct (contains key s); discriminate.
  - destruct (existsb (is_str key) l); discriminate.
Qed.

(** The client only ever appends to what it has written to the socket. *)
Lemma resume_sent n a w w' :
  resume n a w = Some w' -> exists l, qmp_sent w' = (qmp_sent w ++ l)%list.
Proof.
  intros H.
  assert (D : n = t_shut_down \/ n <> t_shut_down)
    by (destruct n; auto; right; discriminate).
  destruct D as [->|D].
  2: { destruct (resume_client _ _ _ _ H D) as [_ E]. exists [].
       rewrite E, app_nil_r. reflexivity. }
  leaves H a Es Ec.
  all: prepare H.
  all: unfold settle, clear_cancel; rewrite ?log_eq; simpl.
  all: try (exists []; rewrite app_nil_r; reflexivity).
  all: eexists; reflexivity.
Qed.

Lemma step_sent w e w' :
  step w e = Some w' -> exists l, qmp_sent w' = (qmp_sent w ++ l)%list.
Proof.
  unfold step. intros S.
  destruct e; destruct (main w) eqn:Mw; try discriminate;
    try (injection S as <-; exists []; rewrite app_nil_r;
         rewrite ?run_begin_eq, ?log_eq, ?log_context_eq, ?remove_log_eq;
         reflexivity);
    try (destruct (is_started _); try discriminate; injection S as <-;
         exists []; rewrite app_nil_r; reflexivity);
    try (destruct (_log_fd w); try discriminate; injection S as <-;
         exists []; rewrite app_nil_r; reflexivity).
  - eapply resume_sent; eassumption.
  - destruct (all_finished w); try discriminate. injection S as <-.
    exists []. rewrite app_nil_r. unfold _run_end.
    match goal with
    | |- context [match ?x with [] => _ | _ => _ end] => destruct x
    end; rewrite ?log_eq; reflexivity.
Qed.

Lemma run_powerdowns evs : forall w w',
  run w evs = Some w' -> powerdowns w <= powerdowns w'.
Proof.
  induction evs as [|e evs IH]; intros w w' H; simpl in H.
  - injection H as <-. lia.
  - destruct (step w e) as [w1|] eqn:S; try discriminate.
    apply IH in H. destruct (step_sent _ _ _ S) as [l E].
    unfold powerdowns in *. rewrite E, count_occ_app in H. lia.
Qed.

Lemma reachable_run w evs w' :
  reachable w -> run w evs = Some w' -> reachable w'.
Proof.
  intros (c & o & u & pre & R) H. exists c, o, u, (pre ++ evs)%list.
  revert R H. generalize (init c o u). clear.
  induction pre as [|e pre IH]; intros w0 R H; simpl in *.
  - injection R as ->. exact H.
  - destruct (step w0 e); try discriminate. eauto.
Qed.

Lemma reachable_gather w name a w' :
  step w (Resume name a) = Some w' -> main w = M_gather.
Proof.
  unfold step. destruct (main w); try discriminate. reflexivity.
Qed.

(** The step of the client after the wait for the shutdown request, and
    the loop on the JSON objects it then reads. *)
Lemma powerdown_step w w' :
  reachable w ->
  status (_tasks w t_shut_down) = At SD_signal ->
  step w (Resume t_shut_down Go) = Some w' ->
  shutdown_request w = true /\
  powerdowns w = 0 /\
  qmp_sent w' = (qmp_sent w ++ [qmp_command "system_powerdown"])%list /\
  qmp_command "system_powerdown"
    = "{" ++ dq ++ "execute" ++ dq ++ ": " ++ dq ++ "system_powerdown" ++ dq
      ++ "}" ++ String "013" (String "010" "") /\
  _state w' = "shutting_down" /\
  status (_tasks w' t_shut_down) = At SD_loop /\
  (forall later wf, run w' later = Some wf -> powerdowns wf = 1) /\
  (forall later v a u,
     run w' later = Some v ->
     status (_tasks v t_shut_down) = At SD_loop ->
     step v (Resume t_shut_down a) = Some u ->
     (status (_tasks u t_shut_down) = Finished Returned <->
      exists items, a = Json (Some (JObj items)) /\ shutdown_line items = true)
     /\
     (forall items, a = Json (Some (JObj items)) -> shutdown_line items = false ->
        status (_tasks u t_shut_down) = At SD_loop /\
        _state u = "shutting_down" /\ qmp_sent u = qmp_sent v)).
Proof.
  intros R Es S.
  pose proof (reachable_invariant _ R) as I.
  pose proof (reachable_gather _ _ _ _ S) as M.
  unfold Invariant in I. rewrite M in I.
  assert (R' : reachable w').
  { apply (reachable_run w [Resume t_shut_down Go] w' R). unfold run.
    rewrite S. reflexivity. }
  assert (P0 : powerdowns w = 0) by (apply (inv_sent_0 I); rewrite Es; reflexivity).
  assert (T : shutdown_request w = true /\
              qmp_sent w' = (qmp_sent w ++ [qmp_command "system_powerdown"])%list /\
              _state w' = "shutting_down" /\
              status (_tasks w' t_shut_down) = At SD_loop).
  { unfold step in S. rewrite M in S. unfold resume in S. rewrite Es in S.
    destruct (cancel_req (_tasks w t_shut_down)); try discriminate.
    simpl in S. destruct (shutdown_request w); try discriminate.
    unfold assign_state, sd_loop in S. simpl in S. injection S as <-.
    unfold settle; rewrite ?log_eq; simpl. auto. }
  destruct T as (T1 & T2 & T3 & T4).
  assert (P1 : powerdowns w' = 1).
  { unfold powerdowns in *. rewrite T2, count_after_powerdown, P0.
    reflexivity. }
  repeat split; auto.
  - intros later wf L.
    pose proof (run_powerdowns _ _ _ L) as G.
    pose proof (reachable_invariant _ (reachable_run _ _ _ R' L)) as J.
    assert (Mf : main wf <> M_init).
    { intros X. unfold Invariant in J. rewrite X in J.
      unfold powerdowns in G. rewrite (fresh_sent J) in G. simpl in G.
      unfold powerdowns in P1. lia. }
    unfold Invariant in J. destruct (main wf); try contradiction;
      pose proof (inv_sent_le J); lia.
  - intros F.
    pose proof (reachable_gather _ _ _ _ H1) as Mv.
    unfold step in H1. rewrite Mv in H1. unfold resume in H1. rewrite H0 in H1.
    destruct (cancel_req (_tasks v t_shut_down)) eqn:Ec;
      destruct a as [| | | | |[reply|]| |]; simpl in H1; try discriminate.
    all: try (destruct (in_and_eq "event" (is_str "SHUTDOWN") reply)
                as [[|]|e0] eqn:E; simpl in H1).
    all: try (unfold sd_loop in H1; destruct (negb _) eqn:B).
    all: injection H1 as <-.
    all: unfold settle, clear_cancel in F; simpl in F; rewrite ?Ec in F;
      try discriminate.
    + destruct (in_and_eq_true_obj _ _ _ E) as [items ->].
      exists items. split; auto. rewrite shutdown_line_spec in E. congruence.
    + exfalso.
      pose proof (reachable_invariant _ (reachable_run _ _ _ R' H)) as J.
      unfold Invariant in J. rewrite Mv in J.
      assert (D : doomed (_tasks v) t_shut_down = false).
      { unfold doomed, is_finished, awaits_booted. rewrite H0, Ec. reflexivity. }
      rewrite (inv_sd_loop J D H0) in B. discriminate.
  - intros (items & -> & L).
    pose proof (reachable_gather _ _ _ _ H1) as Mv.
    unfold step in H1. rewrite Mv in H1. unfold resume in H1. rewrite H0 in H1.
    destruct (cancel_req (_tasks v t_shut_down)) eqn:Ec; try discriminate.
    simpl in H1. rewrite shutdown_line_spec, L in H1. simpl in H1.
    injection H1 as <-. unfold settle; simpl. rewrite Ec. reflexivity.
  - pose proof (reachable_gather _ _ _ _ H1) as Mv.
    pose proof (reachable_invariant _ (reachable_run _ _ _ R' H)) as J.
    unfold Invariant in J. rewrite Mv in J.
    unfold step in H1. rewrite Mv in H1. unfold resume in H1. rewrite H0 in H1.
    destruct (cancel_req (_tasks v t_shut_down)) eqn:Ec;
      rewrite H2 in H1; try discriminate.
    simpl in H1. rewrite shutdown_line_spec, H3 in H1. simpl in H1.
    assert (D : doomed (_tasks v) t_shut_down = false).
    { unfold doomed, is_finished, awaits_booted. rewrite H0, Ec. reflexivity. }
    unfold sd_loop in H1. rewrite (inv_sd_loop J D H0) in H1. simpl in H1.
    injection H1 as <-. unfold settle; simpl. reflexivity.
  - pose proof (reachable_gather _ _ _ _ H1) as Mv.
    pose proof (reachable_invariant _ (reachable_run _ _ _ R' H)) as J.
    unfold Invariant in J. rewrite Mv in J.
    unfold step in H1. rewrite Mv in H1. unfold resume in H1. rewrite H0 in H1.
    destruct (cancel_req (_tasks v t_shut_down)) eqn:Ec;
      rewrite H2 in H1; try discriminate.
    simpl in H1. rewrite shutdown_line_spec, H3 in H1. simpl in H1.
    assert (D : doomed (_tasks v) t_shut_down = false).
    { unfold doomed, is_finished, awaits_booted. rewrite H0, Ec. reflexivity. }
    unfold sd_loop in H1. rewrite (inv_sd_loop J D H0) in H1. simpl in H1.
    injection H1 as <-. unfold settle; simpl.
    apply (inv_sd_loop J D H0).
  - pose proof (reachable_gather _ _ _ _ H1) as Mv.
    pose proof (reachable_invariant _ (reachable_run _ _ _ R' H)) as J.
    unfold Invariant in J. rewrite Mv in J.
    unfold step in H1. rewrite Mv in H1. unfold resume in H1. rewrite H0 in H1.
    destruct (cancel_req (_tasks v t_shut_down)) eqn:Ec;
      rewrite H2 in H1; try discriminate.
    simpl in H1. rewrite shutdown_line_spec, H3 in H1. simpl in H1.
    assert (D : doomed (_tasks v) t_shut_down = false).
    { unfold doomed, is_finished, awaits_booted. rewrite H0, Ec. reflexivity. }
    unfold sd_loop in H1. rewrite (inv_sd_loop J D H0) in H1. simpl in H1.
    injection H1 as <-. unfold settle; simpl. reflexivity.
Qed.

Lemma loop_line_spec reply :
  in_and_eq "event" (is_str "SHUTDOWN") reply
  = match loop_exit (Json (Some reply)) with
    | Some Returned => Ok true
    | Some (Raised e) => Raise e
    | _ => Ok false
    end.
Proof.
  unfold in_and_eq, py_in, py_getitem, loop_exit, shutdown_line, is_str.
  destruct reply as [| | |s|l|items]; try reflexivity.
  - destruct (contains "event" s); reflexivity.
  - destruct (existsb _ l); reflexivity.
  - destruct (dict_get "event" items) as [x|]; [|reflexivity].
    destruct x; try reflexivity.
    destruct (String.eqb s "SHUTDOWN"); reflexivity.
Qed.

Lemma loop_exit_line reply : loop_exit (Json (Some reply)) <> Some Cancelled.
Proof.
  destruct reply as [| | |s|l|items]; simpl; try discriminate.
  - destruct (contains "event" s); discriminate.
  - destruct (existsb _ l); discriminate.
  - destruct (shutdown_line items); discriminate.
Qed.

(** A step of the client in its reading loop. *)
Lemma loop_step v a u :
  reachable v ->
  status (_tasks v t_shut_down) = At SD_loop ->
  step v (Resume t_shut_down a) = Some u ->
  (a = Cancel \/ (exists e, a = Error e) \/ exists line, a = Json line) /\
  status (_tasks u t_shut_down)
  = match loop_exit a with
    | Some o => Finished o
    | None => At SD_loop
    end /\
  qmp_sent u = qmp_sent v /\ _state u = _state v /\
  (loop_exit a = None -> _state u = "shutting_down").
Proof.
  intros R Es S.
  pose proof (reachable_invariant _ R) as I.
  pose proof (reachable_gather _ _ _ _ S) as M.
  unfold Invariant in I. rewrite M in I.
  unfold step in S. rewrite M in S. unfold resume in S. rewrite Es in S.
  destruct (cancel_req (_tasks v t_shut_down)) eqn:Ec;
    destruct a as [| | | | |[reply|]| |]; simpl in S; try discriminate.
  - injection S as <-. unfold settle, clear_cancel. simpl.
    repeat split; eauto; try (intros; discriminate).
  - assert (D : doomed (_tasks v) t_shut_down = false).
    { unfold doomed, is_finished, awaits_booted. rewrite Es, Ec. reflexivity. }
    pose proof (inv_sd_loop I D Es) as B.
    rewrite loop_line_spec in S.
    pose proof (loop_exit_line reply) as NC.
    destruct (loop_exit (Json (Some reply))) as [[|e|]|] eqn:L;
      try congruence;
      simpl in S; unfold sd_loop in S; rewrite ?B in S; simpl in S;
      injection S as <-; unfold settle; simpl; rewrite ?Ec;
      repeat split; eauto; try (intros; discriminate).
  - injection S as <-. unfold settle. simpl.
    repeat split; eauto; try (intros; discriminate).
  - injection S as <-. unfold settle. simpl.
    repeat split; eauto; try (intros; discriminate).
Qed.

(** C3 (amended): the client waiting for the shutdown request goes on only
    once the request is set; nothing was sent for powering down before; the
    step writes the system_powerdown command, followed by CRLF, to the
    socket, sets the state to shutting_down and enters the reading loop, and
    for the rest of the run that command has been written exactly once. A
    step in the loop is the delivery of a line, of an exception of the read
    or of a cancellation, and it writes nothing to the socket and leaves the
    state alone. The task returns exactly on a JSON object whose "event" is
    "SHUTDOWN" and stays in the loop on any other JSON object; the loop is
    also left, the task ending with that exception, by a line that is not
    JSON (JSONDecodeError), by a JSON value that is not an object on which
    the test raises (TypeError) and by an exception of the read, and by a
    cancellation, the task ending cancelled. *)
Theorem powerdown_on_request w w' :
  reachable w ->
  status (_tasks w t_shut_down) = At SD_signal ->
  step w (Resume t_shut_down Go) = Some w' ->
  shutdown_request w = true /\
  powerdowns w = 0 /\
  qmp_sent w' = (qmp_sent w ++ [qmp_command "system_powerdown"])%list /\
  qmp_command "system_powerdown"
    = "{" ++ dq ++ "execute" ++ dq ++ ": " ++ dq ++ "system_powerdown" ++ dq
      ++ "}" ++ String "013" (String "010" "") /\
  _state w' = "shutting_down" /\
  status (_tasks w' t_shut_down) = At SD_loop /\
  (forall later wf, run w' later = Some wf -> powerdowns wf = 1) /\
  (forall later v a u,
     run w' later = Some v ->
     status (_tasks v t_shut_down) = At SD_loop ->
     step v (Resume t_shut_down a) = Some u ->
     (a = Cancel \/ (exists e, a = Error e) \/ exists line, a = Json line) /\
     status (_tasks u t_shut_down)
     = match loop_exit a with
       | Some o => Finished o
       | None => At SD_loop
       end /\
     qmp_sent u = qmp_sent v /\ _state u = _state v /\
     (loop_exit a = None -> _state u = "shutting_down") /\
     (status (_tasks u t_shut_down) = Finished Returned <->
      exists items, a = Json (Some (JObj items)) /\ shutdown_line items = true)
     /\
     (forall items, a = Json (Some (JObj items)) -> shutdown_line items = false ->
        status (_tasks u t_shut_down) = At SD_loop) /\
     (a = Json None ->
      status (_tasks u t_shut_down) = Finished (Raised JSONDecodeError)) /\
     (forall e, a = Error e ->
      status (_tasks u t_shut_down) = Finished (Raised e)) /\
     (a = Cancel -> status (_tasks u t_shut_down) = Finished Cancelled) /\
     (forall reply, a = Json (Some reply) ->
      (forall items, reply <> JObj items) ->
      status (_tasks u t_shut_down) = Finished (Raised TypeError) \/
      status (_tasks u t_shut_down) = At SD_loop)).
Proof.
  intros R Es S.
  destruct (powerdown_step _ _ R Es S) as (A1 & A2 & A3 & A4 & A5 & A6 & A7 & A8).
  assert (R' : reachable w').
  { apply (reachable_run w [Resume t_shut_down Go] w' R). unfold run.
    rewrite S. reflexivity. }
  repeat (split; [assumption|]).
  intros later v a u L Ev Sv.
  destruct (loop_step _ _ _ (reachable_run _ _ _ R' L) Ev Sv)
    as (B1 & B2 & B3 & B4 & B5).
  destruct (A8 later v a u L Ev Sv) as (C1 & C2).
  repeat (split; [assumption|]).
  split; [intros items X Y; apply (C2 items X Y)|].
  split; [intros ->; exact B2|].
  split; [intros e ->; exact B2|].
  split; [intros ->; exact B2|].
  intros reply -> N. rewrite B2.
  destruct reply as [| | |s|l|items]; simpl; auto.
  - destruct (contains "event" s); auto.
  - destruct (existsb _ l); auto.
  - exfalso. apply (N items). reflexivity.
Qed.

End Client.

Lemma capability_negotiation_witness :
  reachable (lib := demo_lib) (after negotiating) /\
  status (_tasks (after negotiating) t_shut_down) = At SD_caps /\
  step (lib := demo_lib) (after negotiating)
    (Resume t_shut_down (Json (Some ok_reply)))
  = Some (after (negotiating ++ [Resume t_shut_down (Json (Some ok_reply))])) /\
  _qmp_established (after negotiating) = false /\
  _qmp_established
    (after (negotiating ++ [Resume t_shut_down (Json (Some ok_reply))])) = true.
Proof.
  assert (R : reachable (lib := demo_lib) (after negotiating)).
  { exists demo_cfg, None, true, negotiating. vm_compute. reflexivity. }
  assert (Es : status (_tasks (after negotiating) t_shut_down) = At SD_caps)
    by (vm_compute; reflexivity).
  assert (Hp : In SD_caps [SD_open; SD_greeting; SD_caps])
    by (simpl; auto).
  assert (S : step (lib := demo_lib) (after negotiating)
                (Resume t_shut_down (Json (Some ok_reply)))
              = Some (after (negotiating
                             ++ [Resume t_shut_down (Json (Some ok_reply))]))).
  { vm_compute. reflexivity. }
  split; [exact R|]. split; [exact Es|]. split; [exact S|].
  destruct (capability_negotiation _ _ _ _ R Es Hp S) as (Q & T & _).
  split; [exact Q|]. apply T. split; [reflexivity|].
  exists (Some ok_reply). split; reflexivity.
Defined.

Lemma powerdown_on_request_witness :
  reachable (lib := demo_lib) (after signalled) /\
  status (_tasks (after signalled) t_shut_down) = At SD_signal /\
  step (lib := demo_lib) (after signalled) (Resume t_shut_down Go)
  = Some (after powering_down) /\
  _state (after powering_down) = "shutting_down" /\
  powerdowns (after powering_down) = 1.
Proof.
  assert (R : reachable (lib := demo_lib) (after signalled)).
  { exists demo_cfg, None, true, signalled. vm_compute. reflexivity. }
  assert (Es : status (_tasks (after signalled) t_shut_down) = At SD_signal)
    by (vm_compute; reflexivity).
  assert (S : step (lib := demo_lib) (after signalled) (Resume t_shut_down Go)
              = Some (after powering_down)).
  { vm_compute. reflexivity. }
  split; [exact R|]. split; [exact Es|]. split; [exact S|].
  destruct (powerdown_on_request _ _ R Es S) as (_ & _ & _ & _ & T & _ & P & _).
  split; [exact T|]. exact (P [] _ eq_refl).
Defined.

(** The reader of the loop gets a line that is not JSON (the socket was
    closed, say): the task leaves the loop with JSONDecodeError, and no
    SHUTDOWN event was read. *)
Lemma loop_left_without_shutdown :
  reachable (lib := demo_lib) (after powering_down) /\
  status (_tasks (after powering_down) t_shut_down) = At SD_loop /\
  step (lib := demo_lib) (after powering_down) (Resume t_shut_down (Json None))
  = Some (after (powering_down ++ [Resume t_shut_down (Json None)])) /\
  status (_tasks (after (powering_down ++ [Resume t_shut_down (Json None)]))
            t_shut_down) = Finished (Raised JSONDecodeError) /\
  ~ loop_ends_only_on_shutdown (lib := demo_lib).
Proof.
  assert (R : reachable (lib := demo_lib) (after powering_down)).
  { exists demo_cfg, None, true, powering_down. vm_compute. reflexivity. }
  assert (Es : status (_tasks (after powering_down) t_shut_down) = At SD_loop)
    by (vm_compute; reflexivity).
  assert (S : step (lib := demo_lib) (after powering_down)
                (Resume t_shut_down (Json None))
              = Some (after (powering_down ++ [Resume t_shut_down (Json None)])))
    by (vm_compute; reflexivity).
  split; [exact R|]. split; [exact Es|]. split; [exact S|].
  split; [vm_compute; reflexivity|].
  intros H. destruct (H _ _ _ R Es S) as (items & X & _).
  - vm_compute. reflexivity.
  - discriminate X.
Qed.

(** ** The boot probe and the two watchdogs *)

Section Watchdogs.

Context {lib : PyLib}.

(** Events other than a task's step and the call leave the tasks, the state
    and the standard error stream alone. *)
Lemma step_frame w e w' :
  step w e = Some w' -> e <> Call -> (forall n a, e <> Resume n a) ->
  _state w' = _state w /\ _tasks w' = _tasks w /\ stderr w' = stderr w /\
  (main w' = main w \/
   (e = Gathered /\ all_finished w = true /\ main w' = M_done)).
Proof.
  unfold step. intros S C N.
  destruct e; try congruence; try (exfalso; eapply N; reflexivity);
    destruct (main w) eqn:M; try discriminate;
    try (destruct (is_started _); try discriminate);
    try (destruct (_log_fd w); try discriminate);
    try (destruct (all_finished w) eqn:A; try discriminate);
    injection S as <-.
  all: try (simpl; rewrite ?M; repeat split; auto; fail).
  all: unfold _run_end;
  match goal with
  | |- context [match ?x with [] => _ | _ => _ end] => destruct x
  end; rewrite ?log_eq; simpl; repeat split; auto.
Qed.

Lemma call_frame w w' :
  step w Call = Some w' ->
  main w = M_init /\ main w' = M_gather /\ _state w' = "booting" /\
  _tasks w' = fresh_tasks /\ stderr w' = stderr w.
Proof.
  unfold step. destruct (main w); try discriminate. intros S.
  injection S as <-. rewrite run_begin_eq, !log_eq, log_context_eq, remove_log_eq.
  simpl. repeat split; auto.
Qed.

Lemma run_preserves (P : World -> Prop) :
  (forall w e w', Invariant w -> P w -> step w e = Some w' -> P w') ->
  forall evs w w', Invariant w -> P w -> run w evs = Some w' -> P w'.
Proof.
  intros HP. induction evs as [|e evs IH]; intros w w' I p H; simpl in H.
  - injection H as <-. exact p.
  - destruct (step w e) as [w1|] eqn:S; try discriminate.
    eapply IH; [| |exact H].
    + eapply step_invariant; eassumption.
    + eapply HP; eassumption.
Qed.

Ltac state_clash :=
  exfalso;
  match goal with
  | E : _state ?w = _, H : context [String.eqb (_state ?w) _] |- _ =>
      rewrite E in H; simpl in H; discriminate H
  end.

Ltac fin :=
  solve [ repeat (first [ reflexivity | assumption
                        | apply Nat.leb_le; assumption
                        | split | eexists ]) ].

Ltac pick := first [ fin | left; fin | right; pick ].

(** Each task is suspended only at an [await] of its own coroutine. *)
Lemma resume_placed_at n a w w' :
  resume n a w = Some w' ->
  match status (_tasks w' n) with
  | At p => owner p = n
  | _ => True
  end.
Proof.
  intros H.
  destruct n.
  3: { destruct (status (_tasks w t_progress)) eqn:Es;
         unfold resume in H; rewrite Es in H; try discriminate;
         [ destruct (forallb _ _); try discriminate |];
         destruct (cancel_req _) eqn:Ec; destruct a;
         cbn [coroutine _progress option_map] in H; try discriminate.
       all: try (destruct p; try discriminate).
       all: try (destruct (Nat.leb _ _); cbn [option_map] in H;
                 try discriminate).
       all: try (unfold progress_loop in H;
                 destruct (negb _); [destruct (_state w)|];
                 try destruct (negb _ && _)).
       all: injection H as <-; unfold settle, clear_cancel; rewrite ?log_eq;
         simpl; auto. }
  all: leaves H a Es Ec.
  all: prepare H.
  all: unfold settle, clear_cancel; rewrite ?log_eq; simpl; auto.
Qed.

Lemma resume_placed n a w w' :
  resume n a w = Some w' ->
  forall p, status (_tasks w' n) = At p -> owner p = n.
Proof.
  intros H p E. apply resume_placed_at in H. rewrite E in H. exact H.
Qed.

Lemma step_placed w e w' :
  Invariant w -> well_placed w -> step w e = Some w' -> well_placed w'.
Proof.
  intros _ P S.
  assert (D : e = Call \/ (exists n a, e = Resume n a) \/
              (e <> Call /\ forall n a, e <> Resume n a)).
  { destruct e; eauto; right; right; split; intros; discriminate. }
  destruct D as [->|[(n & a & ->)|[C N]]].
  - apply call_frame in S. destruct S as (_ & _ & _ & T & _).
    intros name p. rewrite T. discriminate.
  - unfold step in S. destruct (main w); try discriminate.
    intros name p E.
    assert (Dn : name = n \/ name <> n)
      by (destruct name, n; auto; right; discriminate).
    destruct Dn as [->|Dn].
    + eapply resume_placed; eassumption.
    + destruct (resume_others _ _ _ _ S name Dn) as [X _].
      apply P. rewrite <- X. exact E.
  - destruct (step_frame _ _ _ S C N) as (_ & T & _).
    intros name p. rewrite T. apply P.
Qed.

Lemma reachable_placed w : reachable w -> well_placed w.
Proof.
  intros (c & o & u & evs & H).
  eapply (run_preserves well_placed step_placed); [| |exact H].
  - apply init_invariant.
  - intros name p. discriminate.
Qed.

(** Cancelling the boot watchdog does not touch the probe. *)
Lemma cancel_boot_timeout_probe ts :
  (forall p, status (ts t_boot_timeout) = At p -> owner p = t_boot_timeout) ->
  cancel_each [t_boot_timeout] ts t_wait_until_booted = ts t_wait_until_booted.
Proof.
  intros P. unfold cancel_each. cbn [fold_left]. unfold cancel.
  destruct (status (ts t_boot_timeout)) as [|p|] eqn:E; try reflexivity.
  destruct p; try (specialize (P _ eq_refl); discriminate P); reflexivity.
Qed.

(** A step of the boot probe. *)
Lemma probe_step a w w' :
  Inv w -> well_placed w -> resume t_wait_until_booted a w = Some w' ->
  (a = Cancel /\ status (_tasks w' t_wait_until_booted) = Finished Cancelled
   /\ _state w' = _state w /\ stderr w' = stderr w) \/
  (a <> Cancel /\ _state w = "booting" /\ stderr w' = stderr w /\
   ((a = Go /\ status (_tasks w t_wait_until_booted) = NotStarted /\
     status (_tasks w' t_wait_until_booted) = At WB_connect /\
     _state w' = "booting") \/
    (a = Connected /\ status (_tasks w t_wait_until_booted) = At WB_connect /\
     status (_tasks w' t_wait_until_booted) = At WB_readline /\
     _state w' = "booting") \/
    (exists e, a = Error e /\ is_ConnectionError e = true /\
               status (_tasks w' t_wait_until_booted)
               = At (WB_sleep (now w + 1)) /\
               _state w' = "booting") \/
    (exists e, a = Error e /\ is_ConnectionError e = false /\
               status (_tasks w' t_wait_until_booted) = Finished (Raised e) /\
               _state w' = "booting") \/
    (exists reply, a = Line reply /\ startswith reply "SSH-2.0-" = false /\
                   status (_tasks w t_wait_until_booted) = At WB_readline /\
                   status (_tasks w' t_wait_until_booted)
                   = At (WB_sleep (now w + 1)) /\
                   _state w' = "booting") \/
    (exists reply, a = Line reply /\ startswith reply "SSH-2.0-" = true /\
                   status (_tasks w t_wait_until_booted) = At WB_readline /\
                   status (_tasks w' t_wait_until_booted) = Finished Returned /\
                   _state w' = "running") \/
    (exists wake, a = Go /\
                  status (_tasks w t_wait_until_booted) = At (WB_sleep wake) /\
                  wake <= now w /\
                  status (_tasks w' t_wait_until_booted) = At WB_connect /\
                  _state w' = "booting"))).
Proof.
  intros I P H.
  pose proof (P t_boot_timeout) as Pb.
  leaves H a Es Ec.
  all: try (assert (B : _state w = "booting")
             by (apply (inv_probe I); unfold doomed, is_finished, awaits_booted;
                 rewrite Es, Ec; reflexivity)).
  all: unfold wub_loop, wub_except, wub_else, assign_state in H;
    try rewrite B in H; simpl in H.
  all: split_if H; unfold wub_after_loop in H; simpl in H; injection H as <-.
  all: unfold settle, clear_cancel; rewrite ?log_eq; simpl;
    rewrite ?cancel_boot_timeout_probe by assumption; rewrite ?Ec.
  all: try (left; repeat split; reflexivity).
  all: right; (split; [discriminate|]); (split; [assumption|]);
    (split; [reflexivity|]).
  all: pick.
Qed.

Lemma cancel_boot_timeout_self ts :
  (forall p, status (ts t_boot_timeout) = At p -> owner p = t_boot_timeout) ->
  is_finished (cancel_each [t_boot_timeout] ts t_boot_timeout)
  || cancel_req (cancel_each [t_boot_timeout] ts t_boot_timeout) = true.
Proof.
  intros P. unfold cancel_each. cbn [fold_left]. unfold cancel, is_finished.
  destruct (status (ts t_boot_timeout)) as [|p|] eqn:E.
  - rewrite request_cancel_set. apply orb_true_r.
  - destruct p; try (specialize (P _ eq_refl); discriminate P).
    cbn [awaits_task]. rewrite request_cancel_set. apply orb_true_r.
  - rewrite E. reflexivity.
Qed.

Lemma probe_success_cancels reply w w' :
  well_placed w ->
  resume t_wait_until_booted (Line reply) w = Some w' ->
  startswith reply "SSH-2.0-" = true ->
  doomed (_tasks w') t_boot_timeout = true.
Proof.
  intros P H Hs. unfold resume in H.
  pose proof (P t_boot_timeout) as Pb.
  destruct (status (_tasks w t_wait_until_booted)) as [|p|] eqn:Es;
    try discriminate;
    [ destruct (forallb _ _); try discriminate |];
    destruct (cancel_req (_tasks w t_wait_until_booted)) eqn:Ec;
    try destruct p; simpl in H; try discriminate.
  rewrite Hs in H. unfold wub_else, assign_state in H. simpl in H.
  unfold wub_after_loop in H. simpl in H. injection H as <-.
  unfold settle, doomed. rewrite ?log_eq. simpl.
  rewrite (cancel_boot_timeout_self _ Pb). reflexivity.
Qed.

(** The steps of the boot probe. *)
Lemma probe_retries_core w a w' :
  reachable w ->
  step w (Resume t_wait_until_booted a) = Some w' ->
  (a = Cancel \/ _state w = "booting") /\
  (forall e, a = Error e -> is_ConnectionError e = true ->
     status (_tasks w' t_wait_until_booted) = At (WB_sleep (now w + 1)) /\
     _state w' = "booting") /\
  (forall reply, a = Line reply -> startswith reply "SSH-2.0-" = false ->
     status (_tasks w' t_wait_until_booted) = At (WB_sleep (now w + 1)) /\
     _state w' = "booting") /\
  (forall wake, status (_tasks w t_wait_until_booted) = At (WB_sleep wake) ->
     a = Go ->
     wake <= now w /\ status (_tasks w' t_wait_until_booted) = At WB_connect) /\
  (forall reply, a = Line reply -> startswith reply "SSH-2.0-" = true ->
     _state w' = "running" /\
     doomed (_tasks w') t_boot_timeout = true /\
     status (_tasks w' t_wait_until_booted) = Finished Returned) /\
  (forall e, status (_tasks w' t_wait_until_booted) = Finished (Raised e) ->
     a = Error e /\ is_ConnectionError e = false) /\
  (is_finished (_tasks w' t_wait_until_booted) = true ->
   a = Cancel \/
   (exists reply, a = Line reply /\ startswith reply "SSH-2.0-" = true) \/
   (exists e, a = Error e /\ is_ConnectionError e = false)).
Proof.
  intros R S.
  pose proof (reachable_invariant _ R) as I.
  pose proof (reachable_placed _ R) as P.
  pose proof (reachable_gather _ _ _ _ S) as M.
  unfold Invariant in I. rewrite M in I.
  unfold step in S. rewrite M in S.
  pose proof (probe_success_cancels) as C.
  destruct (probe_step _ _ _ I P S)
    as [(-> & E1 & E2 & E3)
       |(N & B & E & [(-> & E1 & E2 & E3)
                     |[(-> & E1 & E2 & E3)
                      |[(e & -> & E1 & E2 & E3)
                       |[(e & -> & E1 & E2 & E3)
                        |[(r & -> & E1 & E0 & E2 & E3)
                         |[(r & -> & E1 & E0 & E2 & E3)
                          |(k & -> & E1 & E0 & E2 & E3)]]]]]])].
  all: repeat split; intros.
  all: try discriminate.
  all: repeat match goal with
       | H : Line _ = Line _ |- _ => injection H as <-
       | H : Error _ = Error _ |- _ => injection H as <-
       | H1 : status ?t = At (WB_sleep ?x), H2 : status ?t = At (WB_sleep ?y)
         |- _ => assert (x = y) by congruence; subst x; clear H1
       end.
  all: try solve [auto | congruence | eapply C; eassumption].
  all: try (unfold is_finished in *; rewrite ?E1, ?E2 in *; discriminate).
  all: try solve [right; left; eauto | right; right; eauto].
Qed.

(** C5 (amended): a step of the boot probe that is not the delivery of a
    cancellation is taken while the state is booting. An attempt that ends
    in a ConnectionError, or whose first line does not start with SSH-2.0-,
    is followed by a sleep of one second and, when it is over, by a new
    attempt. An attempt whose first line starts with SSH-2.0- sets the state
    to running, cancels the boot watchdog and ends the task. The task ends
    otherwise only when it is cancelled or when the connection or the read
    raises an exception that is not a ConnectionError; it never ends by a
    ConnectionError. Every exception of the connection or of the read that
    is not a ConnectionError ends the task with that exception, the state
    unchanged; a cancellation ends the task cancelled. *)
Theorem probe_retries w a w' :
  reachable w ->
  step w (Resume t_wait_until_booted a) = Some w' ->
  (a = Cancel \/ _state w = "booting") /\
  (forall e, a = Error e -> is_ConnectionError e = true ->
     status (_tasks w' t_wait_until_booted) = At (WB_sleep (now w + 1)) /\
     _state w' = "booting") /\
  (forall reply, a = Line reply -> startswith reply "SSH-2.0-" = false ->
     status (_tasks w' t_wait_until_booted) = At (WB_sleep (now w + 1)) /\
     _state w' = "booting") /\
  (forall wake, status (_tasks w t_wait_until_booted) = At (WB_sleep wake) ->
     a = Go ->
     wake <= now w /\ status (_tasks w' t_wait_until_booted) = At WB_connect) /\
  (forall reply, a = Line reply -> startswith reply "SSH-2.0-" = true ->
     _state w' = "running" /\
     doomed (_tasks w') t_boot_timeout = true /\
     status (_tasks w' t_wait_until_booted) = Finished Returned) /\
  (forall e, status (_tasks w' t_wait_until_booted) = Finished (Raised e) ->
     a = Error e /\ is_ConnectionError e = false) /\
  (is_finished (_tasks w' t_wait_until_booted) = true ->
   a = Cancel \/
   (exists reply, a = Line reply /\ startswith reply "SSH-2.0-" = true) \/
   (exists e, a = Error e /\ is_ConnectionError e = false)) /\
  (forall e, a = Error e -> is_ConnectionError e = false ->
     status (_tasks w' t_wait_until_booted) = Finished (Raised e) /\
     _state w' = _state w) /\
  (a = Cancel ->
   status (_tasks w' t_wait_until_booted) = Finished Cancelled /\
   _state w' = _state w).
Proof.
  intros R S.
  pose proof (probe_retries_core _ _ _ R S) as (A1 & A2 & A3 & A4 & A5 & A6 & A7).
  repeat (split; [assumption|]).
  pose proof (reachable_invariant _ R) as I.
  pose proof (reachable_placed _ R) as P.
  pose proof (reachable_gather _ _ _ _ S) as M.
  unfold Invariant in I. rewrite M in I.
  unfold step in S. rewrite M in S.
  destruct (probe_step _ _ _ I P S)
    as [(-> & E1 & E2 & E3)
       |(N & B & E & [(-> & E1 & E2 & E3)
                     |[(-> & E1 & E2 & E3)
                      |[(e & -> & E1 & E2 & E3)
                       |[(e & -> & E1 & E2 & E3)
                        |[(r & -> & E1 & E0 & E2 & E3)
                         |[(r & -> & E1 & E0 & E2 & E3)
                          |(k & -> & E1 & E0 & E2 & E3)]]]]]])].
  all: split; [intros x X Y; try discriminate|intros X; try discriminate].
  all: try (injection X as <-).
  all: try solve [split; congruence].
  all: try congruence.
Qed.

End Watchdogs.

Section Timeouts.

Context {lib : PyLib}.

Lemma task_name_dec (a b : task_name) : a = b \/ a <> b.
Proof. destruct a, b; auto; right; discriminate. Qed.

Lemma event_cases e :
  e = Call \/ (exists n a, e = Resume n a) \/
  (e <> Call /\ forall n a, e <> Resume n a).
Proof. destruct e; eauto; right; right; split; intros; discriminate. Qed.





Lemma main_after_init w e w' :
  step w e = Some w' -> main w <> M_init -> main w' <> M_init.
Proof.
  intros S M.
  destruct (event_cases e) as [->|[(n & a & ->)|[C N]]].
  - apply call_frame in S. destruct S as (_ & M' & _). congruence.
  - pose proof (reachable_gather _ _ _ _ S) as G.
    unfold step in S. rewrite G in S.
    destruct (resume_env _ _ _ _ S) as (M' & _). congruence.
  - destruct (step_frame _ _ _ S C N) as (_ & _ & _ & [M'|(_ & _ & M')]);
      congruence.
Qed.



End Timeouts.

Ltac still n :=
  unfold unchanged_but; split; [reflexivity|]; split; [reflexivity|];
  let m := fresh "m" in let Hm := fresh "Hm" in let Hb := fresh "Hb" in
  intros m Hm;
  assert (Hb : task_name_eqb m n = false)
    by (destruct (task_name_eqb m n) eqn:E; auto;
        apply task_name_eqb_eq in E; contradiction);
  unfold settle, clear_cancel; simpl; rewrite ?Hb; reflexivity.

Section Fire.

Context {lib : PyLib}.


(** What the last statement of either watchdog leaves behind. *)
Lemma fired n text w :
  n <> t_wait_until_booted ->
  is_finished (_tasks w n) = false -> awaits_booted (_tasks w n) = false ->
  let w' := settle n (_cancel_tasks [] (write_stderr text w), Done Returned) in
  status (_tasks w' n) = Finished Cancelled /\
  all_doomed w' /\
  _state w' = _state w /\ stderr w' = (stderr w ++ [text])%list /\
  main w' = main w /\
  forall m, m <> n -> status (_tasks w' m) = status (_tasks w m).
Proof.
  intros Hn F A w'.
  pose proof (cancel_all_doomed (write_stderr text w) n) as D.
  unfold doomed in D.
  change (_tasks (_cancel_tasks [] (write_stderr text w)))
    with (cancel_each task_order (_tasks w)) in D.
  rewrite cancel_each_is_finished, cancel_each_awaits, F, A in D.
  simpl in D. rewrite orb_false_r in D.
  assert (S : status (_tasks w' n) = Finished Cancelled).
  { subst w'. unfold settle.
    change (_tasks (_cancel_tasks [] (write_stderr text w)))
      with (cancel_each task_order (_tasks w)).
    cbn [_tasks with_tasks]. rewrite upd_same, D. reflexivity. }
  split; [exact S|].
  split; [|split; [reflexivity|split; [reflexivity|split; [reflexivity|]]]].
  - intros m. destruct (task_name_dec m n) as [->|Dm].
    + unfold doomed, is_finished. rewrite S. reflexivity.
    + subst w'. unfold settle. cbn [_tasks with_tasks].
      rewrite doomed_upd_other by congruence.
      apply cancel_all_doomed.
  - intros m Dm. subst w'. unfold settle. cbn [_tasks with_tasks].
    rewrite upd_other by assumption.
    apply (cancel_tasks_status [] (write_stderr text w) m).
Qed.


(** C7: the shutdown watchdog first awaits the boot probe and goes on when
    the probe has returned (it ends as the probe did when the probe failed
    or was cancelled), then waits until the shutdown request is set, then
    sleeps until 60 seconds later. When the sleep is over the supervisor is
    not finished and [_run] still gathers its tasks; the watchdog writes the
    time-out text to the standard error stream and cancels every task.
    Cancelled at any of its waits, it ends cancelled without doing anything,
    and its outcome is not among the reported errors. *)
Theorem shutdown_watchdog w a w' :
  reachable w ->
  step w (Resume t_shutdown_timeout a) = Some w' ->
  (a = Go /\ status (_tasks w t_shutdown_timeout) = NotStarted /\
   status (_tasks w' t_shutdown_timeout) = At ST_await_boot /\
   unchanged_but t_shutdown_timeout w w') \/
  (a = Go /\ status (_tasks w t_shutdown_timeout) = At ST_await_boot /\
   status (_tasks w t_wait_until_booted) = Finished Returned /\
   status (_tasks w' t_shutdown_timeout) = At ST_signal /\
   unchanged_but t_shutdown_timeout w w') \/
  (a = Go /\ status (_tasks w t_shutdown_timeout) = At ST_await_boot /\
   failed (_tasks w t_wait_until_booted) = true /\
   status (_tasks w' t_shutdown_timeout)
   = status (_tasks w t_wait_until_booted) /\
   unchanged_but t_shutdown_timeout w w') \/
  (a = Go /\ status (_tasks w t_shutdown_timeout) = At ST_signal /\
   shutdown_request w = true /\
   status (_tasks w' t_shutdown_timeout) = At (ST_sleep (now w + 60)) /\
   unchanged_but t_shutdown_timeout w w') \/
  (exists wake,
     a = Go /\ status (_tasks w t_shutdown_timeout) = At (ST_sleep wake) /\
     wake <= now w /\
     is_finished (_tasks w t_run_vm) = false /\ main w = M_gather /\
     stderr w' = (stderr w ++ [shutdown_timed_out_text])%list /\
     all_doomed w' /\
     status (_tasks w' t_shutdown_timeout) = Finished Cancelled /\
     errors_of [status (_tasks w' t_shutdown_timeout)] = []) \/
  (a = Cancel /\
   status (_tasks w' t_shutdown_timeout) = Finished Cancelled /\
   errors_of [status (_tasks w' t_shutdown_timeout)] = [] /\
   unchanged_but t_shutdown_timeout w w').
Proof.
  intros R S.
  pose proof (reachable_invariant _ R) as I.
  pose proof (reachable_gather _ _ _ _ S) as M.
  unfold Invariant in I. rewrite M in I.
  unfold step in S. rewrite M in S.
  unfold resume in S.
  destruct (status (_tasks w t_shutdown_timeout)) as [|p|] eqn:Es;
    try discriminate.
  - destruct (forallb _ _); try discriminate.
    destruct (cancel_req (_tasks w t_shutdown_timeout)) eqn:Ec; destruct a;
      simpl in S; try discriminate; injection S as <-.
    + do 5 right. split; [reflexivity|].
      split; [reflexivity|]. split; [reflexivity|]. still t_shutdown_timeout.
    + left. split; [reflexivity|]. split; [reflexivity|].
      split; [reflexivity|]. still t_shutdown_timeout.
  - destruct (cancel_req (_tasks w t_shutdown_timeout)) eqn:Ec; destruct a;
      try discriminate; destruct p; simpl in S; try discriminate.
    + injection S as <-. do 5 right. split; [reflexivity|].
      split; [reflexivity|]. split; [reflexivity|]. still t_shutdown_timeout.
    + injection S as <-. do 5 right. split; [reflexivity|].
      split; [reflexivity|]. split; [reflexivity|]. still t_shutdown_timeout.
    + injection S as <-. do 5 right. split; [reflexivity|].
      split; [reflexivity|]. split; [reflexivity|]. still t_shutdown_timeout.
    + unfold await_booted in S.
      destruct (status (_tasks w t_wait_until_booted)) as [| |[|e|]] eqn:Ew;
        try discriminate; injection S as <-.
      * right. left. split; [reflexivity|]. split; [reflexivity|].
        split; [reflexivity|]. split; [reflexivity|]. still t_shutdown_timeout.
      * right. right. left. split; [reflexivity|]. split; [reflexivity|].
        split; [unfold failed; rewrite Ew; reflexivity|].
        split; [reflexivity|]. still t_shutdown_timeout.
      * right. right. left. split; [reflexivity|]. split; [reflexivity|].
        split; [unfold failed; rewrite Ew; reflexivity|].
        split; [reflexivity|]. still t_shutdown_timeout.
    + destruct (shutdown_request w) eqn:Q; try discriminate.
      injection S as <-. do 3 right. left.
      split; [reflexivity|]. split; [reflexivity|]. split; [reflexivity|].
      split; [reflexivity|]. still t_shutdown_timeout.
    + destruct (wake <=? now w)%nat eqn:L; try discriminate.
      apply Nat.leb_le in L. do 4 right. left. exists wake.
      assert (F : is_finished (_tasks w t_shutdown_timeout) = false)
        by (unfold is_finished; rewrite Es; reflexivity).
      assert (A : awaits_booted (_tasks w t_shutdown_timeout) = false)
        by (unfold awaits_booted; rewrite Es; reflexivity).
      assert (Hn : t_shutdown_timeout <> t_wait_until_booted) by discriminate.
      destruct (fired _ shutdown_timed_out_text w Hn F A)
        as (F1 & F2 & F3 & F4 & F5 & F6).
      assert (Sw : w' = settle t_shutdown_timeout
                         (_cancel_tasks [] (write_stderr shutdown_timed_out_text w),
                          Done Returned))
        by (injection S as <-; reflexivity).
      cbv zeta in F1, F2, F3, F4, F5, F6.
      rewrite <- Sw in F1, F2, F3, F4, F5, F6. clear S Sw.
      repeat split; auto.
      * destruct (is_finished (_tasks w t_run_vm)) eqn:Fr; auto.
        pose proof (inv_cleanup_st I Fr) as D.
        unfold doomed in D. rewrite F, Ec, A in D. discriminate.
      * rewrite F1. reflexivity.
Qed.

End Fire.

(** ** The log file *)

Lemma append_empty_r (s : string) : s ++ "" = s.
Proof.
  induction s as [|c s IH]; [reflexivity|].
  change (String c (s ++ "") = String c s). congruence.
Qed.

Lemma append_assoc (a b c : string) : (a ++ b) ++ c = a ++ (b ++ c).
Proof.
  induction a as [|x a IH]; [reflexivity|].
  change (String x ((a ++ b) ++ c) = String x (a ++ (b ++ c))). congruence.
Qed.

Lemma appends_refl w : appends w w.
Proof. exists "". rewrite append_empty_r. reflexivity. Qed.

Lemma appends_trans w1 w2 w3 : appends w1 w2 -> appends w2 w3 -> appends w1 w3.
Proof.
  intros [a A] [b B]. exists (a ++ b). rewrite B, A. apply append_assoc.
Qed.

Lemma appends_same w w' : log_file w' = log_file w -> appends w w'.
Proof.
  intros E. exists "". unfold file_content. rewrite E, append_empty_r.
  reflexivity.
Qed.

Lemma logged_file_appends line w0 w :
  log_file w0 = log_file w ->
  exists data,
    match logged_file line w0 with Some c => c | None => "" end
    = match log_file w with Some c => c | None => "" end ++ data.
Proof.
  intros E. unfold logged_file, file_content. rewrite E.
  destruct (_log_fd w0); [destruct (flush_log (cfg w0))|]; eauto.
  exists "". rewrite append_empty_r. reflexivity.
Qed.

Section Log.

Context {lib : PyLib}.

Lemma log_appends msg ts w : appends w (log msg ts w).
Proof.
  rewrite log_eq. unfold appends, file_content. simpl.
  apply logged_file_appends. reflexivity.
Qed.

Lemma flush_appends w : appends w (flush w).
Proof. unfold appends, flush, append_log_file, file_content. simpl. eauto. Qed.

Ltac appended :=
  unfold appends, file_content; unfold settle, clear_cancel; rewrite ?log_eq;
  simpl;
  first [ exists ""; rewrite append_empty_r; reflexivity
        | apply logged_file_appends; reflexivity
        | eexists; reflexivity ].

Lemma resume_appends n a w w' : resume n a w = Some w' -> appends w w'.
Proof.
  intros H.
  destruct n.
  3: { destruct (status (_tasks w t_progress)) eqn:Es;
         unfold resume in H; rewrite Es in H; try discriminate;
         [ destruct (forallb _ _); try discriminate |];
         destruct (cancel_req _) eqn:Ec; destruct a;
         cbn [coroutine _progress option_map] in H; try discriminate.
       all: try (destruct p; try discriminate).
       all: try (destruct (Nat.leb _ _); cbn [option_map] in H;
                 try discriminate).
       all: try (unfold progress_loop in H;
                 destruct (negb _); [destruct (_state w)|];
                 try destruct (negb _ && _)).
       all: injection H as <-; appended. }
  all: leaves H a Es Ec.
  all: prepare H.
  all: appended.
Qed.

Lemma run_end_appends w : appends w (_run_end w).
Proof.
  unfold _run_end.
  match goal with
  | |- context [match ?x with [] => _ | _ => _ end] => destruct x
  end.
  - apply appends_trans with (log (repr w) true w); [apply log_appends|].
    apply appends_trans with (flush (log (repr w) true w));
      [apply flush_appends|]. apply appends_same. reflexivity.
  - apply appends_trans with (log (repr w) true w); [apply log_appends|].
    match goal with
    | |- appends ?v (with_main _ (with_log_fd _ (flush ?u))) =>
        apply appends_trans with u; [apply log_appends|];
        apply appends_trans with (flush u); [apply flush_appends|];
        apply appends_same; reflexivity
    end.
Qed.

(** Whatever happens after the call only adds text at the end of the log
    file. *)
Lemma step_appends w e w' : step w e = Some w' -> e <> Call -> appends w w'.
Proof.
  unfold step. intros S C.
  destruct e; try congruence;
    destruct (main w) eqn:M; try discriminate;
    try (destruct (is_started _); try discriminate);
    try (destruct (_log_fd w) eqn:Fd; try discriminate);
    try (destruct (all_finished w) eqn:A; try discriminate);
    try (eapply resume_appends; eassumption);
    injection S as <-.
  all: try (apply run_end_appends).
  all: try (apply flush_appends).
  all: try (apply appends_same; reflexivity).
  all: unfold appends, append_log_file; eexists; reflexivity.
Qed.

Lemma run_appends evs : forall w w',
  run w evs = Some w' -> main w <> M_init -> appends w w'.
Proof.
  induction evs as [|e evs IH]; intros w w' H M; simpl in H.
  - injection H as <-. apply appends_refl.
  - destruct (step w e) as [w1|] eqn:S; try discriminate.
    assert (C : e <> Call).
    { intros ->. apply call_frame in S. destruct S as (X & _). contradiction. }
    apply appends_trans with w1.
    + eapply step_appends; eassumption.
    + eapply IH; [exact H|]. eapply main_after_init; eassumption.
Qed.

(** What the call leaves in the log: what is kept of the old file, then
    the empty line and the line Starting event loop. *)
Lemma log_after_call c old_log can_unlink :
  _log_fd (_run_begin (init c old_log can_unlink)) = true /\
  main (_run_begin (init c old_log can_unlink)) <> M_init /\
  file_content (_run_begin (init c old_log can_unlink))
  ++ log_buf (_run_begin (init c old_log can_unlink))
  = kept_log old_log can_unlink
    ++ nl ++ log_line "Starting event loop" true
               (_run_begin (init c old_log can_unlink)) /\
  exists data,
    file_content (_run_begin (init c old_log can_unlink))
    = kept_log old_log can_unlink ++ data.
Proof.
  split; [rewrite run_begin_eq, !log_eq, log_context_eq; simpl; reflexivity|].
  split; [rewrite run_begin_eq; simpl; discriminate|].
  destruct c as [di me po fl qs].
  assert (K : forall s : string, s ++ "" = s) by apply append_empty_r.
  destruct old_log as [old|]; [destruct can_unlink|]; destruct fl;
    unfold kept_log; cbv - [String.append strftime]; split;
    rewrite ?K; try reflexivity; try (eexists; reflexivity).
  all: try (rewrite append_assoc; reflexivity).
  all: try (exists ""; rewrite K; reflexivity).
  all: rewrite append_assoc; eexists; reflexivity.
Qed.

(** C10 (amended): [_run] ignores every OSError of the removal of the old
    log file. If the file can be removed or there is none, the run is the
    one that starts in a directory without a log file; if it cannot be
    removed, all of its text is kept. In every case, right after the call
    the file and the open handle's buffer hold what is kept of the old file
    followed by the empty line and the line Starting event loop that the
    call itself wrote; every later step leaves the file as it was or adds
    text at its end; and at the end of the run what is kept of the old file
    is still at the head of the log. *)
Theorem log_of_this_run c old_log can_unlink evs w :
  run (init c old_log can_unlink) (Call :: evs) = Some w ->
  ((can_unlink = true \/ old_log = None) ->
   kept_log old_log can_unlink = "" /\
   run (init c None can_unlink) (Call :: evs) = Some w) /\
  (forall old, old_log = Some old -> can_unlink = false ->
   kept_log old_log can_unlink = old) /\
  (exists w1,
     step (init c old_log can_unlink) Call = Some w1 /\
     run w1 evs = Some w /\
     _log_fd w1 = true /\
     file_content w1 ++ log_buf w1
     = kept_log old_log can_unlink
       ++ nl ++ log_line "Starting event loop" true w1 /\
     appends w1 w /\
     forall pre post v e v',
       evs = (pre ++ e :: post)%list -> run w1 pre = Some v ->
       step v e = Some v' -> appends v v') /\
  (exists data, file_content w = kept_log old_log can_unlink ++ data).
Proof.
  intros H.
  destruct (log_after_call c old_log can_unlink) as (Fd & M & Ct & (d1 & Hd)).
  cbn [run] in H. unfold step in H. cbn [init main] in H.
  assert (A : appends (_run_begin (init c old_log can_unlink)) w)
    by (eapply run_appends; eassumption).
  split.
  { intros Hc.
    assert (E : _run_begin (init c old_log can_unlink)
                = _run_begin (init c None can_unlink)).
    { destruct Hc as [->| ->]; [|reflexivity]. destruct old_log; reflexivity. }
    split.
    - unfold kept_log. destruct Hc as [->| ->]; [|reflexivity].
      destruct old_log; reflexivity.
    - cbn [run]. unfold step. cbn [init main]. rewrite <- E. exact H. }
  split; [intros old -> ->; reflexivity|].
  split.
  { exists (_run_begin (init c old_log can_unlink)).
    split; [reflexivity|]. split; [exact H|]. split; [exact Fd|].
    split; [exact Ct|]. split; [exact A|].
    intros pre post v e v' -> Hpre S.
    eapply step_appends; [exact S|].
    intros ->. apply call_frame in S. destruct S as (X & _).
    revert Hpre M X. generalize (_run_begin (init c old_log can_unlink)).
    clear. induction pre as [|e pre IH]; intros w0 Hpre M X; simpl in Hpre.
    - injection Hpre as ->. contradiction.
    - destruct (step w0 e) as [w1|] eqn:S; try discriminate.
      eapply IH; [exact Hpre| |exact X]. eapply main_after_init; eassumption. }
  destruct A as [d2 A]. exists (d1 ++ d2).
  rewrite A, Hd. apply append_assoc.
Qed.

End Log.

(** The connection attempt of the probe ends in an OSError that is not a
    ConnectionError: the exception leaves the task, which is not resumed. *)
Lemma probe_exception_escapes :
  reachable (lib := demo_lib)
    (after (probing ++ [Resume t_wait_until_booted (Error OSError)])) /\
  _state (after probing) = "booting" /\
  status (_tasks (after (probing ++ [Resume t_wait_until_booted (Error OSError)]))
            t_wait_until_booted) = Finished (Raised OSError) /\
  (forall a,
     step (lib := demo_lib)
       (after (probing ++ [Resume t_wait_until_booted (Error OSError)]))
       (Resume t_wait_until_booted a) = None) /\
  ~ (forall w, reachable (lib := demo_lib) w ->
     forall e, status (_tasks w t_wait_until_booted) <> Finished (Raised e)).
Proof.
  assert (R : reachable (lib := demo_lib)
                (after (probing ++ [Resume t_wait_until_booted (Error OSError)]))).
  { exists demo_cfg, None, true,
      (probing ++ [Resume t_wait_until_booted (Error OSError)])%list.
    vm_compute. reflexivity. }
  assert (E : status (_tasks (after (probing
                 ++ [Resume t_wait_until_booted (Error OSError)]))
                 t_wait_until_booted) = Finished (Raised OSError))
    by (vm_compute; reflexivity).
  split; [exact R|]. split; [vm_compute; reflexivity|]. split; [exact E|].
  split.
  - intros a. destruct a; vm_compute; reflexivity.
  - intros H. exact (H _ R OSError E).
Qed.

Lemma probe_retries_witness :
  reachable (lib := demo_lib)
    (after (probing ++ [Resume t_wait_until_booted Connected])) /\
  step (lib := demo_lib)
    (after (probing ++ [Resume t_wait_until_booted Connected]))
    (Resume t_wait_until_booted (Line ssh_banner))
  = Some (after booted) /\
  _state (after booted) = "running" /\
  doomed (_tasks (after booted)) t_boot_timeout = true.
Proof.
  assert (R : reachable (lib := demo_lib)
                (after (probing ++ [Resume t_wait_until_booted Connected]))).
  { exists demo_cfg, None, true,
      (probing ++ [Resume t_wait_until_booted Connected])%list.
    vm_compute. reflexivity. }
  assert (S : step (lib := demo_lib)
                (after (probing ++ [Resume t_wait_until_booted Connected]))
                (Resume t_wait_until_booted (Line ssh_banner))
              = Some (after booted)) by (vm_compute; reflexivity).
  split; [exact R|]. split; [exact S|].
  destruct (probe_retries _ _ _ R S) as (_ & _ & _ & _ & T & _).
  destruct (T ssh_banner eq_refl eq_refl) as (T1 & T2 & _).
  split; assumption.
Defined.


Lemma shutdown_watchdog_witness :
  reachable (lib := demo_lib) (after shutdown_overdue) /\
  step (lib := demo_lib) (after shutdown_overdue) (Resume t_shutdown_timeout Go)
  = Some (after (shutdown_overdue ++ [Resume t_shutdown_timeout Go])) /\
  stderr (after (shutdown_overdue ++ [Resume t_shutdown_timeout Go]))
  = (stderr (after shutdown_overdue) ++ [shutdown_timed_out_text])%list /\
  all_doomed (after (shutdown_overdue ++ [Resume t_shutdown_timeout Go])).
Proof.
  assert (R : reachable (lib := demo_lib) (after shutdown_overdue)).
  { exists demo_cfg, None, true, shutdown_overdue. vm_compute. reflexivity. }
  assert (S : step (lib := demo_lib) (after shutdown_overdue)
                (Resume t_shutdown_timeout Go)
              = Some (after (shutdown_overdue ++ [Resume t_shutdown_timeout Go])))
    by (vm_compute; reflexivity).
  split; [exact R|]. split; [exact S|].
  destruct (shutdown_watchdog _ _ _ R S)
    as [(_ & E & _)
       |[(_ & E & _)
        |[(_ & E & _)
         |[(_ & E & _)
          |[(k & _ & _ & _ & _ & _ & E & D & _)|(E & _)]]]]].
  - vm_compute in E. discriminate E.
  - vm_compute in E. discriminate E.
  - vm_compute in E. discriminate E.
  - vm_compute in E. discriminate E.
  - split; assumption.
  - discriminate E.
Defined.

(** The old log file cannot be removed (the directory is not writable, say)
    but can be opened for appending: the run keeps its text. *)
Lemma stale_log_survives :
  exists w,
    run (lib := demo_lib) (init demo_cfg (Some "yesterday") false) scenario_A
    = Some w /\
    main w = M_done /\
    String.prefix "yesterday" (file_content w) = true /\
    contains "yesterday" (file_content (after scenario_A)) = false /\
    ~ (forall c old_log can_unlink evs v v0,
         run (lib := demo_lib) (init c old_log can_unlink) evs = Some v ->
         run (lib := demo_lib) (init c None can_unlink) evs = Some v0 ->
         file_content v = file_content v0).
Proof.
  eexists. split; [vm_compute; reflexivity|].
  split; [reflexivity|]. split; [vm_compute; reflexivity|].
  split; [vm_compute; reflexivity|].
  intros H.
  specialize (H demo_cfg (Some "yesterday") false [Call] _ _ eq_refl eq_refl).
  vm_compute in H. discriminate H.
Qed.

Lemma log_of_this_run_witness :
  (true = true \/ Some "yesterday" = @None string) /\
  run (lib := demo_lib) (init demo_cfg (Some "yesterday") true)
    (Call :: tl scenario_A) = Some (after scenario_A) /\
  run (lib := demo_lib) (init demo_cfg None true) (Call :: tl scenario_A)
  = Some (after scenario_A).
Proof.
  assert (H : run (lib := demo_lib) (init demo_cfg (Some "yesterday") true)
                (Call :: tl scenario_A) = Some (after scenario_A))
    by (vm_compute; reflexivity).
  split; [left; reflexivity|]. split; [exact H|].
  exact (proj2 (proj1 (log_of_this_run (lib := demo_lib) _ _ _ _ _ H)
                  (or_introl eq_refl))).
Defined.

(** ** The state setter *)

(** The setter of [state] accepts exactly the four states of [states]: it
    then changes the state and nothing else; for any other string it raises
    ValueError. *)
Theorem state_setter_accepts s w :
  (In s states ->
   state_setter s w = Ok (with_state s w) /\
   forall k, assign_state s w k = k (with_state s w)) /\
  (~ In s states ->
   state_setter s w = Raise ValueError /\
   forall k, assign_state s w k = (w, Done (Raised ValueError))) /\
  (forall w', state_setter s w = Ok w' ->
     _state w' = s /\ In (_state w') states /\ _tasks w' = _tasks w /\
     exit_status w' = exit_status w /\ log_file w' = log_file w).
Proof.
  unfold assign_state, state_setter.
  destruct (existsb (String.eqb s) states) eqn:E.
  - apply existsb_exists in E. destruct E as (x & Hx & Ex).
    apply String.eqb_eq in Ex. subst x.
    split; [auto|]. split; [intros N; contradiction|].
    intros w' H. injection H as <-. simpl. auto.
  - split; [|split; [auto|intros w' H; discriminate]].
    intros Hs. exfalso.
    assert (X : existsb (String.eqb s) states = true).
    { apply existsb_exists. exists s. split; [exact Hs|apply String.eqb_refl]. }
    congruence.
Qed.

(** ** What the tasks write where *)

Section Streams.

Context {lib : PyLib}.

(** Only [_progress] prints, only [_run_vm] sets the pid. *)
Lemma resume_io n a w w' :
  resume n a w = Some w' ->
  match n with t_progress => True | _ => stdout w' = stdout w end /\
  match n with t_run_vm => True | _ => pid w' = pid w end.
Proof.
  intros H.
  destruct n.
  3: { destruct (status (_tasks w t_progress)) eqn:Es;
         unfold resume in H; rewrite Es in H; try discriminate;
         [ destruct (forallb _ _); try discriminate |];
         destruct (cancel_req _) eqn:Ec; destruct a;
         cbn [coroutine _progress option_map] in H; try discriminate.
       all: try (destruct p; try discriminate).
       all: try (destruct (Nat.leb _ _); cbn [option_map] in H;
                 try discriminate).
       all: try (unfold progress_loop in H;
                 destruct (negb _); [destruct (_state w)|];
                 try destruct (negb _ && _)).
       all: injection H as <-; unfold settle, clear_cancel; rewrite ?log_eq;
         simpl; auto. }
  all: leaves H a Es Ec.
  all: prepare H.
  all: unfold settle, clear_cancel; rewrite ?log_eq; simpl; auto.
Qed.

Lemma step_io w e w' :
  step w e = Some w' -> (forall n a, e <> Resume n a) ->
  stdout w' = stdout w /\ pid w' = pid w /\
  (main w <> M_init ->
   shutdown_request w' = shutdown_request w || is_sigint e).
Proof.
  unfold step. intros S N.
  destruct e; try (exfalso; eapply N; reflexivity);
    destruct (main w) eqn:M; try discriminate;
    try (destruct (is_started _); try discriminate);
    try (destruct (_log_fd w) eqn:Fd; try discriminate);
    try (destruct (all_finished w) eqn:A; try discriminate);
    injection S as <-.
  all: try (rewrite run_begin_eq, !log_eq, log_context_eq, remove_log_eq;
            simpl; repeat split; auto; intros; contradiction).
  all: try (simpl; rewrite ?orb_false_r, ?orb_true_r; repeat split; auto;
            intros; congruence).
  all: unfold _run_end;
    match goal with
    | |- context [match ?x with [] => _ | _ => _ end] => destruct x
    end; rewrite ?log_eq; simpl; rewrite ?orb_false_r; auto.
Qed.

End Streams.

(** ** The progress reporter *)

Section Progress.

Context {lib : PyLib}.

Lemma progress_loop_spec shown w :
  In (_state w) states ->
  (_state w = "off" /\ progress_loop shown w = (w, Done Returned)) \/
  (_state w <> "off" /\
   exists w1,
     progress_loop shown w
     = (w1, Suspend (PR_sleep (now w + 1) (shown || shutdown_request w))) /\
     stdout w1 = (stdout w ++ String.substring 0 1 (_state w)
                    :: (if negb shown && shutdown_request w
                        then [announce] else []))%list /\
     stderr w1 = stderr w /\ pid w1 = pid w /\
     appends w w1).
Proof.
  intros Hs. unfold progress_loop.
  simpl in Hs. destruct Hs as [E|[E|[E|[E|[]]]]]; rewrite <- E; simpl.
  - left. auto.
  - right. split; [discriminate|].
    destruct shown, (shutdown_request w); simpl; eexists;
      (split; [reflexivity|]); rewrite ?log_eq; simpl;
      repeat split; try reflexivity;
        first [ apply appends_refl
              | apply appends_same; reflexivity
              | rewrite <- app_assoc; reflexivity
              | unfold appends, file_content; simpl;
                apply logged_file_appends; reflexivity ].
  - right. split; [discriminate|].
    destruct shown, (shutdown_request w); simpl; eexists;
      (split; [reflexivity|]); rewrite ?log_eq; simpl;
      repeat split; try reflexivity;
        first [ apply appends_refl
              | apply appends_same; reflexivity
              | rewrite <- app_assoc; reflexivity
              | unfold appends, file_content; simpl;
                apply logged_file_appends; reflexivity ].
  - right. split; [discriminate|].
    destruct shown, (shutdown_request w); simpl; eexists;
      (split; [reflexivity|]); rewrite ?log_eq; simpl;
      repeat split; try reflexivity;
        first [ apply appends_refl
              | apply appends_same; reflexivity
              | rewrite <- app_assoc; reflexivity
              | unfold appends, file_content; simpl;
                apply logged_file_appends; reflexivity ].
Qed.

Lemma progress_step w a w' :
  Inv w ->
  resume t_progress a w = Some w' ->
  (_state w' = _state w /\
   (forall m, m <> t_progress -> _tasks w' m = _tasks w m) /\
   _qmp_established w' = _qmp_established w /\ qmp_sent w' = qmp_sent w /\
   exit_status w' = exit_status w /\ mem_err w' = mem_err w /\
   stderr w' = stderr w /\ pid w' = pid w) /\
  (forall e, status (_tasks w' t_progress) <> Finished (Raised e)) /\
  ((a = Cancel /\ status (_tasks w' t_progress) = Finished Cancelled /\
    stdout w' = stdout w) \/
   (a = Go /\ _state w = "off" /\
    status (_tasks w' t_progress) = Finished Returned /\
    stdout w' = stdout w) \/
   (a = Go /\ _state w <> "off" /\
    status (_tasks w' t_progress)
    = At (PR_sleep (now w + 1)
            (shown_of (status (_tasks w t_progress)) || shutdown_request w)) /\
    stdout w'
    = (stdout w ++ String.substring 0 1 (_state w)
         :: (if negb (shown_of (status (_tasks w t_progress)))
                && shutdown_request w
             then [announce] else []))%list)).
Proof.
  intros I S.
  pose proof (inv_state I) as Hs.
  unfold resume in S.
  assert (U : forall t' w1 m, m <> t_progress ->
              upd t_progress t' (_tasks w1) m = _tasks w1 m)
    by (intros; apply upd_other; assumption).
  destruct (status (_tasks w t_progress)) as [|p|] eqn:Es; try discriminate.
  - destruct (forallb _ _); try discriminate.
    destruct (cancel_req (_tasks w t_progress)) eqn:Ec; destruct a;
      try discriminate; cbn [coroutine _progress option_map] in S.
    + injection S as <-. unfold settle. cbn [fst snd].
      split; [repeat split; try reflexivity; intros m Hm; apply U; exact Hm|].
      cbn [_tasks with_tasks]. rewrite upd_same. cbn [status].
      split; [discriminate|]. left. auto.
    + destruct (progress_loop_spec false w Hs)
        as [(E & L)|(E & w1 & L & O & E1 & E2 & _)];
        rewrite L in S; injection S as <-;
        pose proof (progress_loop_frame _ _ _ _ L) as (F1 & F2 & F3 & F4 & F5 & F6);
        unfold settle; cbn [_tasks with_tasks stdout stderr pid _state
                            _qmp_established qmp_sent exit_status mem_err];
        rewrite upd_same, ?F2, ?Ec; cbn [status shown_of orb negb andb].
      * split; [repeat split; try reflexivity; intros m Hm; apply U; exact Hm|].
        split; [discriminate|]. right. left. auto.
      * split; [repeat split; auto; intros m Hm;
                rewrite U by exact Hm; rewrite F2; reflexivity|].
        split; [discriminate|]. right. right. auto.
  - destruct (cancel_req (_tasks w t_progress)) eqn:Ec; destruct a;
      try discriminate; destruct p; try discriminate;
      cbn [coroutine _progress option_map] in S.
    + injection S as <-. unfold settle, clear_cancel.
      cbn [_tasks with_tasks stdout stderr pid _state
           _qmp_established qmp_sent exit_status mem_err].
      rewrite upd_same. cbn [status].
      split; [repeat split; try reflexivity; intros m Hm;
              rewrite !upd_other by exact Hm; reflexivity|].
      split; [discriminate|]. left. auto.
    + destruct (wake <=? now w)%nat; try discriminate.
      cbn [option_map] in S.
      destruct (progress_loop_spec shown w Hs)
        as [(E & L)|(E & w1 & L & O & E1 & E2 & _)];
        rewrite L in S; injection S as <-;
        pose proof (progress_loop_frame _ _ _ _ L) as (F1 & F2 & F3 & F4 & F5 & F6);
        unfold settle; cbn [_tasks with_tasks stdout stderr pid _state
                            _qmp_established qmp_sent exit_status mem_err];
        rewrite upd_same, ?F2, ?Ec; cbn [status shown_of].
      * split; [repeat split; try reflexivity; intros m Hm; apply U; exact Hm|].
        split; [discriminate|]. right. left. auto.
      * split; [repeat split; auto; intros m Hm;
                rewrite U by exact Hm; rewrite F2; reflexivity|].
        split; [discriminate|]. right. right. auto.
Qed.

(** A step of [_progress] in a reachable state: it never ends by an
    exception; it changes neither the state, nor another task, nor the QMP
    flag and traffic, nor the exit status, nor the standard error stream.
    Resumed after its sleep (or started), it returns if the state is off,
    and otherwise prints the first character of the state, followed, the
    first time it finds the shutdown request set, by the line Shutdown
    requested, and sleeps for one second. Cancelled, it prints nothing. *)
Theorem progress_reports w a w' :
  reachable w ->
  step w (Resume t_progress a) = Some w' ->
  (_state w' = _state w /\
   (forall m, m <> t_progress -> _tasks w' m = _tasks w m) /\
   _qmp_established w' = _qmp_established w /\ qmp_sent w' = qmp_sent w /\
   exit_status w' = exit_status w /\ mem_err w' = mem_err w /\
   stderr w' = stderr w /\ pid w' = pid w) /\
  (forall e, status (_tasks w' t_progress) <> Finished (Raised e)) /\
  ((a = Cancel /\ status (_tasks w' t_progress) = Finished Cancelled /\
    stdout w' = stdout w) \/
   (a = Go /\ _state w = "off" /\
    status (_tasks w' t_progress) = Finished Returned /\
    stdout w' = stdout w) \/
   (a = Go /\ _state w <> "off" /\
    status (_tasks w' t_progress)
    = At (PR_sleep (now w + 1)
            (shown_of (status (_tasks w t_progress)) || shutdown_request w)) /\
    stdout w'
    = (stdout w ++ String.substring 0 1 (_state w)
         :: (if negb (shown_of (status (_tasks w t_progress)))
                && shutdown_request w
             then [announce] else []))%list)).
Proof.
  intros R S.
  pose proof (reachable_invariant _ R) as I.
  pose proof (reachable_gather _ _ _ _ S) as M.
  unfold Invariant in I. rewrite M in I.
  unfold step in S. rewrite M in S.
  exact (progress_step _ _ _ I S).
Qed.


End Progress.

Section Announce.

Context {lib : PyLib}.

Lemma first_char_not_announce s : String.substring 0 1 s <> announce.
Proof.
  destruct s as [|c [|d s]]; simpl; discriminate.
Qed.

Lemma announced_app w l :
  count_occ string_dec (stdout w ++ l) announce
  = announced w + count_occ string_dec l announce.
Proof. unfold announced. apply count_occ_app. Qed.

Lemma step_announce w e w' :
  Invariant w -> announce_inv w -> step w e = Some w' -> announce_inv w'.
Proof.
  intros I (Q1 & Q2 & Q3 & Q4) S.
  destruct (event_cases e) as [->|[(n & a & ->)|[C N]]].
  - destruct (step_io _ _ _ S) as (O & _); [intros; discriminate|].
    apply call_frame in S. destruct S as (M & M' & _ & T & _).
    unfold announce_inv, announced in *. rewrite O, M', T.
    specialize (Q2 M). rewrite Q2.
    repeat split; try lia; intros; try discriminate; reflexivity.
  - pose proof (reachable_gather _ _ _ _ S) as M.
    unfold Invariant in I. rewrite M in I.
    unfold step in S. rewrite M in S.
    destruct (resume_env _ _ _ _ S) as (M' & _ & _ & _ & _ & Rq).
    destruct (task_name_dec n t_progress) as [->|Dn].
    + apply resume_not_finished in S as NF.
      destruct (progress_step _ _ _ I S)
        as (_ & _ & [(_ & E & O)|[(_ & _ & E & O)|(_ & _ & E & O)]]).
      * unfold announce_inv, announced, is_finished in *.
        rewrite O, E, M', M, Rq.
        repeat split; auto; intros; discriminate.
      * unfold announce_inv, announced, is_finished in *.
        rewrite O, E, M', M, Rq.
        repeat split; auto; intros; discriminate.
      * unfold announce_inv. unfold announced at 1 2 3 4.
        rewrite O, E, M', M, Rq, announced_app. cbn [count_occ].
        destruct (string_dec (String.substring 0 1 (_state w)) announce)
          as [X|_]; [exfalso; exact (first_char_not_announce _ X)|].
        unfold is_finished. cbn [status shown_of].
        destruct (shown_of (status (_tasks w t_progress))) eqn:Sh;
          destruct (shutdown_request w) eqn:Rw; cbn [negb andb orb count_occ];
          try (destruct (string_dec announce announce) as [_|X];
               [|exfalso; apply X; reflexivity]);
          try specialize (Q3 NF eq_refl);
          repeat split; intros; try discriminate; try lia; auto.
    + assert (Dn' : t_progress <> n) by congruence.
      destruct (resume_others _ _ _ _ S _ Dn') as [X _].
      pose proof (resume_io _ _ _ _ S) as [O _].
      assert (O' : stdout w' = stdout w) by (destruct n; auto; contradiction).
      unfold announce_inv, announced, is_finished in *.
      rewrite O', X, M', M, Rq. repeat split; auto. intros; discriminate.
  - destruct (step_frame _ _ _ S C N) as (_ & T & _ & Mn).
    destruct (step_io _ _ _ S N) as (O & _ & Rq).
    unfold announce_inv, announced in *. rewrite O, T.
    repeat split; auto.
    + intros M'. apply Q2. destruct Mn as [<-|(_ & _ & X)]; congruence.
    + intros P. destruct (main w) eqn:M.
      * rewrite (Q2 eq_refl) in P. lia.
      * rewrite Rq by discriminate. rewrite (Q4 P). reflexivity.
      * rewrite Rq by discriminate. rewrite (Q4 P). reflexivity.
Qed.

(** In every reachable state [_progress] has printed the line Shutdown
    requested at most once, and only if the shutdown request is set. *)
Theorem shutdown_announced_once w :
  reachable w ->
  announced w <= 1 /\ (announced w = 1 -> shutdown_request w = true).
Proof.
  intros (c & o & u & evs & H).
  assert (Q : announce_inv w).
  { eapply (run_preserves announce_inv step_announce); [| |exact H].
    - apply init_invariant.
    - unfold announce_inv, announced. simpl. repeat split; auto; lia. }
  destruct Q as (Q1 & _ & _ & Q4). split; [exact Q1|].
  intros E. apply Q4. lia.
Qed.

(** Nothing clears the shutdown request while [_run] is under way: after a
    run of events it is set exactly if it was set before or SIGINT was among
    the events. *)
Theorem request_is_kept evs : forall w w',
  main w <> M_init ->
  run w evs = Some w' ->
  shutdown_request w' = shutdown_request w || existsb is_sigint evs.
Proof.
  induction evs as [|e evs IH]; intros w w' M H; simpl in H.
  - injection H as <-. simpl. rewrite orb_false_r. reflexivity.
  - destruct (step w e) as [w1|] eqn:S; try discriminate.
    pose proof (main_after_init _ _ _ S M) as M1.
    rewrite (IH _ _ M1 H). cbn [existsb]. rewrite orb_assoc. f_equal.
    destruct (event_cases e) as [->|[(n & a & ->)|[C N]]].
    + apply call_frame in S. destruct S as (X & _). contradiction.
    + pose proof (reachable_gather _ _ _ _ S) as G.
      unfold step in S. rewrite G in S.
      destruct (resume_env _ _ _ _ S) as (_ & _ & _ & _ & _ & Rq).
      rewrite Rq. simpl. rewrite orb_false_r. reflexivity.
    + destruct (step_io _ _ _ S N) as (_ & _ & Rq). apply Rq. exact M.
Qed.

End Announce.

(** ** The end of [_run] *)

Section Gather.

Context {lib : PyLib}.

Lemma errors_of_nil rs :
  errors_of rs = [] <-> forall e, ~ In (Finished (Raised e)) rs.
Proof.
  induction rs as [|r rs IH]; simpl.
  - split; auto.
  - destruct r as [|p|[|e|]]; simpl; rewrite ?IH.
    all: try (split; [intros H e [X|X]; [discriminate|exact (H e X)]
                     |intros H e X; apply (H e); auto]).
    split; [discriminate|]. intros H. exfalso. apply (H e). auto.
Qed.

Lemma errors_of_some rs :
  errors_of rs <> [] -> exists e, In (Finished (Raised e)) rs.
Proof.
  induction rs as [|r rs IH]; simpl; [congruence|].
  destruct r as [|p|[|e|]]; simpl; intros H;
    try (destruct (IH H) as [e0 X]; eauto; fail).
  eauto.
Qed.

Lemma errors_of_retvals w :
  errors_of (retvals w) = [] <-> ~ some_task_raised w.
Proof.
  rewrite errors_of_nil. unfold retvals, some_task_raised. split.
  - intros H (name & e & E). apply (H e). rewrite <- E.
    apply (in_map (fun name => status (_tasks w name)) task_order name).
    destruct name; simpl; auto 10.
  - intros H e X. apply in_map_iff in X. destruct X as (name & E & _).
    apply H. exists name, e. exact E.
Qed.

Lemma errors_of_flat_map rs : errors_of rs = flat_map raised_report rs.
Proof. reflexivity. Qed.

(** The list of errors that [_run] logs is empty exactly if no task ended
    with an exception. It is made of what the six tasks contribute, in the
    order in which the tasks were created: a task that raised contributes a
    newline and its formatted traceback, any other task (one that returned
    or was cancelled) nothing; so the report of every task that raised is
    part of the list. *)
Theorem error_report w :
  (errors_of (retvals w) = [] <-> ~ some_task_raised w) /\
  errors_of (retvals w)
  = (raised_report (status (_tasks w t_run_vm))
     ++ raised_report (status (_tasks w t_wait_until_booted))
     ++ raised_report (status (_tasks w t_progress))
     ++ raised_report (status (_tasks w t_boot_timeout))
     ++ raised_report (status (_tasks w t_shut_down))
     ++ raised_report (status (_tasks w t_shutdown_timeout)))%list /\
  (forall name e, status (_tasks w name) = Finished (Raised e) ->
     raised_report (status (_tasks w name)) = nl :: format_exception e) /\
  (forall name, (forall e, status (_tasks w name) <> Finished (Raised e)) ->
     raised_report (status (_tasks w name)) = []) /\
  (forall name e, status (_tasks w name) = Finished (Raised e) ->
     exists before after,
       errors_of (retvals w)
       = (before ++ (nl :: format_exception e) ++ after)%list).
Proof.
  split; [apply errors_of_retvals|].
  split; [unfold retvals, errors_of, raised_report; simpl;
          rewrite app_nil_r; reflexivity|].
  split; [intros name e E; rewrite E; reflexivity|].
  split.
  { intros name N. destruct (status (_tasks w name)) as [|p|[|e|]];
      try reflexivity. exfalso. apply (N e). reflexivity. }
  intros name e E.
  assert (I : In name task_order) by (destruct name; simpl; auto 10).
  apply in_split in I. destruct I as (l1 & l2 & I).
  exists (flat_map raised_report
            (map (fun n => status (_tasks w n)) l1)),
         (flat_map raised_report
            (map (fun n => status (_tasks w n)) l2)).
  rewrite errors_of_flat_map. unfold retvals. rewrite I.
  rewrite map_app, flat_map_app. cbn [map flat_map]. rewrite E.
  reflexivity.
Qed.

Lemma step_handle w e w' :
  Invariant w -> handle_inv w -> step w e = Some w' -> handle_inv w'.
Proof.
  intros _ (H1 & H2) S.
  destruct (event_cases e) as [->|[(n & a & ->)|[C N]]].
  - unfold step in S. destruct (main w) eqn:M; try discriminate.
    injection S as <-.
    rewrite run_begin_eq, !log_eq, log_context_eq, remove_log_eq.
    unfold handle_inv. simpl. split; [tauto|discriminate].
  - pose proof (reachable_gather _ _ _ _ S) as M.
    unfold step in S. rewrite M in S.
    destruct (resume_env _ _ _ _ S) as (M' & _ & _ & F & _).
    unfold handle_inv. rewrite M', F, M.
    assert (X : _log_fd w = true) by tauto.
    split; [tauto|]. rewrite X. discriminate.
  - unfold step in S.
    destruct e; try congruence; try (exfalso; eapply N; reflexivity);
      destruct (main w) eqn:M; try discriminate;
      try (destruct (is_started _); try discriminate);
      try (destruct (_log_fd w) eqn:Fd; try discriminate);
      try (destruct (all_finished w) eqn:A; try discriminate);
      injection S as <-; unfold handle_inv in *; simpl;
      rewrite ?M, ?Fd in *.
    all: try (split; [tauto|auto; fail]).
    all: try (split; [split; intros; try discriminate; tauto|reflexivity]).
    all: try (split; [tauto|intros; discriminate]).
    all: unfold _run_end;
      match goal with
      | |- context [match ?x with [] => _ | _ => _ end] => destruct x
      end; rewrite ?log_eq; simpl;
      (split; [split; discriminate|reflexivity]).
Qed.

Lemma reachable_handle w : reachable w -> handle_inv w.
Proof.
  intros (c & o & u & evs & H).
  eapply (run_preserves handle_inv step_handle); [| |exact H].
  - apply init_invariant.
  - unfold handle_inv. simpl. split; [split; discriminate|reflexivity].
Qed.

(** Whatever [log] writes ends up, in order, behind the text that is in the
    file or in the open handle's buffer; [log] leaves the handle as it found
    it: open if [_run] holds it open, closed again otherwise. With the
    handle closed the line is in the file at once. With the handle open the
    file is only ever added to; with [flush_log] nothing stays buffered, and
    whenever the handle writes its buffer out after the call, the file holds
    all that was pending followed by the line. *)
Theorem log_adds_line msg time_stamp w :
  reachable w ->
  pending (log msg time_stamp w) = pending w ++ log_line msg time_stamp w /\
  _log_fd (log msg time_stamp w) = _log_fd w /\
  (_log_fd w = false ->
   file_content (log msg time_stamp w)
   = file_content w ++ log_line msg time_stamp w) /\
  appends w (log msg time_stamp w) /\
  (flush_log (cfg w) = true ->
   log_buf (log msg time_stamp w) = "" /\
   file_content (log msg time_stamp w)
   = pending w ++ log_line msg time_stamp w) /\
  (forall w', step (log msg time_stamp w) LogFlush = Some w' ->
     log_buf w' = "" /\
     file_content w' = pending w ++ log_line msg time_stamp w).
Proof.
  intros R. destruct (reachable_handle _ R) as (_ & H2).
  assert (P : pending (log msg time_stamp w)
              = pending w ++ log_line msg time_stamp w /\
              _log_fd (log msg time_stamp w) = _log_fd w /\
              (_log_fd w = false ->
               file_content (log msg time_stamp w)
               = file_content w ++ log_line msg time_stamp w) /\
              (flush_log (cfg w) = true ->
               log_buf (log msg time_stamp w) = "")).
  { rewrite log_eq. unfold pending, file_content, logged_buf, logged_file.
    simpl. generalize (log_line msg time_stamp w). intros line.
    destruct (_log_fd w) eqn:Fd.
    - destruct (flush_log (cfg w)) eqn:Fl; simpl.
      + rewrite append_empty_r. unfold file_content.
        repeat split; auto; try discriminate. apply eq_sym, append_assoc.
      + repeat split; auto; try discriminate. apply eq_sym, append_assoc.
    - rewrite (H2 eq_refl). simpl. unfold file_content.
      rewrite !append_empty_r. repeat split; auto; try discriminate. }
  destruct P as (P1 & P2 & P3 & P4).
  split; [exact P1|]. split; [exact P2|]. split; [exact P3|].
  split; [apply log_appends|].
  split.
  - intros Fl. split; [exact (P4 Fl)|].
    rewrite <- P1. unfold pending. rewrite (P4 Fl), append_empty_r.
    reflexivity.
  - intros w' S. unfold step in S.
    assert (X : w' = flush (log msg time_stamp w)).
    { destruct (main (log msg time_stamp w));
        destruct (_log_fd (log msg time_stamp w)); try discriminate;
        injection S as <-; reflexivity. }
    rewrite X, <- P1. unfold flush, append_log_file, pending, file_content.
    simpl. split; reflexivity.
Qed.

(** When [gather] returns every task is finished and the state is off;
    [_run] then logs the object and, exactly if some task raised, the error
    report: a line of 78 dashes, the line Errors were produced while running
    the control script: and the errors of the tasks. After it the handle is
    closed, nothing is left in its buffer, and the file holds what was
    pending followed by these lines. *)
Theorem gather_returns w w' :
  reachable w ->
  step w Gathered = Some w' ->
  (forall name, is_finished (_tasks w name) = true) /\
  _state w = "off" /\
  main w' = M_done /\ _log_fd w' = false /\ log_buf w' = "" /\
  _state w' = _state w /\ _tasks w' = _tasks w /\
  exit_status w' = exit_status w /\
  file_content w'
  = pending w ++ log_line (repr w) true w
    ++ error_block (errors_of (retvals w)) /\
  (error_block (errors_of (retvals w)) = "" <-> ~ some_task_raised w) /\
  (some_task_raised w ->
   error_block (errors_of (retvals w))
   = repeat_string "-" 78 ++ nl
     ++ "Errors were produced while running the control script:" ++ nl
     ++ String.concat "" (errors_of (retvals w)) ++ nl).
Proof.
  intros R S.
  pose proof (reachable_invariant _ R) as I.
  destruct (reachable_handle _ R) as (H1 & _).
  unfold step in S. destruct (main w) eqn:M; try discriminate.
  unfold Invariant in I. rewrite M in I.
  destruct (all_finished w) eqn:A; try discriminate.
  assert (Fd : _log_fd w = true) by tauto.
  assert (F : forall name, is_finished (_tasks w name) = true).
  { intros name. unfold all_finished in A. rewrite forallb_forall in A.
    apply A. destruct name; simpl; auto 10. }
  injection S as <-.
  split; [exact F|]. split; [apply (inv_off I), F|].
  pose proof (errors_of_retvals w) as ER.
  unfold _run_end.
  destruct (errors_of (retvals w)) as [|x xs] eqn:Er.
  - rewrite log_eq. unfold logged_buf, logged_file, pending, flush,
      append_log_file, file_content.
    simpl. rewrite Fd.
    generalize (log_line (repr w) true w). intros line.
    repeat (split; [auto; fail|]).
    cbn [error_block]. rewrite append_empty_r.
    split; [|split; [split; [intros _; apply ER; reflexivity|reflexivity]|]].
    + destruct (flush_log (cfg w)); simpl;
        rewrite ?append_empty_r, ?append_assoc; reflexivity.
    + intros X. exfalso. apply (proj1 ER); [reflexivity|exact X].
  - match goal with
    | |- context [log ?m false (log _ true w)] => set (m2 := m)
    end.
    assert (B : error_block (x :: xs) = m2 ++ nl).
    { subst m2. cbn [error_block]. rewrite !append_assoc. reflexivity. }
    assert (B' : m2 ++ nl
                 = repeat_string "-" 78 ++ nl
                   ++ "Errors were produced while running the control script:"
                   ++ nl ++ String.concat "" (x :: xs) ++ nl).
    { subst m2. rewrite !append_assoc. reflexivity. }
    rewrite B.
    rewrite !log_eq. unfold logged_buf, logged_file, pending, flush,
      append_log_file, file_content, log_line.
    simpl. rewrite Fd.
    repeat (split; [auto; fail|]).
    split; [|split].
    + destruct (flush_log (cfg w)); simpl;
        rewrite ?append_empty_r, ?append_assoc; reflexivity.
    + split.
      * intros X. exfalso. revert X. clear.
        generalize m2. intros s X. destruct s; discriminate.
      * intros X. exfalso. apply X.
        assert (Y : errors_of (retvals w) <> []) by (rewrite Er; discriminate).
        apply errors_of_some in Y. destruct Y as [e Y].
        unfold retvals in Y. apply in_map_iff in Y.
        destruct Y as (name & E & _). exists name, e. exact E.
    + intros _. exact B'.
Qed.

End Gather.

(** ** Cancelling tasks *)

Lemma cancel_finished n ts m :
  is_finished (ts m) = true -> cancel n ts m = ts m.
Proof.
  intros F. unfold cancel.
  assert (U : forall k, is_finished (ts k) = false -> request_cancel k ts m = ts m).
  { intros k Fk. unfold request_cancel. apply upd_other. intros ->. congruence. }
  destruct (status (ts n)) as [|p|] eqn:E; try reflexivity.
  - apply U. unfold is_finished. rewrite E. reflexivity.
  - destruct (awaits_task p) as [k|].
    + destruct (is_finished (ts k)) eqn:Fk.
      * apply U. unfold is_finished. rewrite E. reflexivity.
      * apply U. exact Fk.
    + apply U. unfold is_finished. rewrite E. reflexivity.
Qed.

Lemma cancel_each_finished names : forall ts m,
  is_finished (ts m) = true -> cancel_each names ts m = ts m.
Proof.
  unfold cancel_each.
  induction names as [|n names IH]; intros ts m F; simpl; [reflexivity|].
  rewrite IH.
  - apply cancel_finished. exact F.
  - unfold is_finished in *. rewrite cancel_status. exact F.
Qed.

(** [_cancel_tasks] changes no task's status and nothing but the tasks; a
    finished task is left as it is; a cancellation already requested stays
    requested; and every task it names is afterwards finished, or has its
    cancellation requested, or awaits the probe while the probe has failed
    or has its cancellation requested. With no names it goes through all
    tasks. *)
Theorem cancel_tasks_requests names w m :
  status (_tasks (_cancel_tasks names w) m) = status (_tasks w m) /\
  (is_finished (_tasks w m) = true ->
   _tasks (_cancel_tasks names w) m = _tasks w m) /\
  (cancel_req (_tasks w m) = true ->
   cancel_req (_tasks (_cancel_tasks names w) m) = true) /\
  (In m (cancelled_names names) ->
   doomed (_tasks (_cancel_tasks names w)) m = true) /\
  cancelled_names [] = [t_run_vm; t_wait_until_booted; t_progress;
                        t_boot_timeout; t_shut_down; t_shutdown_timeout] /\
  _state (_cancel_tasks names w) = _state w /\
  exit_status (_cancel_tasks names w) = exit_status w /\
  stderr (_cancel_tasks names w) = stderr w.
Proof.
  split; [apply cancel_tasks_status|].
  split; [intros F; unfold _cancel_tasks; simpl;
          apply cancel_each_finished; exact F|].
  split; [apply cancel_tasks_mono|].
  split; [|repeat split].
  intros H. unfold _cancel_tasks. simpl. apply cancel_each_doomed.
  exact H.
Qed.

(** ** More of what holds in every reachable state *)

Section Reached.

Context {lib : PyLib}.

(** Events that are not a task's step change nothing the tasks compute
    with, apart from the clock, the shutdown request and the log. *)
Lemma step_frame_more w e w' :
  step w e = Some w' -> (forall n a, e <> Resume n a) ->
  qmp_sent w' = qmp_sent w /\ _qmp_established w' = _qmp_established w /\
  exit_status w' = exit_status w /\ mem_err w' = mem_err w.
Proof.
  unfold step. intros S N.
  destruct e; try (exfalso; eapply N; reflexivity);
    destruct (main w) eqn:M; try discriminate;
    try (destruct (is_started _); try discriminate);
    try (destruct (_log_fd w) eqn:Fd; try discriminate);
    try (destruct (all_finished w) eqn:A; try discriminate);
    injection S as <-.
  all: try (rewrite run_begin_eq, !log_eq, log_context_eq, remove_log_eq;
            simpl; auto; fail).
  all: try (simpl; auto; fail).
  all: unfold _run_end;
    match goal with
    | |- context [match ?x with [] => _ | _ => _ end] => destruct x
    end; rewrite ?log_eq; simpl; auto.
Qed.

Lemma booted_state_iff w :
  booted_state w = true <-> _state w = "running" \/ _state w = "shutting_down".
Proof.
  unfold booted_state. rewrite orb_true_iff, !String.eqb_eq. tauto.
Qed.

Lemma step_probe_done w e w' :
  Invariant w -> well_placed w /\ probe_done w -> step w e = Some w' ->
  well_placed w' /\ probe_done w'.
Proof.
  intros I (P & Q) S.
  split; [eapply step_placed; eassumption|].
  unfold probe_done in *. rewrite booted_state_iff in *.
  destruct (event_cases e) as [->|[(n & a & ->)|[C N]]].
  - apply call_frame in S. destruct S as (_ & _ & E & _).
    rewrite E. intros [X|X]; discriminate.
  - pose proof (reachable_gather _ _ _ _ S) as M.
    unfold Invariant in I. rewrite M in I.
    unfold step in S. rewrite M in S.
    destruct (task_name_dec n t_wait_until_booted) as [->|D].
    + apply resume_not_finished in S as NF.
      assert (B : ~ (_state w = "running" \/ _state w = "shutting_down")).
      { intros X. apply Q in X. unfold is_finished in NF. rewrite X in NF.
        discriminate. }
      destruct (probe_step _ _ _ I P S)
        as [(-> & E1 & E2 & E3)
           |(_ & _ & _ & [(-> & E1 & E2 & E3)
                         |[(-> & E1 & E2 & E3)
                          |[(e & -> & E1 & E2 & E3)
                           |[(e & -> & E1 & E2 & E3)
                            |[(r & -> & E1 & E0 & E2 & E3)
                             |[(r & -> & E1 & E0 & E2 & E3)
                              |(k & -> & E1 & E0 & E2 & E3)]]]]]])];
        try (rewrite E3; intros [X|X]; discriminate);
        try (rewrite E2; intros X; contradiction).
      intros _. exact E2.
    + assert (D' : t_wait_until_booted <> n) by congruence.
      destruct (resume_others _ _ _ _ S _ D') as [X _]. rewrite X.
      destruct (resume_phase _ _ _ _ I S)
        as [H|[(-> & _)|[(_ & H & _)|(_ & H & _)]]]; try congruence.
      * rewrite H. exact Q.
      * intros _. apply Q. auto.
      * rewrite H. intros [Y|Y]; discriminate.
  - destruct (step_frame _ _ _ S C N) as (E1 & E2 & _).
    rewrite E1, E2. exact Q.
Qed.

(** The state is running or shutting_down only after the boot probe has
    returned: no other task, and no failed or cancelled probe, ever moves
    the controller past booting. *)
Theorem booted_only_by_probe w :
  reachable w ->
  (_state w = "running" \/ _state w = "shutting_down") ->
  status (_tasks w t_wait_until_booted) = Finished Returned.
Proof.
  intros (c & o & u & evs & H) B.
  assert (G : well_placed w /\ probe_done w).
  { eapply (run_preserves (fun v => well_placed v /\ probe_done v)
              step_probe_done); [| |exact H].
    - apply init_invariant.
    - split; [intros name p; discriminate|]. intros X. discriminate. }
  destruct G as [_ G]. apply G. apply booted_state_iff. exact B.
Qed.

End Reached.

Section Traffic.

Context {lib : PyLib}.

Lemma client_traffic a w w' :
  sent_at (status (_tasks w t_shut_down)) (qmp_sent w) ->
  resume t_shut_down a w = Some w' ->
  sent_at (status (_tasks w' t_shut_down)) (qmp_sent w').
Proof.
  intros Q H.
  leaves H a Es Ec.
  all: prepare H.
  all: simpl in Q; try contradiction.
  all: unfold settle, clear_cancel; rewrite ?log_eq; simpl; rewrite ?Q; simpl.
  all: auto.
Qed.

Lemma step_traffic w e w' :
  Invariant w -> traffic_inv w -> step w e = Some w' -> traffic_inv w'.
Proof.
  intros I Q S. unfold traffic_inv in *.
  destruct (event_cases e) as [->|[(n & a & ->)|[C N]]].
  - destruct (step_frame_more _ _ _ S) as (E & _); [intros; discriminate|].
    apply call_frame in S. destruct S as (M & _ & _ & T & _).
    unfold Invariant in I. rewrite M in I.
    rewrite E, T, (fresh_sent I). reflexivity.
  - pose proof (reachable_gather _ _ _ _ S) as M.
    unfold step in S. rewrite M in S.
    destruct (task_name_dec n t_shut_down) as [->|D].
    + eapply client_traffic; eassumption.
    + assert (D' : t_shut_down <> n) by congruence.
      destruct (resume_others _ _ _ _ S _ D') as [X _].
      destruct (resume_client _ _ _ _ S D) as [_ Y].
      rewrite X, Y. exact Q.
  - destruct (step_frame _ _ _ S C N) as (_ & T & _).
    destruct (step_frame_more _ _ _ S N) as (E & _).
    rewrite E, T. exact Q.
Qed.

(** All that is ever written to the QMP socket is the qmp_capabilities
    command, once, and after it the system_powerdown command, once; which
    of them have been written is determined by the [await] at which
    [_shut_down] is suspended. *)
Theorem qmp_traffic w :
  reachable w ->
  sent_at (status (_tasks w t_shut_down)) (qmp_sent w) /\
  (qmp_sent w = [] \/
   qmp_sent w = [qmp_command "qmp_capabilities"] \/
   qmp_sent w = [qmp_command "qmp_capabilities";
                 qmp_command "system_powerdown"]).
Proof.
  intros (c & o & u & evs & H).
  assert (Q : traffic_inv w).
  { eapply (run_preserves traffic_inv step_traffic); [| |exact H].
    - apply init_invariant.
    - reflexivity. }
  split; [exact Q|]. unfold traffic_inv in Q.
  destruct (status (_tasks w t_shut_down)) as [|p|]; simpl in Q; auto.
  destruct p; try contradiction; auto.
Qed.

Lemma supervisor_exit a w w' :
  Inv w -> exit_inv w ->
  resume t_run_vm a w = Some w' -> exit_inv w'.
Proof.
  intros I (Q1 & Q2 & Q3) H.
  destruct (resume_exit _ _ _ _ H) as [X1 X2].
  pose proof (resume_not_finished _ _ _ _ H) as NF.
  pose proof (inv_exit I NF) as E0. pose proof (inv_mem I E0) as M0.
  unfold exit_inv. rewrite X1, X2. unfold exit_status_after, mem_err_after.
  leaves H a Es Ec.
  all: prepare H.
  all: unfold settle, clear_cancel; rewrite ?log_eq; simpl.
  all: rewrite ?E0, ?M0.
  all: repeat split; intros; try discriminate; try congruence; auto.
  all: try (apply Q1; reflexivity).
  all: match goal with
       | H : (?c =? 1)%Z = true |- Some ?c = _ =>
           apply Z.eqb_eq in H; congruence
       end.
Qed.

Lemma step_exit_inv w e w' :
  Invariant w -> exit_inv w -> step w e = Some w' -> exit_inv w'.
Proof.
  intros I Q S.
  destruct (event_cases e) as [->|[(n & a & ->)|[C N]]].
  - destruct (step_frame_more _ _ _ S) as (_ & _ & E1 & E2);
      [intros; discriminate|].
    destruct (step_io _ _ _ S) as (_ & E3 & _); [intros; discriminate|].
    apply call_frame in S. destruct S as (M & _ & _ & T & _).
    unfold Invariant in I. rewrite M in I.
    unfold exit_inv. rewrite E1, E2, E3, T, (fresh_exit I), (fresh_mem I).
    repeat split; intros; try discriminate; congruence.
  - pose proof (reachable_gather _ _ _ _ S) as M.
    unfold Invariant in I. rewrite M in I.
    unfold step in S. rewrite M in S.
    destruct (task_name_dec n t_run_vm) as [->|D].
    + eapply supervisor_exit; eassumption.
    + assert (D' : t_run_vm <> n) by congruence.
      destruct (resume_others _ _ _ _ S _ D') as [X _].
      destruct (resume_exit _ _ _ _ S) as [X1 X2].
      pose proof (resume_io _ _ _ _ S) as [_ X3].
      assert (X3' : pid w' = pid w) by (destruct n; auto; contradiction).
      assert (X1' : exit_status w' = exit_status w)
        by (rewrite X1; destruct n; try reflexivity; contradiction).
      assert (X2' : mem_err w' = mem_err w)
        by (rewrite X2; destruct n; try reflexivity; contradiction).
      unfold exit_inv in *. rewrite X, X1', X2', X3'. exact Q.
  - destruct (step_frame _ _ _ S C N) as (_ & T & _).
    destruct (step_frame_more _ _ _ S N) as (_ & _ & E1 & E2).
    destruct (step_io _ _ _ S N) as (_ & E3 & _).
    unfold exit_inv in *. rewrite E1, E2, E3, T. exact Q.
Qed.

Lemma reachable_exit_inv w : reachable w -> exit_inv w.
Proof.
  intros (c & o & u & evs & H).
  eapply (run_preserves exit_inv step_exit_inv); [| |exact H].
  - apply init_invariant.
  - unfold exit_inv. simpl. repeat split; intros; try discriminate;
      congruence.
Qed.

(** An exit status is recorded only for a process that was started, whose
    pid the object then holds; and the memory-failure flag is only ever set
    together with exit status 1. *)
Theorem exit_status_has_pid w :
  reachable w ->
  (exit_status w <> None -> pid w <> None) /\
  (mem_err w = true -> exit_status w = Some 1%Z) /\
  (status (_tasks w t_run_vm) = At RV_wait -> pid w <> None).
Proof.
  intros R. destruct (reachable_exit_inv _ R) as (Q1 & Q2 & Q3). auto.
Qed.

End Traffic.

(** ** The [__main__] block *)

Section Main.

Context {lib : PyLib}.

Lemma report_spec msg w :
  _log_fd w = false ->
  stderr (report msg w) = (stderr w ++ [(msg ++ nl)%string])%list /\
  file_content (report msg w) = file_content w ++ (msg ++ nl) /\
  stdout (report msg w) = stdout w /\
  _log_fd (report msg w) = false /\
  mem_err (report msg w) = mem_err w /\
  exit_status (report msg w) = exit_status w /\
  _state (report msg w) = _state w /\ _tasks (report msg w) = _tasks w.
Proof.
  intros Fd. unfold report. rewrite log_eq.
  unfold logged_file, logged_buf, log_line, file_content. simpl.
  rewrite Fd. simpl. repeat split; auto.
Qed.

Lemma exit_code_zero es : sys_exit_arg es = 0%Z <-> es = Some 0%Z.
Proof.
  unfold sys_exit_arg. destruct es as [c|]; split; intros H;
    try discriminate; congruence.
Qed.

(** What the [__main__] block does after the call: the exit code is the
    exit status, or 1 if there is none. With exit status 0 it prints the
    success message and logs it, and writes nothing to the standard error
    stream. Otherwise the exit code is not 0, nothing is printed, and a
    failure message, followed by the memory advice exactly if the
    memory-failure flag is set, is written to the standard error stream and
    added, with the same text, to the log file. *)
Theorem main_block_reports log_name k w w' c :
  _log_fd w = false ->
  main_block log_name k w = Ok (w', c) ->
  c = sys_exit_arg (exit_status w) /\
  _state w' = _state w /\ exit_status w' = exit_status w /\
  ((exit_status w = Some 0%Z /\ c = 0%Z /\
    stderr w' = stderr w /\
    stdout w' = (stdout w ++ [(msg_success ++ nl ++ nl)%string])%list /\
    file_content w' = file_content w ++ (msg_success ++ nl)) \/
   (exit_status w <> Some 0%Z /\ c <> 0%Z /\
    stdout w' = stdout w /\
    exists msg,
      failure_message log_name k (exit_status w) (pid w) = Ok msg /\
      stderr w'
      = (stderr w ++ (msg ++ nl)%string
           :: (if mem_err w then [(msg_memory ++ nl)%string] else []))%list /\
      file_content w'
      = file_content w
        ++ String.concat "" ((msg ++ nl)
             :: (if mem_err w then [msg_memory ++ nl] else [])))).
Proof.
  intros Fd H. unfold main_block, call_result in H.
  assert (Z0 : exit_status w = Some 0%Z \/ exit_status w <> Some 0%Z).
  { destruct (exit_status w) as [[| |]|]; auto; right; discriminate. }
  destruct Z0 as [Z0|Z0].
  - rewrite Z0 in H. injection H as <- <-. rewrite log_eq.
    unfold logged_file, logged_buf, log_line, file_content. simpl.
    rewrite Fd, Z0. simpl. repeat split; auto. left. repeat split; auto.
  - assert (H' : match failure_message log_name k (exit_status w) (pid w) with
                 | Raise e => Raise e
                 | Ok msg =>
                     Ok (if mem_err (report msg w)
                         then report msg_memory (report msg w)
                         else report msg w, sys_exit_arg (exit_status w))
                 end = Ok (w', c)).
    { destruct (exit_status w) as [[| |]|]; try exact H. congruence. }
    clear H.
    destruct (failure_message log_name k (exit_status w) (pid w))
      as [msg|e] eqn:Fm; try discriminate.
    destruct (report_spec msg w Fd) as (R1 & R2 & R3 & R4 & R5 & R6 & R7 & R8).
    rewrite R5 in H'.
    assert (C : sys_exit_arg (exit_status w) <> 0%Z).
    { intros X. apply exit_code_zero in X. contradiction. }
    destruct (mem_err w) eqn:Me; injection H' as <- <-.
    + destruct (report_spec msg_memory (report msg w) R4)
        as (S1 & S2 & S3 & S4 & S5 & S6 & S7 & S8).
      repeat split; try congruence. right. repeat split; try congruence.
      exists msg. split; [reflexivity|].
      rewrite S1, S2, R1, R2. split.
      * rewrite <- app_assoc. reflexivity.
      * simpl. rewrite append_assoc. reflexivity.
    + repeat split; try congruence. right. repeat split; try congruence.
      exists msg. split; [reflexivity|]. rewrite R1, R2. split.
      * reflexivity.
      * simpl. reflexivity.
Qed.

(** [os.kill] is consulted only when there is no exit status but a pid:
    in every other case the block does the same whatever [os.kill] would
    do; and when it is consulted and raises something other than
    ProcessLookupError, that exception ends the script before anything is
    reported. *)
Theorem kill_only_without_exit log_name w :
  ((exit_status w <> None \/ pid w = None) ->
   forall k k', main_block log_name k w = main_block log_name k' w) /\
  (exit_status w = None -> pid w <> None ->
   forall e, main_block log_name (Kill_raises e) w = Raise e) /\
  (exit_status w = None -> pid w <> None ->
   forall k, (forall e, k <> Kill_raises e) ->
     exists w', main_block log_name k w = Ok (w', 1%Z)).
Proof.
  unfold main_block, call_result, failure_message.
  split; [|split].
  - intros [H|H] k k'.
    + destruct (exit_status w) as [[| |]|]; try reflexivity. congruence.
    + rewrite H. destruct (exit_status w) as [[| |]|]; reflexivity.
  - intros E P e. rewrite E. destruct (pid w); [reflexivity|congruence].
  - intros E P k N. rewrite E. destruct (pid w); [|congruence].
    destruct k; try (eexists; reflexivity).
    exfalso. eapply N. reflexivity.
Qed.

(** After a run in which the memory-failure flag was set, the block exits
    with 1 and writes the error status and the memory advice to the
    standard error stream, whatever [os.kill] would do. *)
Theorem memory_failure_reported log_name k w :
  reachable w -> main w = M_done -> mem_err w = true ->
  exists w',
    main_block log_name k w = Ok (w', 1%Z) /\
    stderr w' = (stderr w ++ [(msg_error_status log_name 1 ++ nl)%string;
                              (msg_memory ++ nl)%string])%list /\
    file_content w'
    = file_content w ++ (msg_error_status log_name 1 ++ nl)
      ++ (msg_memory ++ nl).
Proof.
  intros R M Me.
  destruct (reachable_exit_inv _ R) as (_ & _ & Q3).
  destruct (reachable_handle _ R) as (H1 & _).
  assert (Fd : _log_fd w = false).
  { destruct (_log_fd w) eqn:Fd; auto.
    assert (X : main w = M_gather) by tauto. congruence. }
  specialize (Q3 Me).
  assert (E : main_block log_name k w
              = Ok (report msg_memory (report (msg_error_status log_name 1) w),
                    1%Z)).
  { unfold main_block, call_result, failure_message. rewrite Q3. simpl.
    destruct (report_spec (msg_error_status log_name 1) w Fd)
      as (_ & _ & _ & _ & R5 & _).
    rewrite R5, Me. reflexivity. }
  eexists. split; [exact E|].
  destruct (report_spec (msg_error_status log_name 1) w Fd)
    as (R1 & R2 & _ & R4 & _).
  destruct (report_spec msg_memory _ R4) as (S1 & S2 & _).
  rewrite S1, S2, R1, R2. split.
  - rewrite <- app_assoc. reflexivity.
  - rewrite append_assoc. reflexivity.
Qed.

(** After a run in which QEMU was never started (the object has no pid),
    there is no exit status either: the block reports Failed to start VM
    process with the name of the log file and exits with 1. *)
Theorem failure_to_start_reported log_name k w :
  reachable w -> main w = M_done -> pid w = None ->
  exit_status w = None /\ mem_err w = false /\
  exists w',
    main_block log_name k w = Ok (w', 1%Z) /\
    stderr w'
    = (stderr w ++ [(msg_failed_to_start log_name ++ nl)%string])%list.
Proof.
  intros R M P.
  destruct (reachable_exit_inv _ R) as (_ & Q2 & Q3).
  destruct (reachable_handle _ R) as (H1 & _).
  assert (Fd : _log_fd w = false).
  { destruct (_log_fd w) eqn:Fd; auto.
    assert (X : main w = M_gather) by tauto. congruence. }
  assert (E : exit_status w = None).
  { destruct (exit_status w) eqn:E; auto. exfalso. apply Q2; congruence. }
  assert (Me : mem_err w = false).
  { destruct (mem_err w) eqn:Me; auto. specialize (Q3 eq_refl). congruence. }
  split; [exact E|]. split; [exact Me|].
  destruct (report_spec (msg_failed_to_start log_name) w Fd)
    as (R1 & _ & _ & _ & R5 & _).
  exists (report (msg_failed_to_start log_name) w). split; [|exact R1].
  unfold main_block, call_result, failure_message. rewrite E, P. simpl.
  rewrite R5, Me. reflexivity.
Qed.


End Main.


(** * Facts about gemvm.config *)

Module ConfigFacts.

Import GemvmConfig.

Lemma confirm_skips prompt skipped : forall rest out,
  forallb (fun x => negb (recognised x)) skipped = true ->
  confirm prompt (skipped ++ rest) out
  = confirm prompt rest (out ++ repeat (prompt_text prompt) (length skipped)).
Proof.
  induction skipped as [|i skipped IH]; intros rest out H.
  - simpl. rewrite app_nil_r. reflexivity.
  - cbn [app confirm length repeat].
    simpl in H. apply andb_true_iff in H. destruct H as [Hi H].
    unfold recognised, says_yes, says_no in Hi.
    destruct i as [line|]; [|rewrite orb_true_r in Hi; discriminate].
    apply negb_true_iff, orb_false_iff in Hi. destruct Hi as [Hy Hn].
    unfold read_answer. cbv beta iota zeta. rewrite Hy, Hn.
    rewrite IH by exact H. rewrite <- app_assoc. reflexivity.
Qed.

(** [confirm] asks again after every answer it does not recognise, and
    returns on the first recognised one: True exactly for y or yes in any
    letter case; an empty answer, EOFError and KeyboardInterrupt count as
    no. It has then written the prompt once per answer read, and an empty
    line if the last read was interrupted. *)
Theorem confirm_first_answer prompt skipped i rest out :
  forallb (fun x => negb (recognised x)) skipped = true ->
  recognised i = true ->
  confirm prompt (skipped ++ i :: rest) out
  = (Some (says_yes i), rest,
     out ++ repeat (prompt_text prompt) (length skipped + 1)
         ++ match i with None => [nl] | Some _ => [] end)%list.
Proof.
  intros Hs Hi. rewrite confirm_skips by exact Hs.
  cbn [confirm]. unfold read_answer, recognised, says_yes, says_no in *.
  rewrite repeat_app. cbn [repeat].
  destruct i as [line|]; cbv beta iota zeta.
  - destruct (str_in (lower line) ["y"; "yes"]) eqn:Y.
    + rewrite app_nil_r, <- !app_assoc. reflexivity.
    + cbn [orb] in Hi. rewrite Hi.
      rewrite app_nil_r, <- !app_assoc. reflexivity.
  - change (str_in "" ["y"; "yes"]) with false.
    change (str_in "" ["n"; "no"; ""]) with true.
    cbv beta iota. rewrite <- !app_assoc. reflexivity.
Qed.

Lemma confirm_first_answer_witness :
  confirm "Delete entry iraf?" [Some "maybe"; Some "YES"; Some "n"] []
  = (Some true, [Some "n"],
     [prompt_text "Delete entry iraf?"; prompt_text "Delete entry iraf?"]).
Proof.
  exact (confirm_first_answer "Delete entry iraf?" [Some "maybe"] (Some "YES")
           [Some "n"] [] eq_refl eq_refl).
Defined.

(** As long as no answer is recognised [confirm] does not return: it has
    written the prompt once per answer and once more, and waits. *)
Theorem confirm_waits prompt inputs out :
  forallb (fun x => negb (recognised x)) inputs = true ->
  confirm prompt inputs out
  = (None, [], (out ++ repeat (prompt_text prompt) (length inputs + 1))%list).
Proof.
  intros H. rewrite <- (app_nil_r inputs) at 1.
  rewrite confirm_skips by exact H. cbn [confirm].
  rewrite repeat_app, <- app_assoc. reflexivity.
Qed.

Lemma confirm_waits_witness :
  confirm "Delete ALL config entries?" [Some "what?"] []
  = (None, [], [prompt_text "Delete ALL config entries?";
                prompt_text "Delete ALL config entries?"]).
Proof.
  exact (confirm_waits "Delete ALL config entries?" [Some "what?"] [] eq_refl).
Defined.


Lemma dict_get_set_same k v d : dict_get k (dict_set k v d) = Some v.
Proof.
  induction d as [|[k' v'] d IH]; simpl.
  - rewrite String.eqb_refl. reflexivity.
  - destruct (String.eqb k k') eqn:E; simpl; rewrite E; auto.
Qed.

Lemma dict_get_set_other k k' v d :
  k' <> k -> dict_get k' (dict_set k v d) = dict_get k' d.
Proof.
  intros N. induction d as [|[k0 v0] d IH]; simpl.
  - apply String.eqb_neq in N. rewrite N. reflexivity.
  - destruct (String.eqb k k0) eqn:E; simpl.
    + apply String.eqb_eq in E. subst k0.
      apply String.eqb_neq in N. rewrite N. reflexivity.
    + rewrite IH. reflexivity.
Qed.

Lemma dict_get_none k d : dict_get k d = None <-> ~ In k (map fst d).
Proof.
  induction d as [|[k0 v0] d IH]; simpl.
  - tauto.
  - destruct (String.eqb k k0) eqn:E.
    + apply String.eqb_eq in E. subst. split; [discriminate|].
      intros H. exfalso. apply H. auto.
    + apply String.eqb_neq in E. rewrite IH. split.
      * intros H [X|X]; [congruence|contradiction].
      * intros H X. apply H. auto.
Qed.

Lemma dict_get_remove_same k d :
  NoDup (map fst d) -> dict_get k (dict_remove k d) = None.
Proof.
  induction d as [|[k0 v0] d IH]; simpl; intros H; [reflexivity|].
  inversion H as [|x l Hx Hl]; subst.
  destruct (String.eqb k k0) eqn:E.
  - apply String.eqb_eq in E. subst. apply dict_get_none. exact Hx.
  - simpl. rewrite E. apply IH. exact Hl.
Qed.

Lemma dict_get_remove_other k k' d :
  k' <> k -> dict_get k' (dict_remove k d) = dict_get k' d.
Proof.
  intros N. induction d as [|[k0 v0] d IH]; simpl; [reflexivity|].
  destruct (String.eqb k k0) eqn:E.
  - apply String.eqb_eq in E. subst.
    apply String.eqb_neq in N. rewrite N. reflexivity.
  - simpl. rewrite IH. reflexivity.
Qed.

Lemma nonempty_iff n : nonempty n = true <-> n <> "".
Proof.
  unfold nonempty. rewrite negb_true_iff. apply String.eqb_neq.
Qed.

Lemma dict_mem_false k d : dict_mem k d = false <-> dict_get k d = None.
Proof.
  unfold dict_mem. destruct (dict_get k d); split; congruence.
Qed.

Section MainFacts.

Variable py_str : json -> string.
Variable script_name : string.

Lemma not_found_spec a names n :
  not_found a names = Some n <->
  (a = Del (Some n) \/ a = List (Some n)) /\ n <> "" /\
  dict_get n names = None.
Proof.
  unfold not_found. rewrite <- nonempty_iff, <- dict_mem_false.
  destruct a as [m|[m|]|[m|]];
    try (split; [discriminate|intros ([X|X] & _); discriminate]).
  - destruct (nonempty m) eqn:E1; destruct (dict_mem m names) eqn:E2; simpl;
      split; try discriminate;
      try (intros H; injection H as <-; auto);
      intros ([X|X] & Y & Z); try discriminate; injection X as <-; congruence.
  - destruct (nonempty m) eqn:E1; destruct (dict_mem m names) eqn:E2; simpl;
      split; try discriminate;
      try (intros H; injection H as <-; auto);
      intros ([X|X] & Y & Z); try discriminate; injection X as <-; congruence.
Qed.

(** [main] exits with status 1 in exactly two cases: del or list is given
    a non-empty name that is not an entry, or add finds the configuration
    corrupt. It has then written one message to the standard error stream
    and nothing else: nothing is asked, printed, changed or saved. *)
Theorem exit_one_iff a names conf_errs vm_args inputs :
  let r := main py_str script_name a names conf_errs vm_args inputs in
  (ends r = Exits 1 <->
   (exists n, (a = Del (Some n) \/ a = List (Some n)) /\ n <> "" /\
              dict_get n names = None) \/
   (exists n, a = Add n /\ conf_errs = true)) /\
  (ends r = Exits 1 ->
   written r = false /\ names_after r = names /\ inputs_left r = inputs /\
   out r = [] /\
   (err r = [msg_not_found script_name
               match a with
               | Add n | Del (Some n) | List (Some n) => n
               | _ => ""
               end]
    \/ err r = [msg_corrupt script_name])).
Proof.
  intros r. subst r. unfold main.
  destruct (not_found a names) as [n|] eqn:NF.
  - pose proof (proj1 (not_found_spec a names n) NF) as (A & B & C).
    cbn [ends written names_after inputs_left out err].
    split; [split; [intros _; left; exists n; auto|reflexivity]|].
    intros _. repeat split. left.
    destruct A as [-> | ->]; reflexivity.
  - assert (NF' : forall n, ~ ((a = Del (Some n) \/ a = List (Some n)) /\
                               n <> "" /\ dict_get n names = None)).
    { intros n X. apply not_found_spec in X. congruence. }
    destruct a as [n|name|name].
    + destruct conf_errs.
      * cbn [ends written names_after inputs_left out err].
        split; [split; [intros _; right; exists n; auto|reflexivity]|].
        intros _. repeat split. right. reflexivity.
      * destruct (dict_mem n names).
        -- destruct (confirm _ inputs []) as [[[[|]|] i] o];
             cbn [ends]; (split; [split; [discriminate|]|discriminate]);
             intros [(m & X)|(m & _ & X)];
             [exfalso; exact (NF' m X)|discriminate
             |exfalso; exact (NF' m X)|discriminate
             |exfalso; exact (NF' m X)|discriminate].
        -- cbn [ends]. split; [split; [discriminate|]|discriminate].
           intros [(m & X)|(m & _ & X)];
             [exfalso; exact (NF' m X)|discriminate].
    + destruct (confirm _ inputs []) as [[[[|]|] i] o];
        try destruct name as [m|]; try destruct (dict_del m names);
        cbn [ends]; (split; [split; [discriminate|]|discriminate]);
        (intros [(k & X)|(k & X & _)];
         [exfalso; exact (NF' k X)|discriminate]).
    + destruct name as [m|];
        [destruct (dict_get m names) as [x|]|];
        try destruct (list_section _ _ _ _ _) as [o e];
        cbn [ends]; (split; [split; [discriminate|]|discriminate]);
        (intros [(k & X)|(k & X & _)];
         [exfalso; exact (NF' k X)|discriminate]).
Qed.


(** The configuration is saved exactly when it was modified: only add and
    del ever save, list never reads the console, and a run that does not
    save leaves the entries as they were. A saved configuration is the old
    one with the entry set (add), without the entry (del with a name) or
    without any entry (del without a name). *)
Theorem saved_iff_modified a names conf_errs vm_args inputs :
  let r := main py_str script_name a names conf_errs vm_args inputs in
  (written r = false -> names_after r = names) /\
  (written r = true ->
   ends r = Returns /\
   ((exists n, a = Add n /\ conf_errs = false /\
               names_after r = dict_set n vm_args names) \/
    (a = Del None /\ names_after r = []) \/
    (exists n, a = Del (Some n) /\ dict_get n names <> None /\
               names_after r = dict_remove n names))) /\
  (forall name, a = List name ->
     written r = false /\ inputs_left r = inputs).
Proof.
  intros r. subst r. unfold main.
  destruct (not_found a names) as [n|] eqn:NF.
  - cbn [ends written names_after inputs_left].
    split; [reflexivity|]. split; [discriminate|]. auto.
  - destruct a as [n|name|name].
    + destruct conf_errs.
      * cbn [ends written names_after]. split; [reflexivity|].
        split; [discriminate|]. intros; discriminate.
      * destruct (dict_mem n names).
        -- destruct (confirm _ inputs []) as [[[[|]|] i] o];
             cbn [ends written names_after];
             (split; [try reflexivity; try discriminate|]);
             (split; [try discriminate|intros; discriminate]).
           intros _. split; [reflexivity|]. left. exists n. auto.
        -- cbn [ends written names_after]. split; [discriminate|].
           split; [|intros; discriminate].
           intros _. split; [reflexivity|]. left. exists n. auto.
    + destruct (confirm _ inputs []) as [[[[|]|] i] o].
      * destruct name as [m|].
        -- unfold dict_del, dict_mem.
           destruct (dict_get m names) as [x|] eqn:G;
             cbn [ends written names_after].
           ++ split; [discriminate|]. split; [|intros; discriminate].
              intros _. split; [reflexivity|]. right. right. exists m.
              rewrite G. repeat split; auto. discriminate.
           ++ split; [reflexivity|]. split; [discriminate|].
              intros; discriminate.
        -- cbn [ends written names_after]. split; [discriminate|].
           split; [|intros; discriminate].
           intros _. split; [reflexivity|]. right. left. auto.
      * cbn [ends written names_after]. split; [reflexivity|].
        split; [discriminate|]. intros; discriminate.
      * cbn [ends written names_after]. split; [reflexivity|].
        split; [discriminate|]. intros; discriminate.
    + destruct name as [m|];
        [destruct (dict_get m names) as [x|]|];
        try destruct (list_section _ _ _ _ _) as [o e];
        cbn [ends written names_after inputs_left];
        (split; [reflexivity|]); (split; [discriminate|]); auto.
Qed.

(** After add has saved, the entry holds the merged arguments and every
    other entry is as before; and add saves exactly if the configuration is
    sound and the name is new or its replacement was confirmed. Declined,
    add prints Aborted and changes nothing. *)
Theorem add_stores_entry n names vm_args inputs :
  let r := main py_str script_name (Add n) names false vm_args inputs in
  let asked := confirm ("Replace existing entry " ++ n ++ "?") inputs [] in
  (written r = true <->
   dict_get n names = None \/ fst (fst asked) = Some true) /\
  (written r = true ->
   dict_get n (names_after r) = Some vm_args /\
   forall k, k <> n -> dict_get k (names_after r) = dict_get k names) /\
  (dict_get n names <> None -> fst (fst asked) = Some false ->
   ends r = Returns /\ names_after r = names /\
   out r = (snd asked ++ [aborted])%list) /\
  (dict_get n names = None -> inputs_left r = inputs /\ out r = []).
Proof.
  intros r asked. subst r asked. unfold main. cbn [not_found].
  unfold dict_mem.
  destruct (dict_get n names) as [x|] eqn:G.
  - destruct (confirm _ inputs []) as [[[[|]|] i] o];
      cbn [ends written names_after out inputs_left fst snd].
    + split; [split; auto|]. split; [|split; [discriminate|discriminate]].
      intros _. split; [apply dict_get_set_same|].
      intros k Hk. apply dict_get_set_other. exact Hk.
    + split; [split; [discriminate|intros [X|X]; discriminate]|].
      split; [discriminate|]. split; [auto|discriminate].
    + split; [split; [discriminate|intros [X|X]; discriminate]|].
      split; [discriminate|]. split; [discriminate|discriminate].
  - cbn [ends written names_after out inputs_left].
    split; [split; auto|]. split; [|split; [congruence|auto]].
    intros _. split; [apply dict_get_set_same|].
    intros k Hk. apply dict_get_set_other. exact Hk.
Qed.

(** del with a non-empty name of an entry asks Delete entry name? and, on
    yes, saves the configuration without that entry and with every other
    entry as before; on no it prints Aborted and changes nothing. *)
Theorem del_removes_entry n names conf_errs vm_args inputs :
  n <> "" -> dict_get n names <> None -> NoDup (map fst names) ->
  let r := main py_str script_name (Del (Some n)) names conf_errs vm_args
             inputs in
  let asked := confirm ("Delete entry " ++ n ++ "?") inputs [] in
  inputs_left r = snd (fst asked) /\
  (fst (fst asked) = Some true ->
   ends r = Returns /\ written r = true /\
   dict_get n (names_after r) = None /\
   (forall k, k <> n -> dict_get k (names_after r) = dict_get k names) /\
   out r = snd asked) /\
  (fst (fst asked) = Some false ->
   ends r = Returns /\ written r = false /\ names_after r = names /\
   out r = (snd asked ++ [aborted])%list) /\
  (fst (fst asked) = None -> ends r = Waits /\ written r = false).
Proof.
  intros Hn Hg Hd r asked. subst r asked. unfold main. cbn [not_found].
  apply nonempty_iff in Hn. rewrite Hn.
  assert (M : dict_mem n names = true).
  { unfold dict_mem. destruct (dict_get n names); congruence. }
  rewrite M. cbn [negb andb].
  destruct (confirm _ inputs []) as [[[[|]|] i] o]; unfold dict_del;
    rewrite ?M; cbn [ends written names_after out inputs_left fst snd].
  - split; [reflexivity|]. split; [|split; discriminate].
    intros _. repeat split.
    + apply dict_get_remove_same. exact Hd.
    + intros k Hk. apply dict_get_remove_other. exact Hk.
  - split; [reflexivity|]. split; [discriminate|]. split; [auto|discriminate].
  - split; [reflexivity|]. split; [discriminate|]. split; [discriminate|auto].
Qed.

(** del without a name asks Delete ALL config entries? and, on yes, saves
    a configuration without entries. del with the empty string as name asks
    the same question, but on yes removes only the entry named by the empty
    string, and ends with a KeyError, saving nothing, if there is no such
    entry. *)
Theorem del_all_or_empty_name names conf_errs vm_args inputs :
  let asked := confirm "Delete ALL config entries?" inputs [] in
  let r0 := main py_str script_name (Del None) names conf_errs vm_args inputs in
  let r1 := main py_str script_name (Del (Some "")) names conf_errs vm_args
              inputs in
  (fst (fst asked) = Some true ->
   ends r0 = Returns /\ written r0 = true /\ names_after r0 = [] /\
   (dict_get "" names = None ->
    ends r1 = Uncaught KeyError /\ written r1 = false /\
    names_after r1 = names) /\
   (dict_get "" names <> None ->
    ends r1 = Returns /\ written r1 = true /\
    names_after r1 = dict_remove "" names /\
    forall k, k <> "" -> dict_get k (names_after r1) = dict_get k names)) /\
  (fst (fst asked) <> Some true ->
   written r0 = false /\ written r1 = false /\
   names_after r0 = names /\ names_after r1 = names) /\
  out r0 = out r1 /\ inputs_left r0 = inputs_left r1.
Proof.
  intros asked r0 r1. subst asked r0 r1. unfold main. cbn [not_found].
  change (nonempty "") with false. cbn [andb].
  destruct (confirm _ inputs []) as [[[[|]|] i] o]; unfold dict_del, dict_mem;
    cbn [fst snd].
  - destruct (dict_get "" names) as [x|] eqn:G;
      cbn [ends written names_after out inputs_left].
    + split; [|split; [congruence|auto]].
      intros _. repeat split; try congruence.
      intros k Hk. apply dict_get_remove_other. exact Hk.
    + split; [|split; [congruence|auto]].
      intros _. repeat split; congruence.
  - cbn [ends written names_after out inputs_left].
    split; [discriminate|]. auto.
  - cbn [ends written names_after out inputs_left].
    split; [discriminate|]. auto.
Qed.

Lemma list_section_spec section : forall o e,
  list_section py_str script_name section o e
  = ((o ++ flat_map (show_entry py_str) section)%list,
     (e ++ map (fun item => msg_invalid script_name (fst item))
             (filter (fun item => negb (is_obj item)) section))%list).
Proof.
  unfold list_section.
  induction section as [|[name vals] section IH]; intros o e.
  - simpl. rewrite !app_nil_r. reflexivity.
  - assert (E : list_entry py_str script_name (name, vals) (o, e)
                = ((o ++ show_entry py_str (name, vals))%list,
                   (e ++ if is_obj (name, vals) then []
                         else [msg_invalid script_name name])%list)).
    { unfold list_entry, show_entry, is_obj.
      destruct vals; simpl; rewrite ?app_nil_r; reflexivity. }
    cbn [fold_left]. rewrite E, IH. cbn [flat_map filter map fst].
    destruct (is_obj (name, vals)); cbn [negb map fst];
      rewrite <- ?app_assoc; reflexivity.
Qed.

(** list prints, in the order of the configuration, each entry whose value
    is a dictionary (its name, one line per keyword and an empty line) and
    writes one message to the standard error stream for each other entry;
    it changes and saves nothing. With the empty string as name it ends
    with a KeyError if there is no such entry. *)
Theorem list_prints_entries names conf_errs vm_args inputs :
  let r := main py_str script_name (List None) names conf_errs vm_args inputs in
  ends r = Returns /\ written r = false /\ names_after r = names /\
  out r = flat_map (show_entry py_str) names /\
  err r = map (fun item => msg_invalid script_name (fst item))
            (filter (fun item => negb (is_obj item)) names) /\
  (err r = [] <-> forallb is_obj names = true) /\
  (forall n v,
     dict_get n names = Some v ->
     let r1 := main py_str script_name (List (Some n)) names conf_errs vm_args
                 inputs in
     ends r1 = Returns /\ written r1 = false /\
     out r1 = show_entry py_str (n, v) /\
     (err r1 = [] <-> is_obj (n, v) = true)) /\
  (dict_get "" names = None ->
   ends (main py_str script_name (List (Some "")) names conf_errs vm_args
           inputs) = Uncaught KeyError).
Proof.
  intros r. subst r.
  assert (A : forall l : dict,
            map (fun item => msg_invalid script_name (fst item))
              (filter (fun item => negb (is_obj item)) l) = []
            <-> forallb is_obj l = true).
  { induction l as [|item l IH]; simpl; [tauto|].
    destruct (is_obj item); simpl; [exact IH|].
    split; discriminate. }
  assert (L : main py_str script_name (List None) names conf_errs vm_args inputs
              = mkResult Returns names false inputs
                  (flat_map (show_entry py_str) names)
                  (map (fun item => msg_invalid script_name (fst item))
                     (filter (fun item => negb (is_obj item)) names))).
  { unfold main. cbn [not_found]. rewrite list_section_spec. reflexivity. }
  rewrite L. cbn [ends written names_after out err].
  split; [reflexivity|]. split; [reflexivity|]. split; [reflexivity|].
  split; [reflexivity|]. split; [reflexivity|]. split; [apply A|].
  split.
  - intros n v G.
    assert (M : dict_mem n names = true) by (unfold dict_mem; rewrite G; auto).
    assert (L1 : main py_str script_name (List (Some n)) names conf_errs
                   vm_args inputs
                 = mkResult Returns names false inputs
                     (flat_map (show_entry py_str) [(n, v)])
                     (map (fun item => msg_invalid script_name (fst item))
                        (filter (fun item => negb (is_obj item)) [(n, v)]))).
    { unfold main. cbn [not_found]. rewrite M, andb_false_r, G.
      rewrite list_section_spec. reflexivity. }
    rewrite L1. cbn [ends written out err].
    split; [reflexivity|]. split; [reflexivity|].
    split; [simpl; apply app_nil_r|].
    rewrite A. simpl. rewrite andb_true_r. tauto.
  - intros G. unfold main. cbn [not_found].
    change (nonempty "") with false. cbn [andb]. rewrite G. reflexivity.
Qed.

End MainFacts.

End ConfigFacts.

(** ** The theorems at work on the example sessions *)

Lemma progress_reports_witness :
  reachable (lib := demo_lib) (after (signalled ++ [Tick])) /\
  step (lib := demo_lib) (after (signalled ++ [Tick])) (Resume t_progress Go)
  = Some (after (signalled ++ [Tick; Resume t_progress Go])) /\
  stderr (after (signalled ++ [Tick; Resume t_progress Go]))
  = stderr (after (signalled ++ [Tick])) /\
  forall e, status (_tasks (after (signalled ++ [Tick; Resume t_progress Go]))
                      t_progress) <> Finished (Raised e).
Proof.
  assert (R : reachable (lib := demo_lib) (after (signalled ++ [Tick]))).
  { exists demo_cfg, None, true, (signalled ++ [Tick])%list.
    vm_compute. reflexivity. }
  assert (S : step (lib := demo_lib) (after (signalled ++ [Tick]))
                (Resume t_progress Go)
              = Some (after (signalled ++ [Tick; Resume t_progress Go])))
    by (vm_compute; reflexivity).
  split; [exact R|]. split; [exact S|].
  destruct (progress_reports _ _ _ R S) as ((_ & _ & _ & _ & _ & _ & E & _) & N & _).
  split; [exact E|exact N].
Defined.

Lemma shutdown_announced_once_witness :
  reachable (lib := demo_lib) (after (signalled ++ [Tick; Resume t_progress Go]))
  /\ announced (after (signalled ++ [Tick; Resume t_progress Go])) <= 1.
Proof.
  assert (R : reachable (lib := demo_lib)
                (after (signalled ++ [Tick; Resume t_progress Go]))).
  { exists demo_cfg, None, true,
      (signalled ++ [Tick; Resume t_progress Go])%list.
    vm_compute. reflexivity. }
  split; [exact R|]. exact (proj1 (shutdown_announced_once _ R)).
Defined.

Lemma request_is_kept_witness :
  main (after negotiating) <> M_init /\
  run (lib := demo_lib) (after negotiating)
    [Resume t_shut_down (Json (Some ok_reply)); Sigint; Resume t_shut_down Go]
  = Some (after powering_down) /\
  shutdown_request (after powering_down) = true.
Proof.
  assert (M : main (after negotiating) <> M_init)
    by (vm_compute; discriminate).
  assert (H : run (lib := demo_lib) (after negotiating)
                [Resume t_shut_down (Json (Some ok_reply)); Sigint;
                 Resume t_shut_down Go]
              = Some (after powering_down)) by (vm_compute; reflexivity).
  split; [exact M|]. split; [exact H|].
  rewrite (request_is_kept (lib := demo_lib) _ _ _ M H).
  vm_compute. reflexivity.
Defined.

Lemma log_adds_line_witness :
  reachable (lib := demo_lib) (after booted) /\
  pending (log (lib := demo_lib) "note" true (after booted))
  = pending (after booted) ++ log_line (lib := demo_lib) "note" true (after booted).
Proof.
  assert (R : reachable (lib := demo_lib) (after booted)).
  { exists demo_cfg, None, true, booted. vm_compute. reflexivity. }
  split; [exact R|].
  exact (proj1 (log_adds_line (lib := demo_lib) "note" true _ R)).
Defined.

Lemma gather_returns_witness :
  reachable (lib := demo_lib) (after (removelast scenario_D)) /\
  step (lib := demo_lib) (after (removelast scenario_D)) Gathered
  = Some (after scenario_D) /\
  main (after scenario_D) = M_done /\ _log_fd (after scenario_D) = false.
Proof.
  assert (R : reachable (lib := demo_lib) (after (removelast scenario_D))).
  { exists demo_cfg, None, true, (removelast scenario_D).
    vm_compute. reflexivity. }
  assert (S : step (lib := demo_lib) (after (removelast scenario_D)) Gathered
              = Some (after scenario_D)) by (vm_compute; reflexivity).
  split; [exact R|]. split; [exact S|].
  destruct (gather_returns _ _ R S) as (_ & _ & M & F & _).
  split; assumption.
Defined.

Lemma booted_only_by_probe_witness :
  reachable (lib := demo_lib) (after powering_down) /\
  (_state (after powering_down) = "running" \/
   _state (after powering_down) = "shutting_down") /\
  status (_tasks (after powering_down) t_wait_until_booted) = Finished Returned.
Proof.
  assert (R : reachable (lib := demo_lib) (after powering_down)).
  { exists demo_cfg, None, true, powering_down. vm_compute. reflexivity. }
  assert (B : _state (after powering_down) = "running" \/
              _state (after powering_down) = "shutting_down")
    by (right; vm_compute; reflexivity).
  split; [exact R|]. split; [exact B|].
  exact (booted_only_by_probe _ R B).
Defined.

Lemma qmp_traffic_witness :
  reachable (lib := demo_lib) (after powering_down) /\
  sent_at (status (_tasks (after powering_down) t_shut_down))
    (qmp_sent (after powering_down)).
Proof.
  assert (R : reachable (lib := demo_lib) (after powering_down)).
  { exists demo_cfg, None, true, powering_down. vm_compute. reflexivity. }
  split; [exact R|]. exact (proj1 (qmp_traffic _ R)).
Defined.

Lemma exit_status_has_pid_witness :
  reachable (lib := demo_lib) (after scenario_C) /\
  mem_err (after scenario_C) = true /\
  exit_status (after scenario_C) = Some 1%Z.
Proof.
  assert (R : reachable (lib := demo_lib) (after scenario_C)).
  { exists demo_cfg, None, true, scenario_C. vm_compute. reflexivity. }
  assert (Me : mem_err (after scenario_C) = true) by (vm_compute; reflexivity).
  split; [exact R|]. split; [exact Me|].
  exact (proj1 (proj2 (exit_status_has_pid _ R)) Me).
Defined.

Lemma main_block_reports_witness :
  _log_fd (after scenario_A) = false /\
  (exists w', main_block (lib := demo_lib) demo_log_name Kill_ok
                (after scenario_A) = Ok (w', 0%Z) /\
              stderr w' = stderr (after scenario_A)).
Proof.
  assert (Fd : _log_fd (after scenario_A) = false) by (vm_compute; reflexivity).
  split; [exact Fd|].
  destruct (main_block (lib := demo_lib) demo_log_name Kill_ok
              (after scenario_A)) as [[w' c]|e] eqn:E;
    [|vm_compute in E; discriminate E].
  destruct (main_block_reports (lib := demo_lib) _ _ _ _ _ Fd E)
    as (C & _ & _ & [(_ & C0 & S & _)|(N & _)]).
  - exists w'. rewrite C0. split; [reflexivity|exact S].
  - exfalso. apply N. vm_compute. reflexivity.
Defined.

Lemma memory_failure_reported_witness :
  reachable (lib := demo_lib) (after scenario_C) /\
  main (after scenario_C) = M_done /\ mem_err (after scenario_C) = true /\
  exists w',
    main_block (lib := demo_lib) demo_log_name Kill_ok (after scenario_C)
    = Ok (w', 1%Z).
Proof.
  assert (R : reachable (lib := demo_lib) (after scenario_C)).
  { exists demo_cfg, None, true, scenario_C. vm_compute. reflexivity. }
  assert (M : main (after scenario_C) = M_done) by (vm_compute; reflexivity).
  assert (Me : mem_err (after scenario_C) = true) by (vm_compute; reflexivity).
  split; [exact R|]. split; [exact M|]. split; [exact Me|].
  destruct (memory_failure_reported (lib := demo_lib) demo_log_name Kill_ok
              _ R M Me) as (w' & E & _).
  exists w'. exact E.
Defined.

Lemma failure_to_start_reported_witness :
  reachable (lib := demo_lib) (after scenario_D) /\
  main (after scenario_D) = M_done /\ pid (after scenario_D) = None /\
  exit_status (after scenario_D) = None.
Proof.
  assert (R : reachable (lib := demo_lib) (after scenario_D)).
  { exists demo_cfg, None, true, scenario_D. vm_compute. reflexivity. }
  assert (M : main (after scenario_D) = M_done) by (vm_compute; reflexivity).
  assert (P : pid (after scenario_D) = None) by (vm_compute; reflexivity).
  split; [exact R|]. split; [exact M|]. split; [exact P|].
  exact (proj1 (failure_to_start_reported (lib := demo_lib) demo_log_name
                  Kill_ok _ R M P)).
Defined.

Lemma del_removes_entry_witness :
  "iraf" <> "" /\
  dict_get "iraf" [("iraf", JObj []); ("test", JObj [])] <> None /\
  NoDup (map fst [("iraf", JObj []); ("test", JObj [])]) /\
  dict_get "iraf"
    (GemvmConfig.names_after
       (GemvmConfig.main (fun _ => "") "gemvm-config"
          (GemvmConfig.Del (Some "iraf"))
          [("iraf", JObj []); ("test", JObj [])] false JNull [Some "y"]))
  = None.
Proof.
  assert (A : "iraf" <> "") by discriminate.
  assert (B : dict_get "iraf" [("iraf", JObj []); ("test", JObj [])] <> None)
    by (vm_compute; discriminate).
  assert (C : NoDup (map fst [("iraf", JObj []); ("test", JObj [])])).
  { simpl. constructor; [intros [X|[]]; discriminate|].
    constructor; [intros []|constructor]. }
  split; [exact A|]. split; [exact B|]. split; [exact C|].
  destruct (ConfigFacts.del_removes_entry (fun _ => "") "gemvm-config"
              "iraf" [("iraf", JObj []); ("test", JObj [])] false JNull
              [Some "y"] A B C) as (_ & H & _).
  exact (proj1 (proj2 (proj2 (H eq_refl)))).
Defined.

